(** * Database-Chatbot: the connector, the introspector and the endpoint
      synthesizer of [main.py]

    A shallow embedding of [connect_to_db], [analyze_db_structure],
    [generate_fastapi_api] and the "Analyze DB Details" action of the
    Streamlit script, together with the properties the specification
    states about them.

    Modelling conventions.
    - A [str] is a [string]; every character stands for the code point of
      the same number (code points below 256).
    - A [dict] is an insertion-ordered association list with unique keys
      ([odict]): [d[k] = v] keeps the position of a key already present
      and appends a new key, as CPython does.
    - The database drivers, the file system, the widgets and the FastAPI
      library are outside the program; they appear as records of functions
      whose results are [outcome]s: a value or a raised exception.  An
      [exn] stands for an
      instance of a subclass of [Exception], the class the script's
      [except Exception] clauses catch.
    - Python code runs in the monad [M L A]: the function's locals [L]
      and the process-wide [world] (messages shown, the JSON file, the
      routes of the FastAPI app, the cells closures share, the function
      objects created) are threaded through, and survive a raised
      exception. *)

From Stdlib Require Import String Ascii List ZArith Lia Bool.
From stdpp Require Import base list strings pretty.

Local Open Scope string_scope.
Local Open Scope list_scope.

(** ** Exceptions and outcomes *)

Record exn := Exn { exn_class : string; exn_str : string }.

Inductive outcome (A : Type) : Type :=
| Return (a : A)
| Raise (e : exn).
Arguments Return {A} a.
Arguments Raise {A} e.

Definition UnboundLocalError (name : string) : exn :=
  Exn "UnboundLocalError"
      ("cannot access local variable '" +:+ name +:+
       "' where it is not associated with a value").
Definition IndexError : exn := Exn "IndexError" "tuple index out of range".
Definition KeyError (k : string) : exn := Exn "KeyError" ("'" +:+ k +:+ "'").

(** ** Insertion-ordered dictionaries *)

Definition odict (V : Type) : Type := list (string * V).

Fixpoint od_get {V} (k : string) (d : odict V) : option V :=
  match d with
  | [] => None
  | (k', v) :: d' => if String.eqb k k' then Some v else od_get k d'
  end.

(** [k in d] *)
Definition od_mem {V} (k : string) (d : odict V) : bool :=
  match od_get k d with Some _ => true | None => false end.

(** [d[k] = v] *)
Fixpoint od_set {V} (k : string) (v : V) (d : odict V) : odict V :=
  match d with
  | [] => [(k, v)]
  | (k', v') :: d' =>
      if String.eqb k k' then (k', v) :: d' else (k', v') :: od_set k v d'
  end.

Definition od_keys {V} (d : odict V) : list string := map fst d.

(** ** The world outside the function being run *)

Inductive ui_event :=
| StError (msg : string)
| StWrite (label body : string)
| StSuccess (msg : string).

(** The values a generated handler returns. *)
Inductive response :=
| TableData (table : string) (columns : list string) (data : string)
| CollectionData (collection : string) (keys : list string).

(** The local variables of one call of [generate_fastapi_api] that the
    nested functions refer to.  CPython keeps each in a cell shared by the
    frame and by every closure created in it; [None] is an unbound cell. *)
Record frame := Frame {
  cell_table : option string;
  cell_columns : option (list string);
  cell_keys : option (list string)
}.

(** The code of the two functions defined in the loop of
    [generate_fastapi_api]. *)
Inductive code := get_table_data | get_collection_data.

(** A function object: its code, the frame whose cells it closes over and
    its identity.  Every execution of a [def] statement creates a new
    object, also when the code and the cells are those of an earlier
    one. *)
Record handler := Handler { h_code : code; h_frame : nat; h_id : nat }.

Record world := World {
  ui : list ui_event;                  (* st.error, st.write, st.success so far *)
  json_file : option string;           (* content of db_structure.json *)
  routes : list (string * handler);    (* app.router.routes, in order *)
  frames : list frame;                 (* the cells of every synthesis call *)
  functions : nat                      (* function objects created so far *)
}.

Definition world0 : world := World [] None [] [] 0.

(** ** The monad of Python statements *)

Definition M (L A : Type) : Type := L -> world -> outcome A * L * world.

Definition ret {L A} (a : A) : M L A := fun l w => (Return a, l, w).
Definition raise {L A} (e : exn) : M L A := fun l w => (Raise e, l, w).
Definition bind {L A B} (c : M L A) (k : A -> M L B) : M L B :=
  fun l w =>
    match c l w with
    | (Return a, l', w') => k a l' w'
    | (Raise e, l', w') => (Raise e, l', w')
    end.

Notation "x <- c ;; k" := (bind c (fun x => k))
  (at level 100, c at next level, right associativity).
Notation "c ;;; k" := (bind c (fun _ => k))
  (at level 100, right associativity).

(** A call into a library: its outcome is given, the state is untouched. *)
Definition call {L A} (o : outcome A) : M L A := fun l w => (o, l, w).

(** [try: body except Exception as e: handler e] *)
Definition try_except {L A} (body : M L A) (handler : exn -> M L A) : M L A :=
  fun l w =>
    match body l w with
    | (Raise e, l', w') => handler e l' w'
    | r => r
    end.

Definition get_local {L} : M L L := fun l w => (Return l, l, w).
Definition modify_local {L} (f : L -> L) : M L unit :=
  fun l w => (Return tt, f l, w).
Definition modify_world {L} (f : world -> world) : M L unit :=
  fun l w => (Return tt, l, f w).

(** [for x in xs: body x], [xs] a list *)
Fixpoint for_each {L X} (xs : list X) (body : X -> M L unit) : M L unit :=
  match xs with
  | [] => ret tt
  | x :: xs' => body x ;;; for_each xs' body
  end.

(** A generator: the items it yields, then exhaustion or an exception. *)
Definition generator (X : Type) : Type := (list X * option exn)%type.

(** [for x in g: body x], [g] a generator *)
Definition for_gen {L X} (g : generator X) (body : X -> M L unit) : M L unit :=
  for_each (fst g) body ;;;
  match snd g with
  | None => ret tt
  | Some e => raise e
  end.

(** Runs the body of a function with its own locals, initially [init]. *)
Definition with_locals {L L' A} (init : L') (body : M L' A) : M L A :=
  fun l w => let '(o, _, w') := body init w in (o, l, w').

Definition log_ui (ev : ui_event) (w : world) : world :=
  World (ui w ++ [ev]) (json_file w) (routes w) (frames w) (functions w).

Definition st_error {L} (msg : string) : M L unit := modify_world (log_ui (StError msg)).
Definition st_write {L} (label body : string) : M L unit :=
  modify_world (log_ui (StWrite label body)).
Definition st_success {L} (msg : string) : M L unit := modify_world (log_ui (StSuccess msg)).

(** ** The objects the database drivers hand out

    Only the methods the script calls are listed.  One record,
    [connection], stands for whatever [connect_to_db] returns: Python
    looks methods up by name, so a method the object lacks is a method
    whose outcome is an [AttributeError]. *)

(** A result row: the tuple of its fields.  The fields the script reads
    are names, hence text. *)
Definition row : Type := list string.

(** [t[i]] on a tuple *)
Definition tuple_index (t : row) (i : nat) : outcome string :=
  match t !! i with
  | Some x => Return x
  | None => Raise IndexError
  end.

(** A DB-API cursor.  [fetchall] depends on the statement executed last,
    which is all the state a cursor has here. *)
Record cursor := Cursor {
  execute : string -> outcome unit;
  fetchall : string -> outcome (list row)
}.

Inductive pyval := PNone | PInt (z : Z) | PText (s : string).

(** A document: field names and values, in order. *)
Definition document : Type := odict pyval.

Record collection := Collection {
  find_one : outcome (option document)
}.

Record document_snapshot := DocumentSnapshot {
  to_dict : outcome document
}.

Record collection_reference := CollectionReference {
  col_id : string;
  stream : outcome (generator document_snapshot)
}.

Record schema_field := SchemaField { field_name : string }.
Record row_iterator := RowIterator { schema : list schema_field }.
Record query_job := QueryJob { job_result : outcome row_iterator }.

Record connection := Connection {
  conn_bool : outcome bool;                                (* bool(conn) *)
  conn_cursor : outcome cursor;                            (* conn.cursor() *)
  list_collection_names : outcome (list string);
  conn_getitem : string -> outcome collection;             (* conn[name] *)
  collections : outcome (generator collection_reference);
  conn_query : string -> outcome query_job
}.

(** ** The driver modules used by [connect_to_db] *)

Record mongo_client := MongoClientObj {
  client_getitem : string -> outcome connection            (* client[db_name] *)
}.
Record boto_resource := BotoResource {
  resource_Table : string -> outcome connection
}.
Record boto_session := BotoSession {
  session_resource : string -> outcome boto_resource
}.
Inductive credential := Certificate (path : string).

Record drivers := Drivers {
  psycopg2_connect :
    forall (host : string) (port : Z) (dbname user password : string), outcome connection;
  mysql_connector_connect :
    forall (host : string) (port : Z) (database user password : string), outcome connection;
  pyodbc_connect : string -> outcome connection;
  sqlite3_connect : string -> outcome connection;
  MongoClient : string -> outcome mongo_client;
  boto3_Session :
    forall (aws_access_key_id aws_secret_access_key region_name : string), outcome boto_session;
  credentials_Certificate : string -> outcome credential;
  firebase_admin_initialize_app : credential -> outcome unit;
  firestore_client : outcome connection;
  bigquery_Client_from_service_account_json : string -> outcome connection
}.

(** [str(port)]: the port widget yields an int. *)
Definition str_int (z : Z) : string := pretty z.

(** ** [connect_to_db] *)

Section Connector.
Variable lib : drivers.

(** The chain of [if]/[elif] branches.  The result is the binding of the
    local [conn] afterwards: [None] when no branch assigned it. *)
Definition connect_branches
    (db_choice host : string) (port : Z)
    (db_name username password db_file aws_access_key aws_secret_key region : string)
  : M unit (option connection) :=
  if String.eqb db_choice "PostgreSQL" then
    conn <- call (psycopg2_connect lib host port db_name username password) ;;
    ret (Some conn)
  else if String.eqb db_choice "MySQL" then
    conn <- call (mysql_connector_connect lib host port db_name username password) ;;
    ret (Some conn)
  else if String.eqb db_choice "Microsoft SQL Server" then
    conn <- call (pyodbc_connect lib
              ("DRIVER={ODBC Driver 17 for SQL Server};SERVER=" +:+ host +:+
               ";PORT=" +:+ str_int port +:+ ";DATABASE=" +:+ db_name +:+
               ";UID=" +:+ username +:+ ";PWD=" +:+ password)) ;;
    ret (Some conn)
  else if String.eqb db_choice "SQLite" then
    conn <- call (sqlite3_connect lib db_file) ;;
    ret (Some conn)
  else if String.eqb db_choice "MongoDB" then
    client <- call (MongoClient lib
                ("mongodb://" +:+ username +:+ ":" +:+ password +:+ "@" +:+ host +:+
                 ":" +:+ str_int port +:+ "/" +:+ db_name)) ;;
    conn <- call (client_getitem client db_name) ;;
    ret (Some conn)
  else if String.eqb db_choice "Amazon DynamoDB" then
    session <- call (boto3_Session lib aws_access_key aws_secret_key region) ;;
    dynamodb <- call (session_resource session "dynamodb") ;;
    conn <- call (resource_Table dynamodb db_name) ;;
    ret (Some conn)
  else if String.eqb db_choice "Firestore" then
    cred <- call (credentials_Certificate lib "path_to_your_service_account_file.json") ;;
    call (firebase_admin_initialize_app lib cred) ;;;
    conn <- call (firestore_client lib) ;;
    ret (Some conn)
  else if String.eqb db_choice "BigQuery" then
    client <- call (bigquery_Client_from_service_account_json lib
                "path_to_your_service_account_file.json") ;;
    ret (Some client)
  else ret None.

(** Reading a local: an unbound one raises [UnboundLocalError]. *)
Definition read_local {L A} (name : string) (v : option A) : M L A :=
  match v with
  | Some a => ret a
  | None => raise (UnboundLocalError name)
  end.

(** The value returned is a connection object or Python's [None]. *)
Definition connect_to_db {L}
    (db_choice host : string) (port : Z)
    (db_name username password db_file aws_access_key aws_secret_key region : string)
  : M L (option connection) :=
  with_locals tt
    (try_except
       (conn <- connect_branches db_choice host port db_name username password
                  db_file aws_access_key aws_secret_key region ;;
        c <- read_local "conn" conn ;;
        ret (Some c))
       (fun e =>
          st_error ("Error connecting to " +:+ db_choice +:+ ": " +:+ exn_str e) ;;;
          ret None)).
End Connector.

(** ** [analyze_db_structure] *)

(** What the introspector records for one table or collection:
    [{"columns": [...]}] or [{"keys": [...]}]. *)
Abbreviation metadata := (odict (list string)) (only parsing).
Abbreviation structure := (odict (odict (list string))) (only parsing).

(** [[f x for x in xs]] *)
Fixpoint list_comp {X Y} (f : X -> outcome Y) (xs : list X) : outcome (list Y) :=
  match xs with
  | [] => Return []
  | x :: xs' =>
      match f x with
      | Raise e => Raise e
      | Return y =>
          match list_comp f xs' with
          | Raise e => Raise e
          | Return ys => Return (y :: ys)
          end
      end
  end.

(** Truth value of what [find_one] returns: [None] and the empty dict are
    false. *)
Definition sample_truth (sample : option document) : bool :=
  match sample with
  | None => false
  | Some [] => false
  | Some (_ :: _) => true
  end.

(** [list(sample.keys())] *)
Definition sample_keys (sample : option document) : outcome (list string) :=
  match sample with
  | Some doc => Return (od_keys doc)
  | None => Raise (Exn "AttributeError" "'NoneType' object has no attribute 'keys'")
  end.

Definition catalog_query : string :=
  "SELECT table_name FROM information_schema.tables WHERE table_schema = 'public'".
Definition column_query (table_name : string) : string :=
  "SELECT column_name FROM information_schema.columns WHERE table_name = '"
    +:+ table_name +:+ "'".
Definition sqlite_catalog_query : string :=
  "SELECT name FROM sqlite_master WHERE type='table';".
Definition sqlite_column_query (table_name : string) : string :=
  "PRAGMA table_info(" +:+ table_name +:+ ")".

Definition is_relational (db_choice : string) : bool :=
  String.eqb db_choice "PostgreSQL" || String.eqb db_choice "MySQL"
  || String.eqb db_choice "Microsoft SQL Server".

(** The body of the [try] block; the local is [db_structure]. *)
Definition analyze_body (conn : connection) (db_choice : string) : M structure unit :=
  if is_relational db_choice then
    cursor <- call (conn_cursor conn) ;;
    call (execute cursor catalog_query) ;;;
    tables <- call (fetchall cursor catalog_query) ;;
    for_each tables (fun table =>
      table_name <- call (tuple_index table 0) ;;
      call (execute cursor (column_query table_name)) ;;;
      columns <- call (fetchall cursor (column_query table_name)) ;;
      names <- call (list_comp (fun col => tuple_index col 0) columns) ;;
      modify_local (od_set table_name [("columns", names)]))
  else if String.eqb db_choice "SQLite" then
    cursor <- call (conn_cursor conn) ;;
    call (execute cursor sqlite_catalog_query) ;;;
    tables <- call (fetchall cursor sqlite_catalog_query) ;;
    for_each tables (fun table =>
      table_name <- call (tuple_index table 0) ;;
      call (execute cursor (sqlite_column_query table_name)) ;;;
      columns <- call (fetchall cursor (sqlite_column_query table_name)) ;;
      names <- call (list_comp (fun col => tuple_index col 1) columns) ;;
      modify_local (od_set table_name [("columns", names)]))
  else if String.eqb db_choice "MongoDB" then
    cols <- call (list_collection_names conn) ;;
    for_each cols (fun col =>
      collection <- call (conn_getitem conn col) ;;
      sample <- call (find_one collection) ;;
      if sample_truth sample then
        keys <- call (sample_keys sample) ;;
        modify_local (od_set col [("keys", keys)])
      else ret tt)
  else if String.eqb db_choice "Amazon DynamoDB" then
    modify_local (od_set db_choice [("columns", ["Primary Key"; "Attributes"])])
  else if String.eqb db_choice "Firestore" then
    cols <- call (collections conn) ;;
    for_gen cols (fun col =>
      docs <- call (stream col) ;;
      for_gen docs (fun doc =>
        d <- call (to_dict doc) ;;
        modify_local (od_set (col_id col) [("keys", od_keys d)])))
  else if String.eqb db_choice "BigQuery" then
    let query := "SELECT * FROM `" +:+ db_choice +:+ "` LIMIT 1" in
    job <- call (conn_query conn query) ;;
    result <- call (job_result job) ;;
    modify_local (od_set db_choice [("columns", map field_name (schema result))])
  else ret tt.

Definition analyze_db_structure {L} (conn : connection) (db_choice : string)
  : M L structure :=
  with_locals ([] : structure)
    (try_except
       (analyze_body conn db_choice)
       (fun e =>
          st_error ("Error analyzing structure for " +:+ db_choice +:+ ": " +:+ exn_str e)) ;;;
     get_local).

(** ** [generate_fastapi_api] *)

Definition NameError (name : string) : exn :=
  Exn "NameError"
      ("cannot access free variable '" +:+ name +:+
       "' where it is not associated with a value in enclosing scope").

(** Entering the function creates its cells, all unbound. *)
Definition new_frame {L} : M L nat :=
  fun l w =>
    (Return (length (frames w)), l,
     World (ui w) (json_file w) (routes w) (frames w ++ [Frame None None None])
       (functions w)).

Definition set_cell {L} (fid : nat) (f : frame -> frame) : M L unit :=
  modify_world (fun w =>
    World (ui w) (json_file w) (routes w) (alter f fid (frames w)) (functions w)).

Definition bind_table (v : string) (f : frame) : frame :=
  Frame (Some v) (cell_columns f) (cell_keys f).
Definition bind_columns (v : list string) (f : frame) : frame :=
  Frame (cell_table f) (Some v) (cell_keys f).
Definition bind_keys (v : list string) (f : frame) : frame :=
  Frame (cell_table f) (cell_columns f) (Some v).

(** [d[k]] *)
Definition getitem {V} (k : string) (d : odict V) : outcome V :=
  match od_get k d with
  | Some v => Return v
  | None => Raise (KeyError k)
  end.

(** The registry the synthesizer returns: entity name to path. *)
Abbreviation registry := (odict string) (only parsing).

(** The module's [app = FastAPI()].  [@app.get(path)] applied to a
    function builds a route from the path and the signature of the function
    and appends it to the router; it raises when it refuses them, as it does
    a path that names a parameter twice.  These checks are the library's,
    not the script's: [route_error path c] is the exception raised for
    [path] and a function of code [c], [None] when the route is accepted.
    The library does not compare a route with those registered before. *)
Record FastAPI := Application {
  route_error : string -> code -> option exn
}.

(** A [def] statement of the loop: a new function object over the cells of
    frame [fid]. *)
Definition def_function {L} (c : code) (fid : nat) : M L handler :=
  fun l w =>
    (Return (Handler c fid (functions w)), l,
     World (ui w) (json_file w) (routes w) (frames w) (S (functions w))).

Section Synthesizer.
Variable fastapi : FastAPI.

(** The decorator [@app.get(path)] applied to the function [h]: the route
    is appended, unless the library raises.  Evaluating [app.get(path)]
    itself, before the function is created, only builds the decorator. *)
Definition app_get {L} (path : string) (h : handler) : M L unit :=
  match route_error fastapi path (h_code h) with
  | Some e => raise e
  | None =>
      modify_world (fun w =>
        World (ui w) (json_file w) (routes w ++ [(path, h)]) (frames w) (functions w))
  end.

(** The body of the [try] block; the local is [endpoints], the cells are
    those of frame [fid].  The class [TableQuery] defined in the loop is
    never used and is left out. *)
Definition generate_body (fid : nat) (db_structure : structure) : M registry unit :=
  for_each db_structure (fun item =>
    let table := fst item in
    let metadata := snd item in
    set_cell fid (bind_table table) ;;;
    (if od_mem "columns" metadata then
       columns <- call (getitem "columns" metadata) ;;
       set_cell fid (bind_columns columns) ;;;
       let endpoint := "/" +:+ table +:+ "/{id}" in
       h <- def_function get_table_data fid ;;
       app_get endpoint h ;;;
       modify_local (od_set table endpoint)
     else ret tt) ;;;
    (if od_mem "keys" metadata then
       keys <- call (getitem "keys" metadata) ;;
       set_cell fid (bind_keys keys) ;;;
       h <- def_function get_collection_data fid ;;
       app_get ("/" +:+ table) h ;;;
       modify_local (od_set table ("/" +:+ table))
     else ret tt)).

(** [db_choice] is the module's global, read by the [except] clause. *)
Definition generate_fastapi_api {L} (db_choice : string) (db_structure : structure)
  : M L registry :=
  with_locals ([] : registry)
    (fid <- new_frame ;;
     try_except
       (generate_body fid db_structure)
       (fun e =>
          st_error ("Error generating API for " +:+ db_choice +:+ ": " +:+ exn_str e)) ;;;
     get_local).
End Synthesizer.

(** *** Calling a generated handler

    The free variables [table], [columns] and [keys] are read from the
    cells when the handler runs. *)
Definition read_cell {A} (name : string) (c : option A) : outcome A :=
  match c with
  | Some a => Return a
  | None => Raise (NameError name)
  end.

Definition call_get_table_data (w : world) (fid : nat) (id : string) : outcome response :=
  match frames w !! fid with
  | None => Raise (NameError "table")
  | Some f =>
      match read_cell "table" (cell_table f) with
      | Raise e => Raise e
      | Return table =>
          let query := "SELECT * FROM " +:+ table +:+ " WHERE id = " +:+ id in
          match read_cell "columns" (cell_columns f) with
          | Raise e => Raise e
          | Return columns => Return (TableData table columns query)
          end
      end
  end.

Definition call_get_collection_data (w : world) (fid : nat) : outcome response :=
  match frames w !! fid with
  | None => Raise (NameError "table")
  | Some f =>
      match read_cell "table" (cell_table f) with
      | Raise e => Raise e
      | Return table =>
          match read_cell "keys" (cell_keys f) with
          | Raise e => Raise e
          | Return keys => Return (CollectionData table keys)
          end
      end
  end.

(** A request routed to handler [h]; [id] is the path parameter, which
    [get_collection_data] does not take. *)
Definition call_handler (w : world) (h : handler) (id : string) : outcome response :=
  match h_code h with
  | get_table_data => call_get_table_data w (h_frame h) id
  | get_collection_data => call_get_collection_data w (h_frame h)
  end.

(** ** [json.dumps] and [json.dump] on structure mappings

    The encoder of Python's [json] module with its default options
    ([ensure_ascii], no key sorting), for the values a structure mapping
    is made of: dicts with [str] keys, lists and strings. *)

Unset Elimination Schemes.
Inductive pyobj :=
| PStr (s : string)
| PList (l : list pyobj)
| PDict (d : list (string * pyobj)).
Set Elimination Schemes.

Definition hex_digit (n : nat) : ascii :=
  match n with
  | 0 => "0" | 1 => "1" | 2 => "2" | 3 => "3" | 4 => "4" | 5 => "5" | 6 => "6"
  | 7 => "7" | 8 => "8" | 9 => "9" | 10 => "a" | 11 => "b" | 12 => "c"
  | 13 => "d" | 14 => "e" | _ => "f"
  end%char.

(** ["\\u{0:04x}".format(n)] for [n < 256] *)
Definition escape_u (n : nat) : string :=
  String "\" (String "u" (String "0" (String "0"
    (String (hex_digit (n / 16)) (String (hex_digit (n mod 16)) ""))))).

Definition quote : ascii := "034"%char.

(** The replacement [ESCAPE_ASCII] makes for one character: the
    backslash, the quote and everything outside [' '..'~'] are escaped. *)
Definition escape_char (c : ascii) : string :=
  let n := nat_of_ascii c in
  if Nat.eqb n 92 then String "\" (String "\" "")
  else if Nat.eqb n 34 then String "\" (String quote "")
  else if Nat.eqb n 8 then String "\" (String "b" "")
  else if Nat.eqb n 12 then String "\" (String "f" "")
  else if Nat.eqb n 10 then String "\" (String "n" "")
  else if Nat.eqb n 13 then String "\" (String "r" "")
  else if Nat.eqb n 9 then String "\" (String "t" "")
  else if (Nat.leb 32 n && Nat.leb n 126)%bool then String c ""
  else escape_u n.

Fixpoint escape_string (s : string) : string :=
  match s with
  | EmptyString => ""
  | String c s' => escape_char c +:+ escape_string s'
  end.

(** [encode_basestring_ascii] *)
Definition encode_basestring_ascii (s : string) : string :=
  String quote (escape_string s +:+ String quote "").

Fixpoint spaces (n : nat) : string :=
  match n with
  | 0 => ""
  | S n' => String " " (spaces n')
  end.

(** The line break written after an opening bracket and before a closing
    one at nesting [level]; nothing without [indent]. *)
Definition newline_indent (indent : option nat) (level : nat) : string :=
  match indent with
  | None => ""
  | Some k => String "010" (spaces (k * level))
  end.

(** [', '] by default, [','] followed by the line break with [indent]. *)
Definition item_separator (indent : option nat) (level : nat) : string :=
  match indent with
  | None => ", "
  | Some _ => "," +:+ newline_indent indent level
  end.

Definition key_separator : string := ": ".

Fixpoint json_encode (indent : option nat) (level : nat) (o : pyobj) : string :=
  match o with
  | PStr s => encode_basestring_ascii s
  | PList [] => "[]"
  | PList (x :: l) =>
      "[" +:+ newline_indent indent (S level) +:+
      json_encode indent (S level) x +:+
      (fix items (l : list pyobj) : string :=
         match l with
         | [] => ""
         | y :: l' =>
             item_separator indent (S level) +:+ json_encode indent (S level) y +:+ items l'
         end) l +:+
      newline_indent indent level +:+ "]"
  | PDict [] => "{}"
  | PDict ((k, v) :: d) =>
      "{" +:+ newline_indent indent (S level) +:+
      encode_basestring_ascii k +:+ key_separator +:+ json_encode indent (S level) v +:+
      (fix items (d : list (string * pyobj)) : string :=
         match d with
         | [] => ""
         | (k', v') :: d' =>
             item_separator indent (S level) +:+ encode_basestring_ascii k' +:+
             key_separator +:+ json_encode indent (S level) v' +:+ items d'
         end) d +:+
      newline_indent indent level +:+ "}"
  end.

Definition json_dumps (indent : option nat) (o : pyobj) : string :=
  json_encode indent 0 o.

(** A structure mapping as the Python object it is. *)
Definition obj_of_metadata (m : metadata) : pyobj :=
  PDict (map (fun kv => (fst kv, PList (map PStr (snd kv)))) m).
Definition obj_of_structure (d : structure) : pyobj :=
  PDict (map (fun kv => (fst kv, obj_of_metadata (snd kv))) d).

(** ** The script: the "Analyze DB Details" action *)

(** What the widgets return on this run of the script. *)
Record inputs := Inputs {
  button : bool;                      (* st.button("Analyze DB Details") *)
  db_choice : string;
  host : string;
  port : Z;
  db_name : string;
  username : string;
  password : string;
  db_file : string;
  aws_access_key : string;
  aws_secret_key : string;
  region : string
}.

(** The module's names [conn] and [db_structure]; [None] is unbound. *)
Record globals := Globals {
  g_conn : option (option connection);
  g_db_structure : option structure
}.

Definition globals0 : globals := Globals None None.

Record filesystem := FileSystem {
  open_w : string -> outcome unit     (* open(path, "w") *)
}.

Definition write_json_file (content : string) (w : world) : world :=
  World (ui w) (Some content) (routes w) (frames w) (functions w).

Section Script.
Variable lib : drivers.
Variable fs : filesystem.

(** The [try] statement that saves the structure.  Opening the file for
    writing empties it; [json.dump] then writes the text. *)
Definition save_structure {L} (d : structure) : M L unit :=
  try_except
    (call (open_w fs "db_structure.json") ;;;
     modify_world (write_json_file "") ;;;
     modify_world (write_json_file (json_dumps None (obj_of_structure d))) ;;;
     st_success "Database structure saved to 'db_structure.json'")
    (fun e => st_error ("Error saving database structure: " +:+ exn_str e)).

Definition analyze_action (inp : inputs) : M globals unit :=
  if button inp then
    conn <- connect_to_db lib (db_choice inp) (host inp) (port inp) (db_name inp)
              (username inp) (password inp) (db_file inp)
              (aws_access_key inp) (aws_secret_key inp) (region inp) ;;
    modify_local (fun g => Globals (Some conn) (g_db_structure g)) ;;;
    match conn with
    | None => ret tt
    | Some c =>
        t <- call (conn_bool c) ;;
        if t : bool then
          d <- analyze_db_structure c (db_choice inp) ;;
          modify_local (fun g => Globals (g_conn g) (Some d)) ;;;
          st_write "Database Structure:" (json_dumps (Some 4) (obj_of_structure d)) ;;;
          save_structure d
        else ret tt
    end
  else ret tt.
End Script.

(** ** Reloading the file: [json.loads]

    The script only writes [db_structure.json]; the specification's
    round-trip law reads it back.  The reader is modelled after the decoder
    of Python's [json] module ([scanstring], [JSONObject], [JSONArray],
    [scan_once], [decode]) for texts made of objects, arrays and strings.
    Any other token, and a [\u] escape of a code point above 255, lies
    outside the model and yields [None], as does malformed text. *)

(** Modelled from the spec: the white space the decoder skips between
    tokens when the file is reloaded. *)
Definition is_ws (c : ascii) : bool :=
  let n := nat_of_ascii c in
  Nat.eqb n 32 || Nat.eqb n 9 || Nat.eqb n 10 || Nat.eqb n 13.

(** Modelled from the spec: [WHITESPACE.match(s, end).end()] of the
    decoder that reloads the file. *)
Fixpoint skip_ws (s : string) : string :=
  match s with
  | String c s' => if is_ws c then skip_ws s' else s
  | EmptyString => s
  end.

(** Modelled from the spec: the value of a hexadecimal digit in an escape
    of the reloaded text. *)
Definition hex_value (c : ascii) : option nat :=
  let n := nat_of_ascii c in
  if Nat.leb 48 n && Nat.leb n 57 then Some (n - 48)
  else if Nat.leb 97 n && Nat.leb n 102 then Some (n - 87)
  else if Nat.leb 65 n && Nat.leb n 70 then Some (n - 55)
  else None.

(** Modelled from the spec: [int(esc, 16)] on the four characters after
    [\u], for the decoder that reloads the file. *)
Definition decode_uXXXX (h1 h2 h3 h4 : ascii) : option nat :=
  match hex_value h1, hex_value h2, hex_value h3, hex_value h4 with
  | Some a, Some b, Some c, Some d => Some (((a * 16 + b) * 16 + c) * 16 + d)
  | _, _, _, _ => None
  end.

(** Modelled from the spec: the decoder's table [BACKSLASH] of one-letter
    escapes. *)
Definition backslash_escape (c : ascii) : option ascii :=
  let n := nat_of_ascii c in
  if Nat.eqb n 34 then Some quote
  else if Nat.eqb n 92 then Some "\"%char
  else if Nat.eqb n 47 then Some "/"%char
  else if Nat.eqb n 98 then Some "008"%char
  else if Nat.eqb n 102 then Some "012"%char
  else if Nat.eqb n 110 then Some "010"%char
  else if Nat.eqb n 114 then Some "013"%char
  else if Nat.eqb n 116 then Some "009"%char
  else None.

(** Modelled from the spec: [scanstring] of the decoder that reloads the
    file, started after the opening quote: the decoded string and the text
    after the closing quote.  A raw control character is refused (strict
    mode). *)
Fixpoint scanstring (s : string) : option (string * string) :=
  match s with
  | EmptyString => None
  | String c s' =>
      if Ascii.eqb c quote then Some ("", s')
      else if Ascii.eqb c "\" then
        match s' with
        | EmptyString => None
        | String esc s'' =>
            if Ascii.eqb esc "u" then
              match s'' with
              | String h1 (String h2 (String h3 (String h4 rest))) =>
                  match decode_uXXXX h1 h2 h3 h4 with
                  | Some n =>
                      if Nat.ltb n 256 then
                        match scanstring rest with
                        | Some (str, rest') => Some (String (ascii_of_nat n) str, rest')
                        | None => None
                        end
                      else None
                  | None => None
                  end
              | _ => None
              end
            else
              match backslash_escape esc with
              | Some ch =>
                  match scanstring s'' with
                  | Some (str, rest') => Some (String ch str, rest')
                  | None => None
                  end
              | None => None
              end
        end
      else if Nat.ltb (nat_of_ascii c) 32 then None
      else
        match scanstring s' with
        | Some (str, rest') => Some (String c str, rest')
        | None => None
        end
  end.

(** Modelled from the spec: [dict(pairs)], the dict the decoder builds for
    an object: a repeated key keeps its first position and its last
    value. *)
Definition dict_of_pairs {V} (pairs : list (string * V)) : odict V :=
  fold_left (fun d kv => od_set (fst kv) (snd kv) d) pairs [].

(** Modelled from the spec: [scan_once] with [JSONObject] and [JSONArray]
    of the decoder that reloads the file; [fuel] bounds the nesting of
    calls.  [parse_members] starts after the opening quote of a key,
    [parse_elements] at a value. *)
Fixpoint scan_once (fuel : nat) (s : string) {struct fuel} : option (pyobj * string) :=
  match fuel with
  | 0 => None
  | S n =>
      match s with
      | EmptyString => None
      | String c s' =>
          if Ascii.eqb c quote then
            match scanstring s' with
            | Some (str, rest) => Some (PStr str, rest)
            | None => None
            end
          else if Ascii.eqb c "{" then
            match skip_ws s' with
            | EmptyString => None
            | String c1 s1 =>
                if Ascii.eqb c1 "}" then Some (PDict [], s1)
                else if Ascii.eqb c1 quote then
                  match parse_members n s1 with
                  | Some (pairs, rest) => Some (PDict (dict_of_pairs pairs), rest)
                  | None => None
                  end
                else None
            end
          else if Ascii.eqb c "[" then
            match skip_ws s' with
            | EmptyString => None
            | String c1 s1 =>
                if Ascii.eqb c1 "]" then Some (PList [], s1)
                else
                  match parse_elements n (String c1 s1) with
                  | Some (values, rest) => Some (PList values, rest)
                  | None => None
                  end
            end
          else None
      end
  end
with parse_members (fuel : nat) (s : string) {struct fuel}
  : option (list (string * pyobj) * string) :=
  match fuel with
  | 0 => None
  | S n =>
      match scanstring s with
      | None => None
      | Some (key, s1) =>
          match skip_ws s1 with
          | EmptyString => None
          | String c2 s2 =>
              if Ascii.eqb c2 ":" then
                match scan_once n (skip_ws s2) with
                | None => None
                | Some (value, s3) =>
                    match skip_ws s3 with
                    | EmptyString => None
                    | String c4 s4 =>
                        if Ascii.eqb c4 "}" then Some ([(key, value)], s4)
                        else if Ascii.eqb c4 "," then
                          match skip_ws s4 with
                          | EmptyString => None
                          | String c5 s5 =>
                              if Ascii.eqb c5 quote then
                                match parse_members n s5 with
                                | Some (pairs, rest) => Some ((key, value) :: pairs, rest)
                                | None => None
                                end
                              else None
                          end
                        else None
                    end
                end
              else None
          end
      end
  end
with parse_elements (fuel : nat) (s : string) {struct fuel}
  : option (list pyobj * string) :=
  match fuel with
  | 0 => None
  | S n =>
      match scan_once n s with
      | None => None
      | Some (value, s1) =>
          match skip_ws s1 with
          | EmptyString => None
          | String c2 s2 =>
              if Ascii.eqb c2 "]" then Some ([value], s2)
              else if Ascii.eqb c2 "," then
                match parse_elements n (skip_ws s2) with
                | Some (values, rest) => Some (value :: values, rest)
                | None => None
                end
              else None
          end
      end
  end.

(** Modelled from the spec: the reload of [db_structure.json],
    [json.loads] on its text: leading white space, one value, trailing
    white space, end of text. *)
Definition json_loads (s : string) : option pyobj :=
  match scan_once (String.length s) (skip_ws s) with
  | Some (obj, rest) =>
      match skip_ws rest with
      | EmptyString => Some obj
      | String _ _ => None
      end
  | None => None
  end.

(** ** The kinds of database *)

(** The labels for which [connect_to_db] has a branch. *)
Definition connector_kinds : list string :=
  ["PostgreSQL"; "MySQL"; "Microsoft SQL Server"; "SQLite"; "MongoDB";
   "Amazon DynamoDB"; "Firestore"; "BigQuery"].

Definition relational_kinds : list string :=
  ["PostgreSQL"; "MySQL"; "Microsoft SQL Server"].

Definition connect_error (db_choice : string) (e : exn) : ui_event :=
  StError ("Error connecting to " +:+ db_choice +:+ ": " +:+ exn_str e).

Definition analyze_error (db_choice : string) (e : exn) : ui_event :=
  StError ("Error analyzing structure for " +:+ db_choice +:+ ": " +:+ exn_str e).

(** ** One iteration of an introspection loop, as a function

    Each loop of [analyze_db_structure] either raises, or goes on after
    setting at most one entry of [db_structure].  The functions below give
    that effect for one table or collection; [run_steps] chains them as a
    [for] loop inside [try] does. *)

Definition step_result : Type := outcome (option (string * metadata)).

Fixpoint run_steps {X} (step : X -> step_result) (xs : list X) (d : structure)
  : option exn * structure :=
  match xs with
  | [] => (None, d)
  | x :: xs' =>
      match step x with
      | Raise e => (Some e, d)
      | Return None => run_steps step xs' d
      | Return (Some (k, m)) => run_steps step xs' (od_set k m d)
      end
  end.

(** Field [i] of every row that has one. *)
Definition fields (i : nat) (rows : list row) : list string :=
  omap (fun r : row => r !! i) rows.

(** The body of the loop over the catalog's rows: [q] is the query for a
    table's columns and [i] the field of its rows that holds the name. *)
Definition table_loop_body (cur : cursor) (q : string -> string) (i : nat) (table : row)
  : M structure unit :=
  table_name <- call (tuple_index table 0) ;;
  call (execute cur (q table_name)) ;;;
  columns <- call (fetchall cur (q table_name)) ;;
  names <- call (list_comp (fun col => tuple_index col i) columns) ;;
  modify_local (od_set table_name [("columns", names)]).

Definition table_step (cur : cursor) (q : string -> string) (i : nat) (table : row)
  : step_result :=
  match tuple_index table 0 with
  | Raise e => Raise e
  | Return table_name =>
      match execute cur (q table_name) with
      | Raise e => Raise e
      | Return _ =>
          match fetchall cur (q table_name) with
          | Raise e => Raise e
          | Return columns =>
              match list_comp (fun col => tuple_index col i) columns with
              | Raise e => Raise e
              | Return names => Return (Some (table_name, [("columns", names)]))
              end
          end
      end
  end.

(** The body of the loop over the collections of a MongoDB database. *)
Definition collection_loop_body (conn : connection) (col : string) : M structure unit :=
  collection <- call (conn_getitem conn col) ;;
  sample <- call (find_one collection) ;;
  if sample_truth sample then
    keys <- call (sample_keys sample) ;;
    modify_local (od_set col [("keys", keys)])
  else ret tt.

Definition collection_step (conn : connection) (col : string) : step_result :=
  match conn_getitem conn col with
  | Raise e => Raise e
  | Return collection =>
      match find_one collection with
      | Raise e => Raise e
      | Return None => Return None
      | Return (Some []) => Return None
      | Return (Some (kv :: doc)) => Return (Some (col, [("keys", od_keys (kv :: doc))]))
      end
  end.

(** ** A database cut down to some of its tables or collections *)


Definition conn_with_cursor (conn : connection) (cur : cursor) : connection :=
  Connection (conn_bool conn) (Return cur) (list_collection_names conn)
    (conn_getitem conn) (collections conn) (conn_query conn).


(** ** Sample databases *)

Definition AttributeError (attr : string) : exn :=
  Exn "AttributeError" ("object has no attribute '" +:+ attr +:+ "'").

(** An object with none of the methods the introspector calls. *)
Definition no_methods : connection :=
  Connection (Return true)
    (Raise (AttributeError "cursor"))
    (Raise (AttributeError "list_collection_names"))
    (fun _ => Raise (Exn "TypeError" "object is not subscriptable"))
    (Raise (AttributeError "collections"))
    (fun _ => Raise (AttributeError "query")).

(** A relational database with two tables. *)
Definition shop_tables : list row := [["users"]; ["orders"]].

Definition shop_columns (n : string) : list row :=
  if String.eqb n "users" then [["id"]; ["name"]]
  else if String.eqb n "orders" then [["id"]; ["user_id"]; ["total"]]
  else [].

Definition shop_cursor : cursor :=
  Cursor
    (fun _ => Return tt)
    (fun q =>
       if String.eqb q catalog_query then Return shop_tables
       else if String.eqb q (column_query "users") then Return (shop_columns "users")
       else if String.eqb q (column_query "orders") then Return (shop_columns "orders")
       else Return []).

Definition shop_db : connection := conn_with_cursor no_methods shop_cursor.

(** The same server when the columns of [orders] may not be read and a
    third table follows. *)
Definition permission_denied : exn :=
  Exn "ProgrammingError" "permission denied for table orders".

Definition guarded_cursor : cursor :=
  Cursor
    (fun _ => Return tt)
    (fun q =>
       if String.eqb q catalog_query then Return ([["users"]] ++ ["orders"] :: [["audit"]])
       else if String.eqb q (column_query "orders") then Raise permission_denied
       else fetchall shop_cursor q).

Definition guarded_db : connection := conn_with_cursor no_methods guarded_cursor.




(** An SQLite file with the one table [users(id, name)]. *)
Definition users_cursor : cursor :=
  Cursor
    (fun _ => Return tt)
    (fun q =>
       if String.eqb q sqlite_catalog_query then Return [["users"]]
       else if String.eqb q (sqlite_column_query "users")
       then Return [["0"; "id"; "INTEGER"; "0"; ""; "1"]; ["1"; "name"; "TEXT"; "0"; ""; "0"]]
       else Return []).

Definition users_file : connection := conn_with_cursor no_methods users_cursor.

(** A MongoDB database: [posts] has documents, [drafts] has none, and the
    sample of [tags] is an empty document. *)
Definition blog_collection (c : string) : outcome collection :=
  if String.eqb c "posts"
  then Return (Collection (Return (Some [("_id", PInt 1); ("title", PText "Hello")])))
  else if String.eqb c "tags" then Return (Collection (Return (Some [])))
  else Return (Collection (Return None)).

Definition blog_db : connection :=
  Connection (Return true) (Raise (AttributeError "cursor"))
    (Return ["posts"; "drafts"; "tags"]) blog_collection
    (Raise (AttributeError "collections"))
    (fun _ => Raise (AttributeError "query")).




(** Drivers that reach no server. *)
Definition unreachable : exn :=
  Exn "OperationalError" "could not translate host name to address".

Definition offline : drivers :=
  Drivers
    (fun _ _ _ _ _ => Raise unreachable)
    (fun _ _ _ _ _ => Raise unreachable)
    (fun _ => Raise unreachable)
    (fun _ => Raise unreachable)
    (fun _ => Raise unreachable)
    (fun _ _ _ => Raise unreachable)
    (fun _ => Raise (Exn "FileNotFoundError" "No such file or directory"))
    (fun _ => Return tt)
    (Raise unreachable)
    (fun _ => Raise (Exn "FileNotFoundError" "No such file or directory")).

Definition disk_ok : filesystem := FileSystem (fun _ => Return tt).

(** Drivers whose PostgreSQL server is the shop database, and the form
    filled in for it. *)
Definition local_drivers : drivers :=
  Drivers
    (fun _ _ _ _ _ => Return shop_db)
    (mysql_connector_connect offline)
    (pyodbc_connect offline)
    (sqlite3_connect offline)
    (MongoClient offline)
    (boto3_Session offline)
    (credentials_Certificate offline)
    (firebase_admin_initialize_app offline)
    (firestore_client offline)
    (bigquery_Client_from_service_account_json offline).

Definition shop_inputs : inputs :=
  Inputs true "PostgreSQL" "localhost" 5432 "shop" "alice" "secret" "" "" "" "".

(** The form filled in for a PostgreSQL server at a host that does not
    resolve, with the button pressed. *)
Definition bad_host_inputs : inputs :=
  Inputs true "PostgreSQL" "db.invalid" 5432 "shop" "alice" "secret" "" "" "" "".

(** ** The synthesizer, registration by registration *)

Definition generate_error (db_choice : string) (e : exn) : ui_event :=
  StError ("Error generating API for " +:+ db_choice +:+ ": " +:+ exn_str e).

Definition table_path (entity : string) : string := "/" +:+ entity +:+ "/{id}".
Definition collection_path (entity : string) : string := "/" +:+ entity.

(** The path at which the loop registers a function of code [c] for an
    entity. *)
Definition route_path (c : code) (entity : string) : string :=
  match c with
  | get_table_data => table_path entity
  | get_collection_data => collection_path entity
  end.

(** The registrations the loop attempts for one entry, in order: the
    entity and the code of the function. *)
Definition entity_plan (item : string * metadata) : list (string * code) :=
  (if od_mem "columns" (snd item) then [(fst item, get_table_data)] else [])
  ++
  (if od_mem "keys" (snd item) then [(fst item, get_collection_data)] else []).

(** Those it attempts for a whole structure when none is refused. *)
Definition plan (d : structure) : list (string * code) := concat (map entity_plan d).

(** The paths of a list of registrations. *)
Definition plan_paths (p : list (string * code)) : list string :=
  map (fun ec => route_path (snd ec) (fst ec)) p.

(** The routes a list of registrations leaves in the router; the function
    objects are created one after the other, the first one being object
    [oid]. *)
Fixpoint plan_routes (fid oid : nat) (p : list (string * code))
  : list (string * handler) :=
  match p with
  | [] => []
  | ec :: p' =>
      (route_path (snd ec) (fst ec), Handler (snd ec) fid oid) :: plan_routes fid (S oid) p'
  end.

(** The registry after a list of registrations. *)
Definition plan_endpoints (p : list (string * code)) (r : registry) : registry :=
  fold_left (fun acc ec => od_set (fst ec) (route_path (snd ec) (fst ec)) acc) p r.

(** The application accepts every path the loop derives from [d]. *)
Definition accepts (app : FastAPI) (d : structure) : Prop :=
  forall e m, (e, m) ∈ d ->
    (od_mem "columns" m = true -> route_error app (table_path e) get_table_data = None) /\
    (od_mem "keys" m = true ->
     route_error app (collection_path e) get_collection_data = None).

(** The first registration for an entry that the application refuses. *)
Definition entity_refusal (app : FastAPI) (item : string * metadata)
  : option (code * exn) :=
  match (if od_mem "columns" (snd item)
         then route_error app (table_path (fst item)) get_table_data else None) with
  | Some x => Some (get_table_data, x)
  | None =>
      match (if od_mem "keys" (snd item)
             then route_error app (collection_path (fst item)) get_collection_data
             else None) with
      | Some x => Some (get_collection_data, x)
      | None => None
      end
  end.

(** Where the loop stops on [d]: the entries before, the entry and the
    code of the registration refused, and the exception. *)
Fixpoint first_refusal (app : FastAPI) (d : structure)
  : option (structure * (string * metadata) * code * exn) :=
  match d with
  | [] => None
  | item :: d' =>
      match entity_refusal app item with
      | Some (c, x) => Some ([], item, c, x)
      | None =>
          match first_refusal app d' with
          | Some (pre, it, c, x) => Some (item :: pre, it, c, x)
          | None => None
          end
      end
  end.

(** The registrations the loop makes on [d]: all of them, or those before
    the first one refused. *)
Definition registered (app : FastAPI) (d : structure) : list (string * code) :=
  match first_refusal app d with
  | None => plan d
  | Some (pre, item, c, _) =>
      plan pre ++
      match c with
      | get_table_data => []
      | get_collection_data =>
          if od_mem "columns" (snd item) then [(fst item, get_table_data)] else []
      end
  end.

(** The cells after the iteration for one entry. *)
Definition entity_frame (item : string * metadata) (f : frame) : frame :=
  let f1 := bind_table (fst item) f in
  let f2 := match od_get "columns" (snd item) with
            | Some columns => bind_columns columns f1
            | None => f1
            end in
  match od_get "keys" (snd item) with
  | Some keys => bind_keys keys f2
  | None => f2
  end.

(** The cells when the registration of code [c] for an entry is refused:
    [table] and [columns] are bound by then, [keys] only when the refusal
    is that of the collection handler. *)
Definition refused_frame (item : string * metadata) (c : code) (f : frame) : frame :=
  match c with
  | get_table_data =>
      match od_get "columns" (snd item) with
      | Some columns => bind_columns columns (bind_table (fst item) f)
      | None => bind_table (fst item) f
      end
  | get_collection_data => entity_frame item f
  end.

(** The registrations made for an entry before the one of code [c]. *)
Definition plan_before (item : string * metadata) (c : code) : list (string * code) :=
  match c with
  | get_table_data => []
  | get_collection_data =>
      if od_mem "columns" (snd item) then [(fst item, get_table_data)] else []
  end.

(** The value under [key] of the last entry of the structure that has
    one. *)
Definition last_binding (key : string) (d : structure) : option (list string) :=
  fold_left
    (fun acc item => match od_get key (snd item) with Some v => Some v | None => acc end)
    d None.

(** The number of entries whose metadata has [key]. *)
Definition count_with (key : string) (d : structure) : nat :=
  length (List.filter (fun item : string * metadata => od_mem key (snd item)) d).

(** The query a table handler builds. *)
Definition select_by_id (table id : string) : string :=
  "SELECT * FROM " +:+ table +:+ " WHERE id = " +:+ id.

(** Two tables followed by a collection. *)
Definition mixed_structure : structure :=
  [("a", [("columns", ["x"])]); ("b", [("columns", ["y"])]); ("c", [("keys", ["k"])])].


(** An entity with both a column list and a key list. *)
Definition hybrid_structure : structure :=
  [("users", [("columns", ["id"; "name"]); ("keys", ["_id"])])].

(** Three tables, the second one named "{id}", and an entity of that name
    with both lists. *)
Definition braces_structure : structure :=
  [("t", [("columns", ["x"])]); ("{id}", [("columns", ["y"])]);
   ("u", [("columns", ["z"])])].

Definition braces_hybrid : structure :=
  [("{id}", [("columns", ["y"]); ("keys", ["k"])])].

(** ** A sample application

    On the paths of the examples it answers as FastAPI does: a path that
    names the parameter [id] twice is refused with a [ValueError], any
    other path is accepted. *)

(** The number of places of [s] at which [sub] occurs. *)
Fixpoint occurrences (sub s : string) : nat :=
  match s with
  | EmptyString => 0
  | String c s' => (if String.prefix sub s then 1 else 0) + occurrences sub s'
  end.

Definition duplicated_param (path : string) : exn :=
  Exn "ValueError" ("Duplicated param name id at path " +:+ path).

Definition sample_app : FastAPI :=
  Application (fun path _ =>
    if Nat.leb 2 (occurrences "{id}" path) then Some (duplicated_param path) else None).

(** ** Measures on Python objects *)

(** The number of calls the decoder makes to read the object back. *)
Fixpoint obj_size (o : pyobj) : nat :=
  match o with
  | PStr _ => 1
  | PList l =>
      S ((fix sum (l : list pyobj) : nat :=
            match l with
            | [] => 0
            | x :: l' => S (obj_size x + sum l')
            end) l)
  | PDict d =>
      S ((fix sum (d : list (string * pyobj)) : nat :=
            match d with
            | [] => 0
            | kv :: d' => S (obj_size (snd kv) + sum d')
            end) d)
  end.

Fixpoint list_size (l : list pyobj) : nat :=
  match l with
  | [] => 0
  | x :: l' => S (obj_size x + list_size l')
  end.

Fixpoint dict_size (d : list (string * pyobj)) : nat :=
  match d with
  | [] => 0
  | kv :: d' => S (obj_size (snd kv) + dict_size d')
  end.

(** Every dict in the object has each key once. *)
Fixpoint obj_wf (o : pyobj) : Prop :=
  match o with
  | PStr _ => True
  | PList l =>
      (fix all (l : list pyobj) : Prop :=
         match l with
         | [] => True
         | x :: l' => obj_wf x /\ all l'
         end) l
  | PDict d =>
      NoDup (map fst d) /\
      (fix all (d : list (string * pyobj)) : Prop :=
         match d with
         | [] => True
         | kv :: d' => obj_wf (snd kv) /\ all d'
         end) d
  end.

(** The text [json_encode] writes for the items after the first one. *)
Fixpoint list_items (indent : option nat) (level : nat) (l : list pyobj) : string :=
  match l with
  | [] => ""
  | y :: l' =>
      item_separator indent (S level) +:+ json_encode indent (S level) y +:+
      list_items indent level l'
  end.

Fixpoint dict_items (indent : option nat) (level : nat) (d : list (string * pyobj))
  : string :=
  match d with
  | [] => ""
  | kv :: d' =>
      item_separator indent (S level) +:+ encode_basestring_ascii (fst kv) +:+
      key_separator +:+ json_encode indent (S level) (snd kv) +:+
      dict_items indent level d'
  end.

(** A structure mapping as the introspector builds them: every name once,
    every metadata dict with each key once. *)
Definition structure_wf (d : structure) : Prop :=
  NoDup (od_keys d) /\ Forall (fun kv : string * metadata => NoDup (od_keys (snd kv))) d.

(** ** Invariants of computations *)

(** A computation that leaves the world as it found it. *)
Definition keeps_world {L A} (c : M L A) : Prop :=
  forall l w, snd (c l w) = w.

(** A computation that keeps the property [P] of the locals, whether it
    returns or raises. *)
Definition preserves {L A} (P : L -> Prop) (c : M L A) : Prop :=
  forall l w, P l -> P (snd (fst (c l w))).

(** ** Further notions used in the statements *)

(** The key under which a kind of database records the names it finds. *)
Definition kind_key (db_choice : string) : string :=
  if String.eqb db_choice "MongoDB" || String.eqb db_choice "Firestore"
  then "keys" else "columns".

(** The path the synthesizer derives for an entity of a mapping produced
    for [db_choice]. *)
Definition kind_path (db_choice entity : string) : string :=
  if String.eqb (kind_key db_choice) "keys"
  then collection_path entity else table_path entity.

(** The code of the function registered for such an entity. *)
Definition kind_code (db_choice : string) : code :=
  if String.eqb (kind_key db_choice) "keys"
  then get_collection_data else get_table_data.

(** The body of the Firestore loops: over the documents of a collection
    and over the collections. *)
Definition document_loop_body (col : collection_reference) (doc : document_snapshot)
  : M structure unit :=
  d <- call (to_dict doc) ;;
  modify_local (od_set (col_id col) [("keys", od_keys d)]).

Definition collection_reference_body (col : collection_reference) : M structure unit :=
  docs <- call (stream col) ;;
  for_gen docs (document_loop_body col).

(** The keys of the last of the documents, when it can be read. *)
Definition last_document_keys (docs : list document_snapshot) : option (list string) :=
  match last docs with
  | Some doc =>
      match to_dict doc with
      | Return d => Some (od_keys d)
      | Raise _ => None
      end
  | None => None
  end.

(** What the Firestore loop does for a collection whose stream ends
    normally and whose documents can all be read. *)
Definition collection_reference_step (col : collection_reference) : step_result :=
  match stream col with
  | Return (docs, None) =>
      match list_comp to_dict docs with
      | Return _ =>
          match last_document_keys docs with
          | Some keys => Return (Some (col_id col, [("keys", keys)]))
          | None => Return None
          end
      | Raise e => Raise e
      end
  | Return (_, Some e) => Raise e
  | Raise e => Raise e
  end.



(** ** More sample databases *)

(** A Firestore database with two collections; the stream of the second
    breaks after its first document. *)
Definition stream_broken : exn := Exn "ServiceUnavailable" "503 stream removed".

Definition snapshot (d : document) : document_snapshot := DocumentSnapshot (Return d).

Definition cities : collection_reference :=
  CollectionReference "cities"
    (Return ([snapshot [("name", PText "Oslo")];
              snapshot [("name", PText "Rome"); ("zip", PInt 118)]], None)).

Definition empty_collection : collection_reference :=
  CollectionReference "archive" (Return ([], None)).

Definition broken_collection : collection_reference :=
  CollectionReference "events"
    (Return ([snapshot [("at", PInt 1)]; snapshot [("at", PInt 2); ("by", PText "x")]],
             Some stream_broken)).

Definition firestore_db : connection :=
  Connection (Return true) (Raise (AttributeError "cursor"))
    (Raise (AttributeError "list_collection_names"))
    (fun _ => Raise (Exn "TypeError" "object is not subscriptable"))
    (Return ([cities; empty_collection], None))
    (fun _ => Raise (AttributeError "query")).

Definition flaky_firestore : connection :=
  Connection (Return true) (Raise (AttributeError "cursor"))
    (Raise (AttributeError "list_collection_names"))
    (fun _ => Raise (Exn "TypeError" "object is not subscriptable"))
    (Return ([cities] ++ broken_collection :: [empty_collection], None))
    (fun _ => Raise (AttributeError "query")).

(** Drivers whose MongoDB database cannot be tested for truth, as a
    database object that refuses [bool()], and drivers whose SQLite
    connection tests false. *)
Definition no_truth_value : exn :=
  Exn "NotImplementedError" "Database objects do not implement truth value testing".

Definition untestable_db : connection :=
  Connection (Raise no_truth_value) (conn_cursor blog_db) (list_collection_names blog_db)
    (conn_getitem blog_db) (collections blog_db) (conn_query blog_db).

Definition falsy_db : connection :=
  Connection (Return false) (conn_cursor users_file) (list_collection_names users_file)
    (conn_getitem users_file) (collections users_file) (conn_query users_file).

Definition mongo_drivers : drivers :=
  Drivers
    (psycopg2_connect offline) (mysql_connector_connect offline) (pyodbc_connect offline)
    (fun _ => Return falsy_db)
    (fun _ => Return (MongoClientObj (fun _ => Return untestable_db)))
    (boto3_Session offline) (credentials_Certificate offline)
    (firebase_admin_initialize_app offline) (firestore_client offline)
    (bigquery_Client_from_service_account_json offline).

Definition mongo_inputs : inputs :=
  Inputs true "MongoDB" "localhost" 27017 "blog" "alice" "secret" "" "" "" "".

Definition sqlite_inputs : inputs :=
  Inputs true "SQLite" "" 5432 "" "" "" "users.db" "" "" "".

(** Drivers whose PostgreSQL server is the guarded database, and a disk
    that refuses to open the file. *)
Definition guarded_drivers : drivers :=
  Drivers
    (fun _ _ _ _ _ => Return guarded_db)
    (mysql_connector_connect offline) (pyodbc_connect offline) (sqlite3_connect offline)
    (MongoClient offline) (boto3_Session offline) (credentials_Certificate offline)
    (firebase_admin_initialize_app offline) (firestore_client offline)
    (bigquery_Client_from_service_account_json offline).

Definition read_only : exn := Exn "PermissionError" "[Errno 13] Permission denied".

Definition disk_read_only : filesystem := FileSystem (fun _ => Raise read_only).


(** A mapping all of whose entries are [{key: names}], each entity once. *)
Definition entries_under (key : string) (d : structure) : Prop :=
  NoDup (od_keys d) /\
  Forall (fun kv : string * metadata => exists names, snd kv = [(key, names)]) d.

(** What a handler generated for a mapping of [db_choice] answers when the
    loop's variables hold the entity [entity] and its list [names]. *)
Definition kind_response (db_choice entity : string) (names : list string) (id : string)
  : response :=
  if String.eqb (kind_key db_choice) "keys"
  then CollectionData entity names
  else TableData entity names (select_by_id entity id).

(** * Properties *)

(** ** Insertion-ordered dictionaries *)

Lemma od_get_od_set {V} (k k' : string) (v : V) (d : odict V) :
  od_get k' (od_set k v d) = if String.eqb k' k then Some v else od_get k' d.
Proof.
  induction d as [|[k0 v0] d IH]; simpl.
  - destruct (String.eqb_spec k' k); reflexivity.
  - destruct (String.eqb_spec k k0) as [->|Hk]; simpl.
    + destruct (String.eqb_spec k' k0); reflexivity.
    + destruct (String.eqb_spec k' k0) as [->|Hk'].
      * destruct (String.eqb_spec k0 k); congruence.
      * exact IH.
Qed.

Lemma od_get_od_set_eq {V} (k : string) (v : V) (d : odict V) :
  od_get k (od_set k v d) = Some v.
Proof. rewrite od_get_od_set, String.eqb_refl. reflexivity. Qed.

Lemma od_get_od_set_ne {V} (k k' : string) (v : V) (d : odict V) :
  k' <> k -> od_get k' (od_set k v d) = od_get k' d.
Proof.
  intros H. rewrite od_get_od_set.
  destruct (String.eqb_spec k' k); congruence.
Qed.

Lemma od_get_is_Some {V} (k : string) (d : odict V) :
  is_Some (od_get k d) <-> k ∈ od_keys d.
Proof.
  induction d as [|[k0 v0] d IH]; simpl.
  - split; [intros [? ?]; discriminate | intros H; inversion H].
  - destruct (String.eqb_spec k k0) as [->|Hk].
    + split; [intros _; left | eauto].
    + rewrite IH. split; [intros; right; assumption|].
      intros H. inversion H; subst; [congruence | assumption].
Qed.

Lemma od_get_None {V} (k : string) (d : odict V) :
  od_get k d = None <-> k ∉ od_keys d.
Proof.
  rewrite <- od_get_is_Some. destruct (od_get k d); split; intros H.
  - discriminate.
  - exfalso. apply H. eauto.
  - intros [? ?]; discriminate.
  - reflexivity.
Qed.

Lemma od_keys_od_set {V} (k : string) (v : V) (d : odict V) :
  od_keys (od_set k v d) = if od_mem k d then od_keys d else od_keys d ++ [k].
Proof.
  unfold od_mem. induction d as [|[k0 v0] d IH]; simpl; [reflexivity|].
  destruct (String.eqb_spec k k0) as [->|Hk]; simpl; [reflexivity|].
  rewrite IH. destruct (od_get k d); reflexivity.
Qed.

Lemma elem_of_od_keys_od_set {V} (k k' : string) (v : V) (d : odict V) :
  k' ∈ od_keys (od_set k v d) <-> k' = k \/ k' ∈ od_keys d.
Proof.
  rewrite <- !od_get_is_Some, od_get_od_set.
  destruct (String.eqb_spec k' k) as [->|Hk].
  - split; eauto.
  - split; [eauto | intros [?|?]; congruence].
Qed.

Lemma NoDup_od_set {V} (k : string) (v : V) (d : odict V) :
  NoDup (od_keys d) -> NoDup (od_keys (od_set k v d)).
Proof.
  intros H. rewrite od_keys_od_set. unfold od_mem.
  destruct (od_get k d) eqn:E; [assumption|].
  apply od_get_None in E.
  apply NoDup_app. repeat split; [assumption | | apply NoDup_singleton].
  intros x Hx Hx'. apply list_elem_of_singleton in Hx'. subst. contradiction.
Qed.

Lemma length_od_set {V} (k : string) (v : V) (d : odict V) :
  length (od_set k v d) = if od_mem k d then length d else S (length d).
Proof.
  unfold od_mem. induction d as [|[k0 v0] d IH]; simpl; [reflexivity|].
  destruct (String.eqb_spec k k0) as [->|Hk]; simpl; [reflexivity|].
  rewrite IH. destruct (od_get k d); reflexivity.
Qed.

(** ** The monad *)

Lemma for_each_app {L X} (xs ys : list X) (body : X -> M L unit) (l : L) (w : world) :
  for_each (xs ++ ys) body l w = (for_each xs body ;;; for_each ys body) l w.
Proof.
  revert l w. induction xs as [|x xs IH]; intros l w; simpl.
  - reflexivity.
  - unfold bind in *. destruct (body x l w) as [[[[]|e] l'] w']; [|reflexivity].
    rewrite IH. reflexivity.
Qed.

Lemma keeps_world_ret {L A} (a : A) : keeps_world (ret (L := L) a).
Proof. intros l w. reflexivity. Qed.

Lemma keeps_world_raise {L A} (e : exn) : keeps_world (raise (L := L) (A := A) e).
Proof. intros l w. reflexivity. Qed.

Lemma keeps_world_call {L A} (o : outcome A) : keeps_world (call (L := L) o).
Proof. intros l w. reflexivity. Qed.

Lemma keeps_world_modify_local {L} (f : L -> L) : keeps_world (modify_local f).
Proof. intros l w. reflexivity. Qed.

Lemma keeps_world_bind {L A B} (c : M L A) (k : A -> M L B) :
  keeps_world c -> (forall a, keeps_world (k a)) -> keeps_world (bind c k).
Proof.
  intros Hc Hk l w. unfold bind. specialize (Hc l w).
  destruct (c l w) as [[[a|e] l'] w']; simpl in *; subst; [apply Hk | reflexivity].
Qed.

Lemma keeps_world_for_each {L X} (xs : list X) (body : X -> M L unit) :
  (forall x, keeps_world (body x)) -> keeps_world (for_each xs body).
Proof.
  intros Hb. induction xs as [|x xs IH]; simpl.
  - apply keeps_world_ret.
  - apply keeps_world_bind; [apply Hb | intros _; exact IH].
Qed.

Lemma keeps_world_for_gen {L X} (g : generator X) (body : X -> M L unit) :
  (forall x, keeps_world (body x)) -> keeps_world (for_gen g body).
Proof.
  intros Hb. unfold for_gen. apply keeps_world_bind.
  - apply keeps_world_for_each, Hb.
  - intros _. destruct (snd g); [apply keeps_world_raise | apply keeps_world_ret].
Qed.

Lemma keeps_world_if {L A} (b : bool) (c1 c2 : M L A) :
  keeps_world c1 -> keeps_world c2 -> keeps_world (if b then c1 else c2).
Proof. destruct b; auto. Qed.

Create HintDb keeps_world.
#[local] Hint Resolve keeps_world_ret keeps_world_raise keeps_world_call
  keeps_world_modify_local : keeps_world.

Ltac keeps_world_tac :=
  repeat first
    [ apply keeps_world_if
    | apply keeps_world_for_gen; intros ?
    | apply keeps_world_for_each; intros ?
    | apply keeps_world_bind; [|intros ?]
    | solve [auto with keeps_world] ].

(** ** The connector *)

Lemma eqb_false_of_not_in (k : string) (ks : list string) (s : string) :
  s ∉ ks -> k ∈ ks -> String.eqb s k = false.
Proof.
  intros Hn Hk. apply String.eqb_neq. intros ->. contradiction.
Qed.

Lemma connect_branches_keeps_world lib dbc h p dn u pw f ak sk r :
  keeps_world (connect_branches lib dbc h p dn u pw f ak sk r).
Proof. unfold connect_branches. keeps_world_tac. Qed.

Lemma connect_branches_unknown lib dbc h p dn u pw f ak sk r w :
  dbc ∉ connector_kinds ->
  connect_branches lib dbc h p dn u pw f ak sk r tt w = (Return None, tt, w).
Proof.
  intros Hn. unfold connect_branches.
  rewrite !(eqb_false_of_not_in _ connector_kinds)
    by (auto; unfold connector_kinds; rewrite !elem_of_cons; auto 10).
  reflexivity.
Qed.

(** What [connect_to_db] does, by the outcome of the construction. *)
Lemma connect_to_db_cases lib (L : Type) (l : L) (w : world)
    (dbc h : string) (p : Z) (dn u pw f ak sk r : string) :
  exists res w',
    connect_to_db lib dbc h p dn u pw f ak sk r l w = (Return res, l, w') /\
    match fst (fst (connect_branches lib dbc h p dn u pw f ak sk r tt w)) with
    | Return (Some c) => res = Some c /\ w' = w
    | Return None =>
        res = None /\ w' = log_ui (connect_error dbc (UnboundLocalError "conn")) w
    | Raise e => res = None /\ w' = log_ui (connect_error dbc e) w
    end.
Proof.
  unfold connect_to_db, with_locals, try_except, bind.
  pose proof (connect_branches_keeps_world lib dbc h p dn u pw f ak sk r tt w) as Hw.
  destruct (connect_branches lib dbc h p dn u pw f ak sk r tt w) as [[o u0] w0].
  simpl in Hw. subst w0.
  destruct o as [[c|]|e]; simpl; eauto.
Qed.

(** C7. [connect_to_db] always returns: never an exception.  When the
    construction of the client raises [e], the message
    "Error connecting to <kind>: <e>" is shown and [None] is returned; a
    client that was built is returned with nothing shown.  For "None", and
    for every label without a branch, no driver is called (the outcome is
    the same whatever the drivers do), reading the unassigned local [conn]
    raises, and [None] is returned with that error shown. *)
Theorem connect_to_db_never_raises lib (L : Type) (l : L) (w : world)
    (dbc h : string) (p : Z) (dn u pw f ak sk r : string) :
  (exists res w',
     connect_to_db lib dbc h p dn u pw f ak sk r l w = (Return res, l, w') /\
     match fst (fst (connect_branches lib dbc h p dn u pw f ak sk r tt w)) with
     | Return (Some c) => res = Some c /\ w' = w
     | Return None =>
         res = None /\ w' = log_ui (connect_error dbc (UnboundLocalError "conn")) w
     | Raise e => res = None /\ w' = log_ui (connect_error dbc e) w
     end) /\
  (dbc ∉ connector_kinds ->
   connect_to_db lib dbc h p dn u pw f ak sk r l w =
     (Return None, l, log_ui (connect_error dbc (UnboundLocalError "conn")) w)).
Proof.
  split; [apply connect_to_db_cases|].
  intros Hn.
  destruct (connect_to_db_cases lib L l w dbc h p dn u pw f ak sk r)
    as (res & w' & Hrun & Hcase).
  rewrite connect_branches_unknown in Hcase by assumption. simpl in Hcase.
  destruct Hcase as [-> ->]. exact Hrun.
Qed.

(** With the label "None" no driver is called and [None] comes back. *)
Lemma connect_to_db_never_raises_witness :
  connect_to_db offline "None" "db.invalid" 5432 "shop" "alice" "secret" "" "" "" ""
    tt world0 =
    (Return None, tt, log_ui (connect_error "None" (UnboundLocalError "conn")) world0).
Proof.
  apply (proj2 (connect_to_db_never_raises offline unit tt world0
                  "None" "db.invalid" 5432 "shop" "alice" "secret" "" "" "" "")).
  unfold connector_kinds. intros H.
  repeat (apply elem_of_cons in H as [H|H]; [discriminate H|]).
  apply elem_of_nil in H. exact H.
Defined.

(** ** The introspector *)

Lemma analyze_body_keeps_world conn kind : keeps_world (analyze_body conn kind).
Proof.
  unfold analyze_body. keeps_world_tac.
Qed.

(** The function returns the local [db_structure] as the [try] block left
    it, and shows an error exactly when the block raised. *)
Lemma analyze_db_structure_cases conn kind (L : Type) (l : L) (w : world) :
  analyze_db_structure conn kind l w =
    match analyze_body conn kind [] w with
    | (Return _, d, _) => (Return d, l, w)
    | (Raise e, d, _) => (Return d, l, log_ui (analyze_error kind e) w)
    end.
Proof.
  unfold analyze_db_structure, with_locals, try_except, bind.
  pose proof (analyze_body_keeps_world conn kind [] w) as Hw.
  destruct (analyze_body conn kind [] w) as [[[[]|e] d] w0]; simpl in Hw; subst w0;
    reflexivity.
Qed.

Lemma for_each_run_steps {X} (body : X -> M structure unit) (step : X -> step_result) :
  (forall x d w,
     body x d w =
       match step x with
       | Raise e => (Raise e, d, w)
       | Return None => (Return tt, d, w)
       | Return (Some (k, m)) => (Return tt, od_set k m d, w)
       end) ->
  forall xs d w,
    for_each xs body d w =
      (match fst (run_steps step xs d) with
       | None => Return tt
       | Some e => Raise e
       end, snd (run_steps step xs d), w).
Proof.
  intros Hb xs. induction xs as [|x xs IH]; intros d w; simpl; [reflexivity|].
  unfold bind. rewrite Hb.
  destruct (step x) as [[[k m]|]|e]; simpl; [apply IH | apply IH | reflexivity].
Qed.

Lemma table_loop_body_step cur q i t d w :
  table_loop_body cur q i t d w =
    match table_step cur q i t with
    | Raise e => (Raise e, d, w)
    | Return None => (Return tt, d, w)
    | Return (Some (k, m)) => (Return tt, od_set k m d, w)
    end.
Proof.
  unfold table_loop_body, table_step, bind, call, modify_local.
  destruct (tuple_index t 0) as [n|e]; [|reflexivity].
  destruct (execute cur (q n)) as [[]|e]; [|reflexivity].
  destruct (fetchall cur (q n)) as [rows|e]; [|reflexivity].
  destruct (list_comp _ rows) as [names|e]; reflexivity.
Qed.

Lemma collection_loop_body_step conn c d w :
  collection_loop_body conn c d w =
    match collection_step conn c with
    | Raise e => (Raise e, d, w)
    | Return None => (Return tt, d, w)
    | Return (Some (k, m)) => (Return tt, od_set k m d, w)
    end.
Proof.
  unfold collection_loop_body, collection_step, bind, call, modify_local.
  destruct (conn_getitem conn c) as [coll|e]; [|reflexivity].
  destruct (find_one coll) as [[[|kv doc]|]|e]; reflexivity.
Qed.

(** *** What a run of steps leaves in the dictionary *)


Lemma run_steps_all_return {X} (step : X -> step_result) (xs : list X) (d : structure) :
  Forall (fun x => exists r, step x = Return r) xs ->
  fst (run_steps step xs d) = None.
Proof.
  intros H. revert d. induction H as [|x xs [r Hr] _ IH]; intros d; simpl; [reflexivity|].
  rewrite Hr. destruct r as [[k m]|]; apply IH.
Qed.

Lemma run_steps_no_failure {X} (step : X -> step_result) (xs : list X) (d : structure) :
  fst (run_steps step xs d) = None ->
  Forall (fun x => exists r, step x = Return r) xs.
Proof.
  revert d. induction xs as [|x xs IH]; intros d; simpl; [constructor|].
  destruct (step x) as [[[k m]|]|e] eqn:E; simpl; intros H; try discriminate;
    (constructor; [eauto | eapply IH; eassumption]).
Qed.

Lemma run_steps_NoDup {X} (step : X -> step_result) (xs : list X) (d : structure) :
  NoDup (od_keys d) -> NoDup (od_keys (snd (run_steps step xs d))).
Proof.
  revert d. induction xs as [|x xs IH]; intros d Hd; simpl; [assumption|].
  destruct (step x) as [[[k m]|]|e]; simpl; auto using NoDup_od_set.
Qed.

(** Every entry was there before or was set by a step. *)
Lemma run_steps_get_inv {X} (step : X -> step_result) (xs : list X) (d : structure)
    (k : string) (m : metadata) :
  od_get k (snd (run_steps step xs d)) = Some m ->
  od_get k d = Some m \/ exists x, x ∈ xs /\ step x = Return (Some (k, m)).
Proof.
  revert d. induction xs as [|x xs IH]; intros d; simpl; [auto|].
  destruct (step x) as [[[k0 m0]|]|e] eqn:E; simpl; [| |auto].
  - intros H. apply IH in H as [H|(y & Hy & Hs)].
    + rewrite od_get_od_set in H. destruct (String.eqb_spec k k0) as [->|Hk].
      * injection H as ->. right. exists x. split; [left | assumption].
      * auto.
    + right. exists y. split; [right; assumption | assumption].
  - intros H. apply IH in H as [H|(y & Hy & Hs)]; [auto|].
    right. exists y. split; [right; assumption | assumption].
Qed.

Lemma run_steps_get_other {X} (step : X -> step_result) (xs : list X) (d : structure)
    (k : string) :
  (forall x m, x ∈ xs -> step x <> Return (Some (k, m))) ->
  od_get k (snd (run_steps step xs d)) = od_get k d.
Proof.
  revert d. induction xs as [|x xs IH]; intros d H; simpl; [reflexivity|].
  assert (Hxs : forall y m, y ∈ xs -> step y <> Return (Some (k, m))).
  { intros y m Hy. apply H. right. assumption. }
  destruct (step x) as [[[k0 m0]|]|e] eqn:E; simpl; [| auto | reflexivity].
  rewrite IH by assumption. apply od_get_od_set_ne.
  intros ->. eapply H; [left | exact E].
Qed.

(** When the steps determine the entry of a key, a run without failure
    leaves that entry. *)
Lemma run_steps_get_gen {X} (step : X -> step_result) (xs : list X) (d : structure)
    (k : string) (m : metadata) :
  fst (run_steps step xs d) = None ->
  (forall y m', y ∈ xs -> step y = Return (Some (k, m')) -> m' = m) ->
  od_get k d = Some m \/ (exists x, x ∈ xs /\ step x = Return (Some (k, m))) ->
  od_get k (snd (run_steps step xs d)) = Some m.
Proof.
  revert d. induction xs as [|x xs IH]; intros d Hok Hfun Hsrc.
  - destruct Hsrc as [H|(y & Hy & _)]; [exact H | inversion Hy].
  - simpl in *.
    assert (Hfun' : forall y m', y ∈ xs -> step y = Return (Some (k, m')) -> m' = m).
    { intros z m' Hz. apply Hfun. right. assumption. }
    destruct (step x) as [[[k0 m0]|]|e] eqn:E; simpl in *; try discriminate.
    + apply IH; [assumption | assumption |].
      rewrite od_get_od_set. destruct (String.eqb_spec k k0) as [->|Hk].
      * left. f_equal. eapply Hfun; [left | exact E].
      * destruct Hsrc as [H|(y & Hy & Hs)]; [auto|].
        inversion Hy; subst; [congruence | eauto].
    + apply IH; [assumption | assumption |].
      destruct Hsrc as [H|(y & Hy & Hs)]; [auto|].
      inversion Hy; subst; [congruence | eauto].
Qed.

Lemma run_steps_get {X} (step : X -> step_result) (xs : list X) (d : structure)
    (k : string) (m : metadata) :
  fst (run_steps step xs d) = None ->
  (forall y m', y ∈ xs -> step y = Return (Some (k, m')) -> m' = m) ->
  (exists x, x ∈ xs /\ step x = Return (Some (k, m))) ->
  od_get k (snd (run_steps step xs d)) = Some m.
Proof. intros. apply run_steps_get_gen; auto. Qed.

Lemma run_steps_keys {X} (step : X -> step_result) (xs : list X) (d : structure)
    (k : string) :
  fst (run_steps step xs d) = None ->
  k ∈ od_keys d \/ (exists x m, x ∈ xs /\ step x = Return (Some (k, m))) ->
  k ∈ od_keys (snd (run_steps step xs d)).
Proof.
  revert d. induction xs as [|x xs IH]; intros d Hok Hsrc.
  - destruct Hsrc as [H|(y & m & Hy & _)]; [exact H | inversion Hy].
  - simpl in *.
    destruct (step x) as [[[k0 m0]|]|e] eqn:E; simpl in *; try discriminate.
    + apply IH; [assumption|]. rewrite elem_of_od_keys_od_set.
      destruct Hsrc as [H|(y & m & Hy & Hs)]; [auto|].
      inversion Hy; subst; [left; left; congruence | eauto].
    + apply IH; [assumption|].
      destruct Hsrc as [H|(y & m & Hy & Hs)]; [auto|].
      inversion Hy; subst; [congruence | eauto].
Qed.

Lemma list_comp_fields (i : nat) (rows : list row) :
  Forall (fun r : row => is_Some (r !! i)) rows ->
  list_comp (fun col => tuple_index col i) rows = Return (fields i rows).
Proof.
  unfold fields. induction 1 as [|r rows [c Hc] _ IH]; simpl; [reflexivity|].
  unfold tuple_index at 1. rewrite Hc, IH. reflexivity.
Qed.

Lemma fields_Forall2 (i : nat) (rows : list row) :
  Forall (fun r : row => is_Some (r !! i)) rows ->
  Forall2 (fun (r : row) c => r !! i = Some c) rows (fields i rows).
Proof.
  unfold fields. induction 1 as [|r rows [c Hc] _ IH]; simpl; [constructor|].
  rewrite Hc. constructor; assumption.
Qed.

Lemma is_relational_spec (kind : string) :
  kind ∈ relational_kinds <-> is_relational kind = true.
Proof.
  unfold relational_kinds, is_relational.
  rewrite !orb_true_iff, !String.eqb_eq, !elem_of_cons, elem_of_nil.
  tauto.
Qed.

(** The relational branch is the loop over the catalog's rows. *)
Lemma analyze_body_relational conn kind cur tables d w :
  is_relational kind = true ->
  conn_cursor conn = Return cur ->
  execute cur catalog_query = Return tt ->
  fetchall cur catalog_query = Return tables ->
  analyze_body conn kind d w = for_each tables (table_loop_body cur column_query 0) d w.
Proof.
  intros Hk Hc He Hf. unfold analyze_body, bind, call.
  rewrite Hk, Hc, He, Hf. reflexivity.
Qed.

(** A table whose name and columns can be read. *)
Lemma table_step_ok cur q i (cols : string -> list row) (t : row) (n : string) :
  t !! 0 = Some n ->
  execute cur (q n) = Return tt ->
  fetchall cur (q n) = Return (cols n) ->
  Forall (fun r : row => is_Some (r !! i)) (cols n) ->
  table_step cur q i t = Return (Some (n, [("columns", fields i (cols n))])).
Proof.
  intros Ht He Hf Hr. unfold table_step.
  replace (tuple_index t 0) with (Return n)
    by (unfold tuple_index; rewrite Ht; reflexivity).
  rewrite He, Hf, list_comp_fields by assumption. reflexivity.
Qed.

(** C2. For PostgreSQL, MySQL and Microsoft SQL Server, when the catalog
    query returns [tables] and the column query of each table returns rows
    (each row with a first field), [analyze_db_structure] returns, without
    showing an error, a mapping whose keys are exactly the table names (the
    first field of each catalog row), each once, and in which the entry of
    table [n] is [{"columns": names}] with [names], element for element and
    in order, the first fields of the rows [cols n] that the column query of
    [n] returned. *)
Theorem relational_structure conn kind cur tables (cols : string -> list row)
    (L : Type) (l : L) (w : world) :
  kind ∈ relational_kinds ->
  conn_cursor conn = Return cur ->
  execute cur catalog_query = Return tt ->
  fetchall cur catalog_query = Return tables ->
  (forall t, t ∈ tables ->
     exists n, t !! 0 = Some n /\
       execute cur (column_query n) = Return tt /\
       fetchall cur (column_query n) = Return (cols n) /\
       Forall (fun r : row => is_Some (r !! 0)) (cols n)) ->
  exists d,
    analyze_db_structure conn kind l w = (Return d, l, w) /\
    NoDup (od_keys d) /\
    (forall n, n ∈ od_keys d <-> exists t, t ∈ tables /\ t !! 0 = Some n) /\
    (forall n, n ∈ od_keys d ->
       exists names, od_get n d = Some [("columns", names)] /\
         Forall2 (fun (r : row) c => r !! 0 = Some c) (cols n) names).
Proof.
  intros Hk Hc He Hf Hok. apply is_relational_spec in Hk.
  set (step := table_step cur column_query 0).
  assert (Hstep : forall t, t ∈ tables ->
            exists n, t !! 0 = Some n /\
              Forall (fun r : row => is_Some (r !! 0)) (cols n) /\
              step t = Return (Some (n, [("columns", fields 0 (cols n))]))).
  { intros t Ht. destruct (Hok t Ht) as (n & H0 & H1 & H2 & H3).
    exists n. repeat split; try assumption. eapply table_step_ok; eassumption. }
  assert (Hnf : fst (run_steps step tables []) = None).
  { apply run_steps_all_return, Forall_forall. intros t Ht.
    destruct (Hstep t Ht) as (n & _ & _ & Hs). eauto. }
  exists (snd (run_steps step tables [])).
  assert (Hkeys : forall n, n ∈ od_keys (snd (run_steps step tables [])) <->
                    exists t, t ∈ tables /\ t !! 0 = Some n).
  { intros n. split.
    - intros Hn. apply od_get_is_Some in Hn as [m Hm].
      apply run_steps_get_inv in Hm as [Hm|(t & Ht & Hs)]; [discriminate|].
      destruct (Hstep t Ht) as (n' & H0 & _ & Hs').
      exists t. split; [assumption|]. congruence.
    - intros (t & Ht & H0). apply run_steps_keys; [assumption|].
      right. destruct (Hstep t Ht) as (n' & H0' & _ & Hs').
      rewrite H0 in H0'. injection H0' as <-.
      exists t, [("columns", fields 0 (cols n))]. split; assumption. }
  split; [|split; [|split]].
  - rewrite analyze_db_structure_cases.
    rewrite (analyze_body_relational conn kind cur tables) by assumption.
    rewrite (for_each_run_steps _ step) by apply table_loop_body_step.
    rewrite Hnf. reflexivity.
  - apply run_steps_NoDup. constructor.
  - apply Hkeys.
  - intros n Hn. apply Hkeys in Hn as (t & Ht & H0).
    destruct (Hstep t Ht) as (n' & H0' & Hrows & Hs').
    assert (n' = n) by congruence. subst n'.
    exists (fields 0 (cols n)). split; [|apply fields_Forall2; assumption].
    apply run_steps_get; [assumption | | eauto].
    intros y m' Hy Hsy. destruct (Hstep y Hy) as (n2 & _ & _ & Hs2).
    congruence.
Qed.

(** The shop database, analyzed as PostgreSQL. *)
Lemma relational_structure_witness :
  exists d,
    analyze_db_structure shop_db "PostgreSQL" tt world0 = (Return d, tt, world0) /\
    NoDup (od_keys d) /\
    (forall n, n ∈ od_keys d <-> exists t, t ∈ shop_tables /\ t !! 0 = Some n) /\
    (forall n, n ∈ od_keys d ->
       exists names, od_get n d = Some [("columns", names)] /\
         Forall2 (fun (r : row) c => r !! 0 = Some c) (shop_columns n) names).
Proof.
  apply (relational_structure shop_db "PostgreSQL" shop_cursor shop_tables shop_columns
           unit tt world0).
  - left.
  - reflexivity.
  - reflexivity.
  - reflexivity.
  - intros t Ht. unfold shop_tables in Ht.
    apply elem_of_cons in Ht as [->|Ht]; [|apply elem_of_cons in Ht as [->|Ht]].
    + exists "users". repeat split; repeat constructor; eexists; reflexivity.
    + exists "orders". repeat split; repeat constructor; eexists; reflexivity.
    + apply elem_of_nil in Ht. destruct Ht.
Defined.

Lemma log_ui_neq (ev : ui_event) (w : world) : log_ui ev w <> w.
Proof.
  intros H. apply (f_equal ui) in H. simpl in H.
  apply (f_equal (@length ui_event)) in H. rewrite length_app in H. simpl in H. lia.
Qed.

(** The MongoDB branch is the loop over the collection names. *)
Lemma analyze_body_mongodb conn d w :
  analyze_body conn "MongoDB" d w =
    (cols <- call (list_collection_names conn) ;;
     for_each cols (collection_loop_body conn)) d w.
Proof. reflexivity. Qed.

(** A step of the MongoDB loop sets an entry only for the collection it
    samples, and only from a sampled document that is not empty. *)
Lemma collection_step_Some conn (c k : string) (m : metadata) :
  collection_step conn c = Return (Some (k, m)) ->
  k = c /\
  exists coll doc,
    conn_getitem conn c = Return coll /\ find_one coll = Return (Some doc) /\
    doc <> [] /\ m = [("keys", od_keys doc)].
Proof.
  unfold collection_step.
  destruct (conn_getitem conn c) as [coll|e]; [|discriminate].
  destruct (find_one coll) as [[[|kv doc]|]|e] eqn:E; try discriminate.
  intros H. injection H as <- <-. split; [reflexivity|].
  exists coll, (kv :: doc). repeat split; [assumption | discriminate].
Qed.

(** C4. For MongoDB, [analyze_db_structure] always returns a mapping [d]
    such that: a collection whose sample is absent ([find_one] yields
    [None]) has no entry; every entry belongs to a listed collection whose
    sample is a non-empty document, and is [{"keys": <the sample's keys>}];
    and when no error was shown, every listed collection with a non-empty
    sample has its entry. *)
Theorem mongodb_structure conn (L : Type) (l : L) (w : world) :
  exists d w',
    analyze_db_structure conn "MongoDB" l w = (Return d, l, w') /\
    NoDup (od_keys d) /\
    (forall c coll,
       conn_getitem conn c = Return coll -> find_one coll = Return None ->
       od_get c d = None) /\
    (forall c m,
       od_get c d = Some m ->
       exists names coll doc,
         list_collection_names conn = Return names /\ c ∈ names /\
         conn_getitem conn c = Return coll /\ find_one coll = Return (Some doc) /\
         doc <> [] /\ m = [("keys", od_keys doc)]) /\
    (w' = w ->
     forall names c coll doc,
       list_collection_names conn = Return names -> c ∈ names ->
       conn_getitem conn c = Return coll -> find_one coll = Return (Some doc) ->
       doc <> [] ->
       od_get c d = Some [("keys", od_keys doc)]).
Proof.
  rewrite analyze_db_structure_cases, analyze_body_mongodb.
  unfold bind, call.
  destruct (list_collection_names conn) as [names|e] eqn:Hnames.
  2:{ exists [], (log_ui (analyze_error "MongoDB" e) w).
      split; [reflexivity|]. split; [constructor|].
      split; [reflexivity|]. split; [discriminate|].
      intros H. exfalso. exact (log_ui_neq _ _ H). }
  rewrite (for_each_run_steps _ (collection_step conn))
    by apply collection_loop_body_step.
  set (r := run_steps (collection_step conn) names []).
  assert (Hinv : forall c m, od_get c (snd r) = Some m ->
            exists coll doc, c ∈ names /\
              conn_getitem conn c = Return coll /\ find_one coll = Return (Some doc) /\
              doc <> [] /\ m = [("keys", od_keys doc)]).
  { intros c m Hm. apply run_steps_get_inv in Hm as [Hm|(x & Hx & Hs)]; [discriminate|].
    apply collection_step_Some in Hs as (<- & coll & doc & H1 & H2 & H3 & H4).
    exists coll, doc. auto. }
  exists (snd r), (match fst r with None => w | Some e => log_ui (analyze_error "MongoDB" e) w end).
  split; [destruct (fst r); reflexivity|].
  split; [apply run_steps_NoDup; constructor|].
  split; [|split].
  - intros c coll Hg Hf. destruct (od_get c (snd r)) as [m|] eqn:E; [|reflexivity].
    apply Hinv in E as (coll' & doc & _ & Hg' & Hf' & _). congruence.
  - intros c m Hm. apply Hinv in Hm as (coll & doc & H).
    exists names, coll, doc. tauto.
  - intros Hw names' c coll doc Hn Hc Hg Hf Hd. injection Hn as <-.
    assert (Hnf : fst r = None).
    { destruct (fst r); [|reflexivity]. exfalso. exact (log_ui_neq _ _ Hw). }
    apply run_steps_get; [assumption | |].
    + intros y m' Hy Hs.
      apply collection_step_Some in Hs as (<- & coll' & doc' & H1 & H2 & _ & H4).
      congruence.
    + exists c. split; [assumption|]. unfold collection_step. rewrite Hg, Hf.
      destruct doc; [congruence | reflexivity].
Qed.

(** The blog database: [drafts] has no entry, [posts] has its keys. *)
Lemma mongodb_structure_witness :
  exists d,
    analyze_db_structure blog_db "MongoDB" tt world0 = (Return d, tt, world0) /\
    od_get "drafts" d = None /\
    od_get "posts" d = Some [("keys", ["_id"; "title"])].
Proof.
  destruct (mongodb_structure blog_db unit tt world0)
    as (d & w' & Hrun & _ & Hnone & _ & Hall).
  assert (Hw : w' = world0).
  { change (analyze_db_structure blog_db "MongoDB" tt world0)
      with (Return [("posts", [("keys", ["_id"; "title"])])] : outcome structure,
            tt, world0) in Hrun.
    injection Hrun as _ <-. reflexivity. }
  exists d. split; [rewrite Hrun, Hw; reflexivity|]. split.
  - apply (Hnone "drafts" (Collection (Return None))); reflexivity.
  - apply (Hall Hw ["posts"; "drafts"; "tags"] "posts"
             (Collection (Return (Some [("_id", PInt 1); ("title", PText "Hello")])))
             [("_id", PInt 1); ("title", PText "Hello")]).
    + reflexivity.
    + left.
    + reflexivity.
    + reflexivity.
    + discriminate.
Defined.

(** C5. For Amazon DynamoDB, [analyze_db_structure] returns the same
    placeholder whatever the connection is and answers, with nothing
    shown: the one entry "Amazon DynamoDB" with the columns "Primary Key"
    and "Attributes". *)
Theorem dynamodb_placeholder conn (L : Type) (l : L) (w : world) :
  analyze_db_structure conn "Amazon DynamoDB" l w =
    (Return [("Amazon DynamoDB", [("columns", ["Primary Key"; "Attributes"])])], l, w).
Proof. reflexivity. Qed.

(** *** Failure in the middle of a loop *)



(** Steps that set distinct new keys append one entry each. *)
Lemma run_steps_od_keys (step : row -> step_result) (xs : list row) (d : structure) :
  Forall (fun x => exists n m, x !! 0 = Some n /\ step x = Return (Some (n, m))) xs ->
  NoDup (od_keys d ++ fields 0 xs) ->
  od_keys (snd (run_steps step xs d)) = od_keys d ++ fields 0 xs.
Proof.
  intros H. revert d. induction H as [|x xs (n & m & Hn & Hs) _ IH]; intros d Hnd; simpl.
  - rewrite app_nil_r. reflexivity.
  - unfold fields in *. simpl in *. rewrite Hs, Hn in *. simpl.
    assert (Hfresh : od_mem n d = false).
    { unfold od_mem. destruct (od_get n d) eqn:E; [|reflexivity].
      exfalso. apply NoDup_app in Hnd as (_ & Hdisj & _).
      apply (Hdisj n); [apply od_get_is_Some; eauto | left]. }
    rewrite IH; rewrite od_keys_od_set, Hfresh, <- app_assoc; [reflexivity | exact Hnd].
Qed.

Lemma table_step_Some cur q i (t : row) (k : string) (m : metadata) :
  table_step cur q i t = Return (Some (k, m)) -> t !! 0 = Some k.
Proof.
  unfold table_step, tuple_index.
  destruct (t !! 0) as [n|]; [|discriminate].
  destruct (execute cur (q n)) as [[]|]; [|discriminate].
  destruct (fetchall cur (q n)) as [rows|]; [|discriminate].
  destruct (list_comp _ rows); [|discriminate].
  intros H. injection H as <- _. reflexivity.
Qed.

Lemma table_step_Return cur q i (t : row) (r : option (string * metadata)) :
  table_step cur q i t = Return r ->
  exists n m, t !! 0 = Some n /\ table_step cur q i t = Return (Some (n, m)).
Proof.
  intros H. destruct r as [[k m]|].
  - exists k, m. split; [eapply table_step_Some; eassumption | assumption].
  - exfalso. revert H. unfold table_step.
    repeat case_match; discriminate.
Qed.





Lemma analyze_body_sqlite conn cur tables d w :
  conn_cursor conn = Return cur ->
  execute cur sqlite_catalog_query = Return tt ->
  fetchall cur sqlite_catalog_query = Return tables ->
  analyze_body conn "SQLite" d w =
    for_each tables (table_loop_body cur sqlite_column_query 1) d w.
Proof.
  intros Hc He Hf. unfold analyze_body, bind, call. simpl.
  rewrite Hc, He, Hf. reflexivity.
Qed.

Lemma analyze_db_structure_returns conn kind (L : Type) (l : L) (w : world) :
  exists d w', analyze_db_structure conn kind l w = (Return d, l, w').
Proof.
  rewrite analyze_db_structure_cases.
  destruct (analyze_body conn kind [] w) as [[[[]|e] d] w0]; eauto.
Qed.






(** ** The endpoint synthesizer *)

Lemma alter_last {A} (f : A -> A) (l : list A) (x : A) :
  alter f (length l) (l ++ [x]) = l ++ [f x].
Proof. induction l as [|y l IH]; simpl; [reflexivity | f_equal; exact IH]. Qed.

Lemma lookup_last {A} (l : list A) (x : A) : (l ++ [x]) !! length l = Some x.
Proof. induction l as [|y l IH]; simpl; [reflexivity | exact IH]. Qed.

(** *** Lists of registrations *)

Lemma plan_app (a b : structure) : plan (a ++ b) = plan a ++ plan b.
Proof. unfold plan. rewrite map_app, concat_app. reflexivity. Qed.

Lemma plan_cons (item : string * metadata) (d : structure) :
  plan (item :: d) = entity_plan item ++ plan d.
Proof. reflexivity. Qed.

Lemma plan_routes_app (fid oid : nat) (p q : list (string * code)) :
  plan_routes fid oid (p ++ q) =
    plan_routes fid oid p ++ plan_routes fid (oid + length p) q.
Proof.
  revert oid. induction p as [|ec p IH]; intros oid; simpl.
  - rewrite Nat.add_0_r. reflexivity.
  - rewrite IH. do 3 f_equal. lia.
Qed.

Lemma plan_endpoints_app (p q : list (string * code)) (r : registry) :
  plan_endpoints (p ++ q) r = plan_endpoints q (plan_endpoints p r).
Proof. apply fold_left_app. Qed.

Lemma length_plan_routes (fid oid : nat) (p : list (string * code)) :
  length (plan_routes fid oid p) = length p.
Proof. revert oid. induction p as [|ec p IH]; intros oid; simpl; [reflexivity|]. f_equal. apply IH. Qed.

Lemma plan_routes_paths (fid oid : nat) (p : list (string * code)) :
  map fst (plan_routes fid oid p) = plan_paths p.
Proof.
  revert oid. induction p as [|ec p IH]; intros oid; simpl; [reflexivity|].
  f_equal. apply IH.
Qed.

(** A route made of a list of registrations belongs to one of them; its
    function closes over the cells of the call and was created during it. *)
Lemma elem_of_plan_routes (fid oid : nat) (p : list (string * code)) (path : string)
    (h : handler) :
  (path, h) ∈ plan_routes fid oid p ->
  exists e, (e, h_code h) ∈ p /\ path = route_path (h_code h) e /\
    h_frame h = fid /\ oid <= h_id h < oid + length p.
Proof.
  revert oid. induction p as [|[e c] p IH]; intros oid Hin; simpl in Hin;
    [inversion Hin|].
  apply elem_of_cons in Hin as [Heq|Hin].
  - injection Heq as -> ->. exists e. simpl. split; [left|]. repeat split; lia.
  - apply IH in Hin as (e' & Hin & Hp & Hf & Hid). exists e'.
    split; [right; assumption|]. simpl. repeat split; try assumption; lia.
Qed.

Lemma plan_routes_elem_of (fid oid : nat) (p : list (string * code)) (e : string)
    (c : code) :
  (e, c) ∈ p ->
  exists h, (route_path c e, h) ∈ plan_routes fid oid p /\ h_code h = c /\ h_frame h = fid.
Proof.
  revert oid. induction p as [|ec p IH]; intros oid Hin; [inversion Hin|].
  apply elem_of_cons in Hin as [<-|Hin].
  - exists (Handler c fid oid). simpl. split; [left | auto].
  - destruct (IH (S oid) Hin) as (h & Hh & Hc & Hf). exists h.
    simpl. split; [right; assumption | auto].
Qed.

(** The function objects of the routes are pairwise distinct. *)
Lemma NoDup_plan_routes (fid oid : nat) (p : list (string * code)) :
  NoDup (map snd (plan_routes fid oid p)).
Proof.
  revert oid. induction p as [|ec p IH]; intros oid; simpl; [constructor|].
  apply NoDup_cons. split; [|apply IH].
  intros Hin. apply list_elem_of_In, in_map_iff in Hin as ([path h] & Hh & Hin).
  simpl in Hh. subst h.
  apply list_elem_of_In, elem_of_plan_routes in Hin as (_ & _ & _ & _ & Hid).
  simpl in Hid. lia.
Qed.

Lemma elem_of_entity_plan (item : string * metadata) (e : string) (c : code) :
  (e, c) ∈ entity_plan item <->
  e = fst item /\
  ((c = get_table_data /\ od_mem "columns" (snd item) = true) \/
   (c = get_collection_data /\ od_mem "keys" (snd item) = true)).
Proof.
  unfold entity_plan. rewrite elem_of_app.
  destruct (od_mem "columns" (snd item)); destruct (od_mem "keys" (snd item));
    rewrite ?elem_of_cons, ?elem_of_nil; split;
    try (intros [H|H]; try destruct H as [H|H]; try (inversion H; fail);
         try (injection H as -> ->; auto; fail); fail);
    intros (-> & [(-> & H)|(-> & H)]); try discriminate H; auto.
Qed.

Lemma elem_of_plan (d : structure) (e : string) (c : code) :
  (e, c) ∈ plan d <->
  exists m, (e, m) ∈ d /\
    ((c = get_table_data /\ od_mem "columns" m = true) \/
     (c = get_collection_data /\ od_mem "keys" m = true)).
Proof.
  unfold plan. rewrite list_elem_of_In, in_concat. split.
  - intros (p & Hp & Hin). apply in_map_iff in Hp as ([e' m] & <- & Hitem).
    apply list_elem_of_In, elem_of_entity_plan in Hin as (-> & Hcase).
    exists m. split; [apply list_elem_of_In; assumption | exact Hcase].
  - intros (m & Hitem & Hcase). exists (entity_plan (e, m)).
    split; [apply in_map, list_elem_of_In; assumption|].
    apply list_elem_of_In, elem_of_entity_plan. auto.
Qed.

(** *** What the application refuses *)

Lemma entity_refusal_None (app : FastAPI) (item : string * metadata) :
  entity_refusal app item = None <->
  (od_mem "columns" (snd item) = true ->
   route_error app (table_path (fst item)) get_table_data = None) /\
  (od_mem "keys" (snd item) = true ->
   route_error app (collection_path (fst item)) get_collection_data = None).
Proof.
  unfold entity_refusal.
  destruct (od_mem "columns" (snd item)); destruct (od_mem "keys" (snd item));
    try destruct (route_error app (table_path (fst item)) get_table_data);
    try destruct (route_error app (collection_path (fst item)) get_collection_data);
    split; try discriminate; try (intros [H1 H2]); try (intros _; split; intros);
    try reflexivity; try discriminate;
    try (discriminate (H1 eq_refl)); try (discriminate (H2 eq_refl)).
Qed.

Lemma entity_refusal_Some (app : FastAPI) (item : string * metadata) (c : code)
    (x : exn) :
  entity_refusal app item = Some (c, x) ->
  route_error app (route_path c (fst item)) c = Some x /\
  (fst item, c) ∈ entity_plan item /\
  exists rest, entity_plan item = plan_before item c ++ (fst item, c) :: rest.
Proof.
  unfold entity_refusal, entity_plan, plan_before.
  destruct (od_mem "columns" (snd item)); destruct (od_mem "keys" (snd item));
    try destruct (route_error app (table_path (fst item)) get_table_data) eqn:E1;
    try destruct (route_error app (collection_path (fst item)) get_collection_data) eqn:E2;
    intros H; try discriminate H; injection H as <- <-; simpl;
    (split; [assumption|]); (split; [rewrite ?elem_of_cons; auto|]);
    eexists; reflexivity.
Qed.

Lemma accepts_nil (app : FastAPI) : accepts app [].
Proof. intros e m H. inversion H. Qed.

Lemma accepts_cons (app : FastAPI) (item : string * metadata) (d : structure) :
  accepts app (item :: d) <-> entity_refusal app item = None /\ accepts app d.
Proof.
  rewrite entity_refusal_None. unfold accepts. split.
  - intros H. split.
    + destruct item as [e m]. apply H. left.
    + intros e m Hin. apply H. right. assumption.
  - intros [Hitem Hd] e m Hin. apply elem_of_cons in Hin as [<-|Hin];
      [exact Hitem | apply Hd; assumption].
Qed.

Lemma accepts_app (app : FastAPI) (a b : structure) :
  accepts app (a ++ b) <-> accepts app a /\ accepts app b.
Proof.
  induction a as [|item a IH]; simpl.
  - split; [intros H; split; [apply accepts_nil | exact H] | intros [_ H]; exact H].
  - rewrite !accepts_cons, IH. tauto.
Qed.

Lemma first_refusal_None (app : FastAPI) (d : structure) :
  first_refusal app d = None <-> accepts app d.
Proof.
  induction d as [|item d IH]; simpl.
  - split; [intros _; apply accepts_nil | reflexivity].
  - rewrite accepts_cons, <- IH.
    destruct (entity_refusal app item) as [[c x]|].
    + split; [discriminate | intros [H _]; discriminate H].
    + destruct (first_refusal app d) as [[[[pre it] c] x]|].
      * split; [discriminate | intros [_ H]; discriminate H].
      * split; auto.
Qed.

Lemma first_refusal_Some (app : FastAPI) (d pre : structure)
    (item : string * metadata) (c : code) (x : exn) :
  first_refusal app d = Some (pre, item, c, x) ->
  exists post, d = pre ++ item :: post /\ accepts app pre /\
    entity_refusal app item = Some (c, x).
Proof.
  revert pre. induction d as [|y d IH]; intros pre; simpl; [discriminate|].
  destruct (entity_refusal app y) as [[c' x']|] eqn:E.
  - intros H. injection H as <- <- <- <-. exists d.
    split; [reflexivity|]. split; [apply accepts_nil | assumption].
  - destruct (first_refusal app d) as [[[[pre' it] c'] x']|]; [|discriminate].
    intros H. injection H as <- <- <- <-.
    destruct (IH pre' eq_refl) as (post & -> & Hpre & Hit). exists post.
    split; [reflexivity|]. split; [|assumption].
    apply accepts_cons. auto.
Qed.

Lemma first_refusal_app (app : FastAPI) (a b : structure) :
  accepts app a ->
  first_refusal app (a ++ b) =
    match first_refusal app b with
    | Some (pre, item, c, x) => Some (a ++ pre, item, c, x)
    | None => None
    end.
Proof.
  induction a as [|y a IH]; intros Ha; simpl.
  - destruct (first_refusal app b) as [[[[pre it] c] x]|]; reflexivity.
  - apply accepts_cons in Ha as [Hy Ha]. rewrite Hy, IH by assumption.
    destruct (first_refusal app b) as [[[[pre it] c] x]|]; reflexivity.
Qed.

(** *** A run of the synthesizer *)

(** One iteration of the loop of [generate_fastapi_api]. *)
Lemma generate_item (app : FastAPI) (item : string * metadata) (reg : registry)
    (u : list ui_event) (j : option string) (r : list (string * handler))
    (fs : list frame) (f : frame) (o : nat) :
  (set_cell (length fs) (bind_table (fst item)) ;;;
   (if od_mem "columns" (snd item) then
      columns <- call (getitem "columns" (snd item)) ;;
      set_cell (length fs) (bind_columns columns) ;;;
      let endpoint := "/" +:+ fst item +:+ "/{id}" in
      h <- def_function get_table_data (length fs) ;;
      app_get app endpoint h ;;;
      modify_local (od_set (fst item) endpoint)
    else ret tt) ;;;
   (if od_mem "keys" (snd item) then
      keys <- call (getitem "keys" (snd item)) ;;
      set_cell (length fs) (bind_keys keys) ;;;
      h <- def_function get_collection_data (length fs) ;;
      app_get app ("/" +:+ fst item) h ;;;
      modify_local (od_set (fst item) ("/" +:+ fst item))
    else ret tt)) reg (World u j r (fs ++ [f]) o) =
  match entity_refusal app item with
  | None =>
      (Return tt, plan_endpoints (entity_plan item) reg,
       World u j (r ++ plan_routes (length fs) o (entity_plan item))
         (fs ++ [entity_frame item f]) (o + length (entity_plan item)))
  | Some (c, x) =>
      (Raise x, plan_endpoints (plan_before item c) reg,
       World u j (r ++ plan_routes (length fs) o (plan_before item c))
         (fs ++ [refused_frame item c f]) (S (o + length (plan_before item c))))
  end.
Proof.
  unfold entity_refusal, entity_plan, plan_before, refused_frame, entity_frame,
    plan_endpoints, od_mem, getitem.
  change ("/" +:+ fst item +:+ "/{id}") with (table_path (fst item)).
  change ("/" +:+ fst item) with (collection_path (fst item)).
  destruct (od_get "columns" (snd item)) as [columns|];
    destruct (od_get "keys" (snd item)) as [keys|];
    unfold bind, call, set_cell, def_function, app_get, modify_world, modify_local,
      ret, raise; simpl;
    try destruct (route_error app (table_path (fst item)) get_table_data);
    simpl; rewrite ?alter_last; simpl;
    try destruct (route_error app (collection_path (fst item)) get_collection_data);
    simpl; rewrite ?alter_last, ?app_nil_r, <- ?app_assoc, ?Nat.add_0_r; simpl;
    repeat f_equal; lia.
Qed.

Lemma generate_body_run (app : FastAPI) (d : structure) (reg : registry)
    (u : list ui_event) (j : option string) (r : list (string * handler))
    (fs : list frame) (f : frame) (o : nat) :
  generate_body app (length fs) d reg (World u j r (fs ++ [f]) o) =
  match first_refusal app d with
  | None =>
      (Return tt, plan_endpoints (plan d) reg,
       World u j (r ++ plan_routes (length fs) o (plan d))
         (fs ++ [fold_left (fun acc item => entity_frame item acc) d f])
         (o + length (plan d)))
  | Some (pre, item, c, x) =>
      (Raise x, plan_endpoints (plan pre ++ plan_before item c) reg,
       World u j (r ++ plan_routes (length fs) o (plan pre ++ plan_before item c))
         (fs ++ [refused_frame item c
                   (fold_left (fun acc item => entity_frame item acc) pre f)])
         (S (o + length (plan pre ++ plan_before item c))))
  end.
Proof.
  unfold generate_body.
  revert reg r f o. induction d as [|item d IH]; intros reg r f o;
    cbn [for_each first_refusal fold_left].
  - unfold ret, plan. simpl. rewrite app_nil_r, Nat.add_0_r. reflexivity.
  - unfold bind at 1. rewrite generate_item.
    destruct (entity_refusal app item) as [[c x]|]; [reflexivity|].
    rewrite IH. destruct (first_refusal app d) as [[[[pre it] c] x]|]; cbv iota beta.
    + rewrite plan_cons, <- ?app_assoc, ?plan_endpoints_app, ?plan_routes_app,
        ?length_app, <- ?app_assoc.
      f_equal. f_equal; try reflexivity; lia.
    + rewrite plan_cons, ?plan_endpoints_app, ?plan_routes_app, ?length_app,
        <- ?app_assoc. f_equal. f_equal; try reflexivity; lia.
Qed.

(** What a call of the synthesizer does to the registry and the world: the
    loop runs to its end, or to the first registration the application
    refuses. *)
Lemma generate_fastapi_api_run (app : FastAPI) (kind : string) (d : structure)
    (L : Type) (l : L) (w : world) :
  generate_fastapi_api app kind d l w =
  match first_refusal app d with
  | None =>
      (Return (plan_endpoints (plan d) []), l,
       World (ui w) (json_file w)
         (routes w ++ plan_routes (length (frames w)) (functions w) (plan d))
         (frames w ++ [fold_left (fun acc item => entity_frame item acc) d
                         (Frame None None None)])
         (functions w + length (plan d)))
  | Some (pre, item, c, x) =>
      (Return (plan_endpoints (plan pre ++ plan_before item c) []), l,
       World (ui w ++ [generate_error kind x]) (json_file w)
         (routes w ++
          plan_routes (length (frames w)) (functions w) (plan pre ++ plan_before item c))
         (frames w ++ [refused_frame item c
                         (fold_left (fun acc item => entity_frame item acc) pre
                            (Frame None None None))])
         (S (functions w + length (plan pre ++ plan_before item c))))
  end.
Proof.
  unfold generate_fastapi_api, with_locals, bind, new_frame, try_except, get_local.
  rewrite generate_body_run.
  destruct (first_refusal app d) as [[[[pre it] c] x]|]; reflexivity.
Qed.

(** *** The cells when the loop is over *)

Lemma entity_frame_table (item : string * metadata) (f : frame) :
  cell_table (entity_frame item f) = Some (fst item).
Proof.
  unfold entity_frame.
  destruct (od_get "columns" (snd item)); destruct (od_get "keys" (snd item)); reflexivity.
Qed.

Lemma entity_frame_columns (item : string * metadata) (f : frame) :
  cell_columns (entity_frame item f) =
    match od_get "columns" (snd item) with Some v => Some v | None => cell_columns f end.
Proof.
  unfold entity_frame.
  destruct (od_get "columns" (snd item)); destruct (od_get "keys" (snd item)); reflexivity.
Qed.

Lemma entity_frame_keys (item : string * metadata) (f : frame) :
  cell_keys (entity_frame item f) =
    match od_get "keys" (snd item) with Some v => Some v | None => cell_keys f end.
Proof.
  unfold entity_frame.
  destruct (od_get "columns" (snd item)); destruct (od_get "keys" (snd item)); reflexivity.
Qed.

Lemma final_frame_table (d : structure) (last : string * metadata) (f : frame) :
  cell_table (fold_left (fun acc item => entity_frame item acc) (d ++ [last]) f) =
    Some (fst last).
Proof. rewrite fold_left_app. simpl. apply entity_frame_table. Qed.

Lemma final_frame_columns (d : structure) (f : frame) :
  cell_columns (fold_left (fun acc item => entity_frame item acc) d f) =
    fold_left
      (fun acc item => match od_get "columns" (snd item) with Some v => Some v | None => acc end)
      d (cell_columns f).
Proof.
  revert f. induction d as [|item d IH]; intros f; simpl; [reflexivity|].
  rewrite IH, entity_frame_columns. reflexivity.
Qed.

Lemma final_frame_keys (d : structure) (f : frame) :
  cell_keys (fold_left (fun acc item => entity_frame item acc) d f) =
    fold_left
      (fun acc item => match od_get "keys" (snd item) with Some v => Some v | None => acc end)
      d (cell_keys f).
Proof.
  revert f. induction d as [|item d IH]; intros f; simpl; [reflexivity|].
  rewrite IH, entity_frame_keys. reflexivity.
Qed.

Lemma last_binding_stays_Some (key : string) (d : structure) (v : list string) :
  is_Some (fold_left
             (fun acc (item : string * metadata) =>
                match od_get key (snd item) with Some v' => Some v' | None => acc end)
             d (Some v)).
Proof.
  revert v. induction d as [|y d IH]; intros v; simpl; [eauto|].
  destruct (od_get key (snd y)); apply IH.
Qed.

Lemma last_binding_is_Some (key : string) (d : structure) (item : string * metadata) :
  item ∈ d -> od_mem key (snd item) = true -> is_Some (last_binding key d).
Proof.
  unfold last_binding. generalize (@None (list string)).
  induction d as [|x d IH]; intros acc Hin Hmem; [inversion Hin|].
  simpl. apply elem_of_cons in Hin as [->|Hin]; [|apply IH; assumption].
  unfold od_mem in Hmem.
  destruct (od_get key (snd x)) as [v|]; [|discriminate].
  exact (last_binding_stays_Some key d v).
Qed.

Lemma last_binding_snoc (key : string) (d : structure) (item : string * metadata) :
  last_binding key (d ++ [item]) =
    match od_get key (snd item) with Some v => Some v | None => last_binding key d end.
Proof. unfold last_binding. rewrite fold_left_app. reflexivity. Qed.

Lemma refused_frame_table (item : string * metadata) (c : code) (f : frame) :
  cell_table (refused_frame item c f) = Some (fst item).
Proof.
  destruct c; simpl; [|apply entity_frame_table].
  destruct (od_get "columns" (snd item)); reflexivity.
Qed.

Lemma refused_frame_columns (item : string * metadata) (c : code) (f : frame) :
  cell_columns (refused_frame item c f) =
    match od_get "columns" (snd item) with Some v => Some v | None => cell_columns f end.
Proof.
  destruct c; simpl; [|apply entity_frame_columns].
  destruct (od_get "columns" (snd item)); reflexivity.
Qed.

Lemma refused_frame_keys (item : string * metadata) (c : code) (f : frame) :
  cell_keys (refused_frame item c f) =
    match c with
    | get_table_data => cell_keys f
    | get_collection_data =>
        match od_get "keys" (snd item) with Some v => Some v | None => cell_keys f end
    end.
Proof.
  destruct c; simpl; [|apply entity_frame_keys].
  destruct (od_get "columns" (snd item)); reflexivity.
Qed.

Lemma plan_before_sub (item : string * metadata) (c : code) (ec : string * code) :
  ec ∈ plan_before item c -> ec ∈ entity_plan item.
Proof.
  unfold plan_before, entity_plan. destruct c; [intros H; inversion H|].
  intros H. apply elem_of_app. left. exact H.
Qed.

(** The state a call of the synthesizer leaves: the loop reached the entry
    [(last, m)], the last one of the structure or the one for which a
    registration was refused; the routes appended are those of the
    registrations [p] made until then, and the cells hold what the loop
    assigned last. *)
Lemma generate_fastapi_api_reached (app : FastAPI) (kind : string) (d : structure)
    (L : Type) (l : L) (w : world) :
  d <> [] ->
  exists endpoints w' p pre last m post final,
    generate_fastapi_api app kind d l w = (Return endpoints, l, w') /\
    routes w' = routes w ++ plan_routes (length (frames w)) (functions w) p /\
    frames w' = frames w ++ [final] /\
    d = pre ++ (last, m) :: post /\
    accepts app pre /\
    (forall ec, ec ∈ plan pre -> ec ∈ p) /\
    (forall ec, ec ∈ p -> ec ∈ plan (pre ++ [(last, m)])) /\
    cell_table final = Some last /\
    cell_columns final = last_binding "columns" (pre ++ [(last, m)]) /\
    (cell_keys final = last_binding "keys" (pre ++ [(last, m)]) \/
     (cell_keys final = last_binding "keys" pre /\ p = plan pre)) /\
    ((post = [] /\ accepts app d /\ ui w' = ui w /\ p = plan d) \/
     (exists c x,
        (last, c) ∈ entity_plan (last, m) /\
        route_error app (route_path c last) c = Some x /\
        ui w' = ui w ++ [generate_error kind x])).
Proof.
  intros Hne. rewrite generate_fastapi_api_run.
  destruct (first_refusal app d) as [[[[pre [last m]] c] x]|] eqn:E.
  - destruct (first_refusal_Some _ _ _ _ _ _ E) as (post & Hd & Hpre & Hit).
    destruct (entity_refusal_Some _ _ _ _ Hit) as (Herr & Hin & _).
    eexists _, _, (plan pre ++ plan_before (last, m) c), pre, last, m, post, _.
    split; [reflexivity|]. split; [reflexivity|]. split; [reflexivity|].
    split; [exact Hd|]. split; [exact Hpre|].
    split; [intros ec H; apply elem_of_app; auto|].
    split.
    { intros ec H. rewrite plan_app. apply elem_of_app in H as [H|H];
        apply elem_of_app; [auto|].
      right. unfold plan. simpl. rewrite app_nil_r. eapply plan_before_sub, H. }
    split; [apply refused_frame_table|].
    split.
    { rewrite refused_frame_columns, final_frame_columns, last_binding_snoc.
      reflexivity. }
    split.
    { rewrite refused_frame_keys, final_frame_keys. destruct c.
      - right. split; [reflexivity|]. simpl. rewrite app_nil_r. reflexivity.
      - left. rewrite last_binding_snoc. reflexivity. }
    right. exists c, x. auto.
  - destruct (exists_last Hne) as (pre & [last m] & Hd).
    eexists _, _, (plan d), pre, last, m, [], _.
    apply first_refusal_None in E.
    split; [reflexivity|]. split; [reflexivity|]. split; [reflexivity|].
    split; [exact Hd|].
    split; [rewrite Hd in E; apply accepts_app in E as [E _]; exact E|].
    split; [intros ec H; rewrite Hd, plan_app; apply elem_of_app; auto|].
    split; [intros ec H; rewrite <- Hd; exact H|].
    split; [rewrite Hd; apply (final_frame_table pre (last, m))|].
    split; [rewrite final_frame_columns, Hd; reflexivity|].
    split; [left; rewrite final_frame_keys, Hd; reflexivity|].
    left. auto.
Qed.

Lemma call_get_table_data_final (w : world) (fs : list frame) (final : frame)
    (table : string) (cols : list string) (id : string) :
  frames w = fs ++ [final] ->
  cell_table final = Some table -> cell_columns final = Some cols ->
  call_get_table_data w (length fs) id =
    Return (TableData table cols (select_by_id table id)).
Proof.
  intros Hf Ht Hc. unfold call_get_table_data.
  rewrite Hf, lookup_last, Ht, Hc. reflexivity.
Qed.

Lemma call_get_collection_data_final (w : world) (fs : list frame) (final : frame)
    (table : string) (keys : list string) :
  frames w = fs ++ [final] ->
  cell_table final = Some table -> cell_keys final = Some keys ->
  call_get_collection_data w (length fs) = Return (CollectionData table keys).
Proof.
  intros Hf Ht Hk. unfold call_get_collection_data.
  rewrite Hf, lookup_last, Ht, Hk. reflexivity.
Qed.

Lemma plan_last_binding (key : string) (c : code) (d : structure) (e : string) :
  (c = get_table_data /\ key = "columns") \/ (c = get_collection_data /\ key = "keys") ->
  (e, c) ∈ plan d -> is_Some (last_binding key d).
Proof.
  intros Hc Hin. apply elem_of_plan in Hin as (m & Hin & Hcase).
  apply (last_binding_is_Some key d (e, m) Hin). simpl.
  destruct Hc as [[-> ->]|[-> ->]]; destruct Hcase as [[Hc Hm]|[Hc Hm]];
    try discriminate Hc; exact Hm.
Qed.

(** C1 (as amended).  A call of [generate_fastapi_api] on a structure that
    is not empty reaches an entry [(last, m)]: the last entry when the
    application accepts every path, else the entry for which it refused
    one; the loop stops there and the error is shown.  Every handler the
    call registered reads the loop's variables as the loop left them: a
    table handler, whatever its path, answers with the name [last], with
    the column list of the last entry up to [last] that has one, and with
    the query built from [last]; a collection handler answers with [last]
    and a key list the loop assigned.  Every entry with columns before
    [last] has a table handler at its own path, and so has [last] when
    nothing was refused: the handler of every entity but the one reached
    last answers for another entity than the one in its path. *)
Theorem handlers_share_loop_variables (app : FastAPI) (kind : string) (d : structure)
    (L : Type) (l : L) (w : world) :
  d <> [] ->
  exists endpoints w' new pre last m post,
    generate_fastapi_api app kind d l w = (Return endpoints, l, w') /\
    routes w' = routes w ++ new /\
    d = pre ++ (last, m) :: post /\
    accepts app pre /\
    ((post = [] /\ accepts app d /\ ui w' = ui w) \/
     (exists c x,
        (last, c) ∈ entity_plan (last, m) /\
        route_error app (route_path c last) c = Some x /\
        ui w' = ui w ++ [generate_error kind x])) /\
    (forall path h id,
       (path, h) ∈ new ->
       match h_code h with
       | get_table_data =>
           exists cols,
             last_binding "columns" (pre ++ [(last, m)]) = Some cols /\
             call_handler w' h id = Return (TableData last cols (select_by_id last id))
       | get_collection_data =>
           exists keys,
             (last_binding "keys" (pre ++ [(last, m)]) = Some keys \/
              last_binding "keys" pre = Some keys) /\
             call_handler w' h id = Return (CollectionData last keys)
       end) /\
    (forall e me,
       (e, me) ∈ pre -> od_mem "columns" me = true ->
       exists h, (table_path e, h) ∈ new /\ h_code h = get_table_data) /\
    (ui w' = ui w -> od_mem "columns" m = true ->
     exists h, (table_path last, h) ∈ new /\ h_code h = get_table_data).
Proof.
  intros Hne.
  destruct (generate_fastapi_api_reached app kind d L l w Hne)
    as (endpoints & w' & p & pre & last & m & post & final & Hrun & Hroutes & Hframes &
        Hd & Hpre & Hsub & Hsup & Htable & Hcols & Hkeys & Hstop).
  exists endpoints, w', (plan_routes (length (frames w)) (functions w) p),
    pre, last, m, post.
  split; [exact Hrun|]. split; [exact Hroutes|]. split; [exact Hd|].
  split; [exact Hpre|].
  split; [destruct Hstop as [(H1 & H2 & H3 & _)|H]; [left | right]; auto|].
  split; [|split].
  - intros path h id Hin.
    apply elem_of_plan_routes in Hin as (e & Hin & _ & Hfid & _).
    unfold call_handler. rewrite Hfid.
    destruct (h_code h) eqn:Hcode.
    + destruct (plan_last_binding "columns" get_table_data (pre ++ [(last, m)]) e)
        as [cols Hc]; [auto | apply Hsup, Hin |].
      exists cols. split; [exact Hc|].
      apply (call_get_table_data_final w' (frames w) final); congruence.
    + destruct Hkeys as [Hk|[Hk Hp]].
      * destruct (plan_last_binding "keys" get_collection_data (pre ++ [(last, m)]) e)
          as [keys Hc]; [auto | apply Hsup, Hin |].
        exists keys. split; [left; exact Hc|].
        apply (call_get_collection_data_final w' (frames w) final); congruence.
      * destruct (plan_last_binding "keys" get_collection_data pre e)
          as [keys Hc]; [auto | rewrite <- Hp; exact Hin |].
        exists keys. split; [right; exact Hc|].
        apply (call_get_collection_data_final w' (frames w) final); congruence.
  - intros e me Hin Hm.
    destruct (plan_routes_elem_of (length (frames w)) (functions w) p e get_table_data)
      as (h & Hh & Hc & _).
    + apply Hsub, elem_of_plan. exists me. auto.
    + exists h. auto.
  - intros Hui Hm.
    destruct Hstop as [(_ & _ & _ & ->)|(c & x & _ & _ & Hui')].
    + destruct (plan_routes_elem_of (length (frames w)) (functions w) (plan d) last
                  get_table_data) as (h & Hh & Hc & _).
      * apply elem_of_plan. exists m. split; [|auto].
        rewrite Hd. apply elem_of_app. right. left.
      * exists h. auto.
    + exfalso. rewrite Hui in Hui'.
      apply (f_equal (@length ui_event)) in Hui'. rewrite length_app in Hui'.
      simpl in Hui'. lia.
Qed.

(** On [braces_structure] the application refuses the path of the second
    table, "/{id}/{id}": the loop stops there, and the handler at the path
    of "t" answers for "{id}". *)
Lemma handlers_share_loop_variables_witness :
  braces_structure <> [] /\
  exists endpoints w' new pre last m post,
    generate_fastapi_api sample_app "PostgreSQL" braces_structure tt world0 =
      (Return endpoints, tt, w') /\
    routes w' = routes world0 ++ new /\
    braces_structure = pre ++ (last, m) :: post /\
    accepts sample_app pre /\
    ((post = [] /\ accepts sample_app braces_structure /\ ui w' = ui world0) \/
     (exists c x,
        (last, c) ∈ entity_plan (last, m) /\
        route_error sample_app (route_path c last) c = Some x /\
        ui w' = ui world0 ++ [generate_error "PostgreSQL" x])) /\
    (forall path h id,
       (path, h) ∈ new ->
       match h_code h with
       | get_table_data =>
           exists cols,
             last_binding "columns" (pre ++ [(last, m)]) = Some cols /\
             call_handler w' h id = Return (TableData last cols (select_by_id last id))
       | get_collection_data =>
           exists keys,
             (last_binding "keys" (pre ++ [(last, m)]) = Some keys \/
              last_binding "keys" pre = Some keys) /\
             call_handler w' h id = Return (CollectionData last keys)
       end) /\
    (forall e me,
       (e, me) ∈ pre -> od_mem "columns" me = true ->
       exists h, (table_path e, h) ∈ new /\ h_code h = get_table_data) /\
    (ui w' = ui world0 -> od_mem "columns" m = true ->
     exists h, (table_path last, h) ∈ new /\ h_code h = get_table_data).
Proof.
  assert (Hne : braces_structure <> []) by discriminate.
  split; [exact Hne|].
  exact (handlers_share_loop_variables sample_app "PostgreSQL" braces_structure
           unit tt world0 Hne).
Defined.

(** The run on [braces_structure] in full: one route, one registry entry
    and the error; the cells hold the second table. *)
Example braces_structure_run :
  generate_fastapi_api sample_app "PostgreSQL" braces_structure tt world0 =
    (Return [("t", "/t/{id}")], tt,
     World [generate_error "PostgreSQL" (duplicated_param "/{id}/{id}")] None
       [("/t/{id}", Handler get_table_data 0 0)]
       [Frame (Some "{id}") (Some ["y"]) None] 2).
Proof. reflexivity. Qed.

Example braces_structure_request :
  let w := snd (generate_fastapi_api sample_app "PostgreSQL" braces_structure tt world0) in
  call_handler w (Handler get_table_data 0 0) "1" =
    Return (TableData "{id}" ["y"] "SELECT * FROM {id} WHERE id = 1").
Proof. reflexivity. Qed.

(** C1 as stated fails on [mixed_structure], which has two entities with
    columns, "a" and "b", and then the collection "c"; the application
    accepts its three paths.  The handler at "/a/{id}" answers with the
    table name "c" and the columns of "b"; the entity iterated last, "c",
    has no column list at all, so the column list returned is not that of
    the entity iterated last. *)
Lemma last_columns_counterexample :
  let run := generate_fastapi_api sample_app "PostgreSQL" mixed_structure tt world0 in
  let w' := snd run in
  count_with "columns" mixed_structure = 2 /\
  last mixed_structure = Some ("c", [("keys", ["k"])]) /\
  ui w' = [] /\
  routes w' !! 0 = Some (table_path "a", Handler get_table_data 0 0) /\
  call_handler w' (Handler get_table_data 0 0) "1" =
    Return (TableData "c" ["y"] "SELECT * FROM c WHERE id = 1") /\
  od_get "columns" [("keys", ["k"])] = None /\
  ~ (exists cols,
       od_get "columns" [("keys", ["k"])] = Some cols /\
       call_handler w' (Handler get_table_data 0 0) "1" =
         Return (TableData "c" cols "SELECT * FROM c WHERE id = 1")).
Proof.
  repeat split. intros (cols & H & _). discriminate H.
Qed.
(** *** Paths *)

Lemma string_app_length (s t : string) :
  String.length (s +:+ t) = String.length s + String.length t.
Proof.
  induction s as [|c s IH]; [reflexivity|].
  change (String c s +:+ t) with (String c (s +:+ t)). simpl. rewrite IH. reflexivity.
Qed.

Lemma string_app_inv_tail (s1 s2 t : string) : s1 +:+ t = s2 +:+ t -> s1 = s2.
Proof.
  revert s2. induction s1 as [|c1 s1 IH]; intros [|c2 s2] H.
  - reflexivity.
  - apply (f_equal String.length) in H. rewrite !string_app_length in H.
    simpl in H. lia.
  - apply (f_equal String.length) in H. rewrite !string_app_length in H.
    simpl in H. lia.
  - change (String c1 (s1 +:+ t) = String c2 (s2 +:+ t)) in H.
    injection H as -> H. f_equal. apply IH. exact H.
Qed.

Lemma table_path_inj (e1 e2 : string) : table_path e1 = table_path e2 -> e1 = e2.
Proof.
  unfold table_path. intros H. apply (inj (String.app "/")) in H.
  exact (string_app_inv_tail _ _ _ H).
Qed.

Lemma collection_path_inj (e1 e2 : string) :
  collection_path e1 = collection_path e2 -> e1 = e2.
Proof. unfold collection_path. intros H. exact (inj (String.app "/") _ _ H). Qed.




(** *** The routes and the registry *)

Lemma length_plan (d : structure) :
  length (plan d) = count_with "columns" d + count_with "keys" d.
Proof.
  unfold count_with. induction d as [|item d IH]; [reflexivity|].
  rewrite plan_cons, length_app, IH. unfold entity_plan. simpl.
  destruct (od_mem "columns" (snd item)); destruct (od_mem "keys" (snd item)); simpl; lia.
Qed.



Lemma entity_endpoints_get (item : string * metadata) (r : registry) (e : string) :
  od_get e (plan_endpoints (entity_plan item) r) =
    if String.eqb e (fst item) then
      if od_mem "keys" (snd item) then Some (collection_path (fst item))
      else if od_mem "columns" (snd item) then Some (table_path (fst item))
      else od_get e r
    else od_get e r.
Proof.
  unfold plan_endpoints, entity_plan.
  destruct (od_mem "columns" (snd item)); destruct (od_mem "keys" (snd item)); simpl;
    rewrite ?od_get_od_set; destruct (String.eqb e (fst item)); reflexivity.
Qed.

Lemma plan_endpoints_get_other (p : list (string * code)) (r : registry) (e : string) :
  (forall c, (e, c) ∉ p) -> od_get e (plan_endpoints p r) = od_get e r.
Proof.
  unfold plan_endpoints. revert r. induction p as [|[e' c] p IH]; intros r He;
    [reflexivity|].
  simpl. rewrite IH.
  - apply od_get_od_set_ne. intros ->. apply (He c). left.
  - intros c' Hin. apply (He c'). right. exact Hin.
Qed.

Lemma endpoints_get_other (d : structure) (r : registry) (e : string) :
  e ∉ od_keys d -> od_get e (plan_endpoints (plan d) r) = od_get e r.
Proof.
  intros He. apply plan_endpoints_get_other. intros c Hin.
  apply elem_of_plan in Hin as (m & Hin & _). apply He.
  unfold od_keys. apply list_elem_of_In, in_map_iff. exists (e, m).
  split; [reflexivity | apply list_elem_of_In; assumption].
Qed.

Lemma endpoints_get (d : structure) (r : registry) (e : string) (m : metadata) :
  NoDup (od_keys d) -> (e, m) ∈ d ->
  od_get e (plan_endpoints (plan d) r) =
    if od_mem "keys" m then Some (collection_path e)
    else if od_mem "columns" m then Some (table_path e)
    else od_get e r.
Proof.
  revert r. induction d as [|item d IH]; intros r Hnd Hin; [inversion Hin|].
  simpl in Hnd. apply NoDup_cons in Hnd as [Hfresh Hnd].
  rewrite plan_cons, plan_endpoints_app.
  apply elem_of_cons in Hin as [<-|Hin].
  - simpl in Hfresh. rewrite endpoints_get_other by assumption.
    rewrite entity_endpoints_get. simpl. rewrite String.eqb_refl. reflexivity.
  - rewrite IH by assumption. rewrite entity_endpoints_get.
    destruct (String.eqb_spec e (fst item)) as [->|_]; [|reflexivity].
    exfalso. apply Hfresh. unfold od_keys. apply list_elem_of_In, in_map_iff.
    exists (fst item, m). split; [reflexivity | apply list_elem_of_In; assumption].
Qed.




(** The registrations a call of the synthesizer makes: all those of the
    structure, or those before the first one the application refuses. *)
Lemma generate_fastapi_api_registered (app : FastAPI) (kind : string) (d : structure)
    (L : Type) (l : L) (w : world) :
  exists w' p,
    generate_fastapi_api app kind d l w = (Return (plan_endpoints p []), l, w') /\
    routes w' = routes w ++ plan_routes (length (frames w)) (functions w) p /\
    json_file w' = json_file w /\
    ((p = plan d /\ accepts app d /\ ui w' = ui w) \/
     (exists e c x rest,
        plan d = p ++ (e, c) :: rest /\
        route_error app (route_path c e) c = Some x /\
        ui w' = ui w ++ [generate_error kind x])).
Proof.
  rewrite generate_fastapi_api_run.
  destruct (first_refusal app d) as [[[[pre [last m]] c] x]|] eqn:E.
  - destruct (first_refusal_Some _ _ _ _ _ _ E) as (post & Hd & Hpre & Hit).
    destruct (entity_refusal_Some _ _ _ _ Hit) as (Herr & _ & rest & Hrest).
    eexists _, _. split; [reflexivity|]. split; [reflexivity|].
    split; [reflexivity|].
    right. exists last, c, x, (rest ++ plan post).
    split; [|split; [exact Herr | reflexivity]].
    rewrite Hd, plan_app, plan_cons, Hrest, <- !app_assoc. reflexivity.
  - apply first_refusal_None in E.
    eexists _, _. split; [reflexivity|]. split; [reflexivity|].
    split; [reflexivity|]. left. auto.
Qed.

Lemma accepts_no_error (app : FastAPI) (d : structure) (p rest : list (string * code))
    (e : string) (c : code) (x : exn) :
  accepts app d -> plan d = p ++ (e, c) :: rest ->
  route_error app (route_path c e) c = Some x -> False.
Proof.
  intros Hacc Hplan Herr.
  assert (Hin : (e, c) ∈ plan d).
  { rewrite Hplan. apply elem_of_app. right. left. }
  apply elem_of_plan in Hin as (m & Hin & Hcase).
  destruct (Hacc e m Hin) as [Ht Hc].
  destruct Hcase as [(-> & Hm)|(-> & Hm)]; simpl in Herr; [rewrite Ht in Herr | rewrite Hc in Herr];
    try assumption; discriminate.
Qed.




(** *** An entity with both lists *)

Lemma od_mem_od_set {V} (k : string) (v : V) (d : odict V) :
  od_mem k (od_set k v d) = true.
Proof. unfold od_mem. rewrite od_get_od_set_eq. reflexivity. Qed.

Lemma length_plan_endpoints_le (p : list (string * code)) (r : registry) :
  length (plan_endpoints p r) <= length r + length p.
Proof.
  unfold plan_endpoints. revert r. induction p as [|ec p IH]; intros r; simpl; [lia|].
  specialize (IH (od_set (fst ec) (route_path (snd ec) (fst ec)) r)).
  rewrite length_od_set in IH. destruct (od_mem (fst ec) r); lia.
Qed.

Lemma length_entity_endpoints_both (item : string * metadata) (r : registry) :
  od_mem "columns" (snd item) = true -> od_mem "keys" (snd item) = true ->
  length (plan_endpoints (entity_plan item) r) < length r + length (entity_plan item).
Proof.
  intros Hc Hk. unfold plan_endpoints, entity_plan. rewrite Hc, Hk. simpl.
  rewrite !length_od_set, od_mem_od_set. destruct (od_mem (fst item) r); lia.
Qed.

Lemma length_endpoints_lt (d : structure) (r : registry) (item : string * metadata) :
  item ∈ d ->
  od_mem "columns" (snd item) = true -> od_mem "keys" (snd item) = true ->
  length (plan_endpoints (plan d) r) < length r + length (plan d).
Proof.
  intros Hin Hc Hk. revert r. induction d as [|x d IH]; intros r; [inversion Hin|].
  rewrite plan_cons, plan_endpoints_app, length_app.
  apply elem_of_cons in Hin as [<-|Hin].
  - pose proof (length_plan_endpoints_le (plan d) (plan_endpoints (entity_plan item) r)).
    pose proof (length_entity_endpoints_both item r Hc Hk). lia.
  - specialize (IH Hin (plan_endpoints (entity_plan x) r)).
    pose proof (length_plan_endpoints_le (entity_plan x) r). lia.
Qed.

(** The registrations made when the application accepts the paths of the
    first entries [a] of a structure: those of [a], then some of the
    others. *)
Lemma generate_fastapi_api_accepted (app : FastAPI) (kind : string) (a b : structure)
    (L : Type) (l : L) (w : world) :
  accepts app a ->
  exists w' q,
    generate_fastapi_api app kind (a ++ b) l w =
      (Return (plan_endpoints (plan a ++ q) []), l, w') /\
    routes w' =
      routes w ++ plan_routes (length (frames w)) (functions w) (plan a ++ q) /\
    (forall ec, ec ∈ q -> ec ∈ plan b).
Proof.
  intros Ha. rewrite generate_fastapi_api_run, first_refusal_app by assumption.
  destruct (first_refusal app b) as [[[[pre it] c] x]|] eqn:E.
  - destruct (first_refusal_Some _ _ _ _ _ _ E) as (post & Hb & _ & _).
    exists (World (ui w ++ [generate_error kind x]) (json_file w)
              (routes w ++ plan_routes (length (frames w)) (functions w)
                 (plan (a ++ pre) ++ plan_before it c))
              (frames w ++ [refused_frame it c
                              (fold_left (fun acc item => entity_frame item acc)
                                 (a ++ pre) (Frame None None None))])
              (S (functions w + length (plan (a ++ pre) ++ plan_before it c)))),
      (plan pre ++ plan_before it c).
    rewrite plan_app, <- !app_assoc.
    split; [reflexivity|]. split; [reflexivity|].
    intros ec Hin. rewrite Hb, plan_app, plan_cons.
    apply elem_of_app in Hin as [Hin|Hin]; apply elem_of_app; [auto|].
    right. apply elem_of_app. left. eapply plan_before_sub, Hin.
  - eexists _, (plan b). rewrite plan_app.
    split; [reflexivity|]. split; [reflexivity|]. auto.
Qed.

(** C10 (as amended).  When the metadata of an entity has both a "columns"
    list and a "keys" list and the application accepts the paths of the
    entries up to and including it, [generate_fastapi_api] registers both
    routes for it, at [/{entity}/{id}] and at [/{entity}], each with a
    function object of its own, but the registry returned binds the entity
    to [/{entity}] alone: the second branch overwrites the entry of the
    first.  The registry then has fewer entries than routes were
    registered. *)
Theorem both_lists_two_routes (app : FastAPI) (kind : string) (pre post : structure)
    (e : string) (m : metadata) (L : Type) (l : L) (w : world) :
  NoDup (od_keys (pre ++ (e, m) :: post)) ->
  od_mem "columns" m = true ->
  od_mem "keys" m = true ->
  accepts app (pre ++ [(e, m)]) ->
  exists endpoints w' new h1 h2,
    generate_fastapi_api app kind (pre ++ (e, m) :: post) l w = (Return endpoints, l, w') /\
    routes w' = routes w ++ new /\
    (table_path e, h1) ∈ new /\ h_code h1 = get_table_data /\
    (collection_path e, h2) ∈ new /\ h_code h2 = get_collection_data /\
    od_get e endpoints = Some (collection_path e) /\
    length endpoints < length new.
Proof.
  intros Hnd Hc Hk Hacc.
  replace (pre ++ (e, m) :: post) with ((pre ++ [(e, m)]) ++ post) in *
    by (rewrite <- app_assoc; reflexivity).
  destruct (generate_fastapi_api_accepted app kind (pre ++ [(e, m)]) post L l w Hacc)
    as (w' & q & Hrun & Hroutes & Hq).
  assert (Hin : (e, m) ∈ pre ++ [(e, m)]) by (apply elem_of_app; right; left).
  destruct (plan_routes_elem_of (length (frames w)) (functions w)
              (plan (pre ++ [(e, m)]) ++ q) e get_table_data) as (h1 & Hh1 & Hc1 & _).
  { apply elem_of_app. left. apply elem_of_plan. exists m. auto. }
  destruct (plan_routes_elem_of (length (frames w)) (functions w)
              (plan (pre ++ [(e, m)]) ++ q) e get_collection_data) as (h2 & Hh2 & Hc2 & _).
  { apply elem_of_app. left. apply elem_of_plan. exists m. auto. }
  eexists _, w', _, h1, h2.
  split; [exact Hrun|]. split; [exact Hroutes|].
  split; [exact Hh1|]. split; [exact Hc1|]. split; [exact Hh2|]. split; [exact Hc2|].
  unfold od_keys in Hnd. rewrite map_app in Hnd.
  apply NoDup_app in Hnd as (Hnd1 & Hdisj & _).
  split.
  - rewrite plan_endpoints_app, plan_endpoints_get_other.
    + rewrite (endpoints_get _ [] e m) by assumption. rewrite Hk. reflexivity.
    + intros c Hc'. apply Hq, elem_of_plan in Hc' as (m' & Hin' & _).
      apply (Hdisj e).
      * apply list_elem_of_In, in_map_iff. exists (e, m).
        split; [reflexivity | apply list_elem_of_In; assumption].
      * apply list_elem_of_In, in_map_iff. exists (e, m').
        split; [reflexivity | apply list_elem_of_In; assumption].
  - rewrite length_plan_routes, plan_endpoints_app, length_app.
    pose proof (length_plan_endpoints_le q (plan_endpoints (plan (pre ++ [(e, m)])) [])).
    pose proof (length_endpoints_lt (pre ++ [(e, m)]) [] (e, m) Hin Hc Hk).
    simpl in *. lia.
Qed.

(** The two routes and the one registry entry of [hybrid_structure]. *)
Lemma both_lists_two_routes_witness :
  NoDup (od_keys hybrid_structure) /\
  accepts sample_app hybrid_structure /\
  exists endpoints w' new h1 h2,
    generate_fastapi_api sample_app "None" hybrid_structure tt world0 =
      (Return endpoints, tt, w') /\
    routes w' = routes world0 ++ new /\
    (table_path "users", h1) ∈ new /\ h_code h1 = get_table_data /\
    (collection_path "users", h2) ∈ new /\ h_code h2 = get_collection_data /\
    od_get "users" endpoints = Some (collection_path "users") /\
    length endpoints < length new.
Proof.
  assert (Hnd : NoDup (od_keys hybrid_structure)).
  { repeat constructor. intros H. inversion H. }
  assert (Hacc : accepts sample_app hybrid_structure).
  { apply first_refusal_None. reflexivity. }
  split; [exact Hnd|]. split; [exact Hacc|].
  exact (both_lists_two_routes sample_app "None" [] [] "users"
           [("columns", ["id"; "name"]); ("keys", ["_id"])] unit tt world0
           Hnd eq_refl eq_refl Hacc).
Defined.

(** C10 as stated fails on [braces_hybrid], whose one entity, named
    "{id}", has both lists: the application refuses the path "/{id}/{id}"
    of its table handler, the loop stops there with the error shown, and
    neither route is registered; the registry returned is empty. *)
Lemma refused_entity_counterexample :
  let run := generate_fastapi_api sample_app "None" braces_hybrid tt world0 in
  braces_hybrid = [("{id}", [("columns", ["y"]); ("keys", ["k"])])] /\
  od_mem "columns" [("columns", ["y"]); ("keys", ["k"])] = true /\
  od_mem "keys" [("columns", ["y"]); ("keys", ["k"])] = true /\
  route_error sample_app (table_path "{id}") get_table_data =
    Some (duplicated_param "/{id}/{id}") /\
  fst (fst run) = Return [] /\
  routes (snd run) = [] /\
  ui (snd run) = [generate_error "None" (duplicated_param "/{id}/{id}")] /\
  ~ (exists h1 h2,
       (table_path "{id}", h1) ∈ routes (snd run) /\
       (collection_path "{id}", h2) ∈ routes (snd run)).
Proof.
  repeat split. intros (h1 & h2 & H & _). inversion H.
Qed.
(** ** The "Analyze DB Details" action *)

(** When [connect_to_db] returns [None] it has shown one error and changed
    nothing else. *)
Lemma connect_to_db_None lib (L : Type) (l : L) (w : world)
    (dbc h : string) (p : Z) (dn u pw f ak sk r : string) :
  fst (fst (connect_to_db lib dbc h p dn u pw f ak sk r l w)) = Return None ->
  exists e,
    connect_to_db lib dbc h p dn u pw f ak sk r l w =
      (Return None, l, log_ui (connect_error dbc e) w).
Proof.
  destruct (connect_to_db_cases lib L l w dbc h p dn u pw f ak sk r)
    as (res & w' & Hrun & Hcase).
  rewrite Hrun. simpl. intros Hres. injection Hres as ->.
  destruct (fst (fst (connect_branches lib dbc h p dn u pw f ak sk r tt w)))
    as [[c|]|e]; destruct Hcase as [Hres ->]; [discriminate | eauto | eauto].
Qed.

(** C9 (as amended).  When the button is pressed and [connect_to_db]
    returns [None], the action ends after showing the connection error and
    nothing else: [analyze_db_structure] is not called and the name
    [db_structure] keeps the binding it had (none in a fresh run: no
    mapping, not even an empty one, is produced), neither the structure nor
    the success message is shown, the JSON file is not written, and no
    route is registered. *)
Theorem failed_connection_stops_action lib fs (inp : inputs) (g : globals) (w : world) :
  button inp = true ->
  fst (fst (connect_to_db lib (db_choice inp) (host inp) (port inp) (db_name inp)
              (username inp) (password inp) (db_file inp)
              (aws_access_key inp) (aws_secret_key inp) (region inp) g w)) = Return None ->
  exists e,
    analyze_action lib fs inp g w =
      (Return tt, Globals (Some None) (g_db_structure g),
       log_ui (connect_error (db_choice inp) e) w) /\
    let w' := log_ui (connect_error (db_choice inp) e) w in
    ui w' = ui w ++ [connect_error (db_choice inp) e] /\
    json_file w' = json_file w /\
    routes w' = routes w /\
    frames w' = frames w.
Proof.
  intros Hb Hnone. apply connect_to_db_None in Hnone as [e He].
  exists e. split; [|repeat split].
  unfold analyze_action. rewrite Hb. unfold bind at 1. rewrite He. reflexivity.
Qed.

(** The action with a host that does not resolve. *)
Lemma failed_connection_stops_action_witness :
  exists e,
    analyze_action offline disk_ok bad_host_inputs globals0 world0 =
      (Return tt, Globals (Some None) None, log_ui (connect_error "PostgreSQL" e) world0).
Proof.
  destruct (failed_connection_stops_action offline disk_ok bad_host_inputs globals0 world0
              eq_refl eq_refl) as (e & Hrun & _).
  exists e. exact Hrun.
Defined.

(** C9 as stated fails: with a host that does not resolve the action ends
    with [db_structure] unbound; no mapping was produced, so in particular
    not the empty mapping. *)
Lemma empty_mapping_counterexample :
  let run := analyze_action offline disk_ok bad_host_inputs globals0 world0 in
  fst (fst (connect_to_db offline "PostgreSQL" "db.invalid" 5432 "shop" "alice" "secret"
              "" "" "" "" globals0 world0)) = Return None /\
  g_db_structure (snd (fst run)) = None /\
  g_db_structure (snd (fst run)) <> Some [].
Proof. repeat split. discriminate. Qed.

(** ** Writing the structure and reading it back *)

Lemma string_app_assoc (a b c : string) : (a +:+ b) +:+ c = a +:+ (b +:+ c).
Proof.
  induction a as [|x a IH]; [reflexivity|].
  change (String x ((a +:+ b) +:+ c) = String x (a +:+ (b +:+ c))). rewrite IH. reflexivity.
Qed.

Lemma string_app_cons (x : ascii) (a b : string) : String x a +:+ b = String x (a +:+ b).
Proof. reflexivity. Qed.

Lemma string_app_nil_l (a : string) : "" +:+ a = a.
Proof. reflexivity. Qed.

(** The decoder undoes the escape of one character. *)
Lemma scanstring_escape_char (c : ascii) (t : string) :
  scanstring (escape_char c +:+ t) =
    match scanstring t with
    | Some (str, rest) => Some (String c str, rest)
    | None => None
    end.
Proof.
  destruct c as [b0 b1 b2 b3 b4 b5 b6 b7].
  destruct b0, b1, b2, b3, b4, b5, b6, b7; reflexivity.
Qed.

Lemma scanstring_escape_string (s rest : string) :
  scanstring (escape_string s +:+ String quote rest) = Some (s, rest).
Proof.
  induction s as [|c s IH].
  - reflexivity.
  - change (escape_string (String c s)) with (escape_char c +:+ escape_string s).
    rewrite string_app_assoc, scanstring_escape_char, IH. reflexivity.
Qed.

Lemma list_items_fix (indent : option nat) (level : nat) (l : list pyobj) :
  (fix items (l : list pyobj) : string :=
     match l with
     | [] => ""
     | y :: l' =>
         item_separator indent (S level) +:+ json_encode indent (S level) y +:+ items l'
     end) l = list_items indent level l.
Proof. induction l as [|y l IH]; simpl; [reflexivity | rewrite IH; reflexivity]. Qed.

Lemma dict_items_fix (indent : option nat) (level : nat) (d : list (string * pyobj)) :
  (fix items (d : list (string * pyobj)) : string :=
     match d with
     | [] => ""
     | (k', v') :: d' =>
         item_separator indent (S level) +:+ encode_basestring_ascii k' +:+
         key_separator +:+ json_encode indent (S level) v' +:+ items d'
     end) d = dict_items indent level d.
Proof.
  induction d as [|[k v] d IH]; simpl; [reflexivity | rewrite IH; reflexivity].
Qed.

Lemma json_encode_PList (indent : option nat) (level : nat) (x : pyobj) (l : list pyobj) :
  json_encode indent level (PList (x :: l)) =
    "[" +:+ newline_indent indent (S level) +:+ json_encode indent (S level) x +:+
    list_items indent level l +:+ newline_indent indent level +:+ "]".
Proof. rewrite <- list_items_fix. reflexivity. Qed.

Lemma json_encode_PDict (indent : option nat) (level : nat) (k : string) (v : pyobj)
    (d : list (string * pyobj)) :
  json_encode indent level (PDict ((k, v) :: d)) =
    "{" +:+ newline_indent indent (S level) +:+ encode_basestring_ascii k +:+
    key_separator +:+ json_encode indent (S level) v +:+
    dict_items indent level d +:+ newline_indent indent level +:+ "}".
Proof. rewrite <- dict_items_fix. reflexivity. Qed.

Lemma obj_size_PList (l : list pyobj) : obj_size (PList l) = S (list_size l).
Proof. reflexivity. Qed.

Lemma obj_size_PDict (d : list (string * pyobj)) : obj_size (PDict d) = S (dict_size d).
Proof. reflexivity. Qed.

Lemma obj_wf_PList (l : list pyobj) : obj_wf (PList l) <-> Forall obj_wf l.
Proof.
  simpl. induction l as [|x l IH]; simpl.
  - split; [constructor | trivial].
  - rewrite IH. split; [intros [? ?]; constructor; assumption |].
    intros H. inversion H; subst. auto.
Qed.

Lemma obj_wf_PDict (d : list (string * pyobj)) :
  obj_wf (PDict d) <-> NoDup (map fst d) /\ Forall (fun kv => obj_wf (snd kv)) d.
Proof.
  simpl. apply and_iff_compat_l. induction d as [|x d IH]; simpl.
  - split; [constructor | trivial].
  - rewrite IH. split; [intros [? ?]; constructor; assumption |].
    intros H. inversion H; subst. auto.
Qed.

(** An encoded value starts with a quote or an opening bracket. *)
Lemma json_encode_head (level : nat) (v : pyobj) :
  exists c t,
    json_encode None level v = String c t /\
    is_ws c = false /\ Ascii.eqb c "]" = false.
Proof.
  destruct v as [s|[|x l]|[|[k v] d]].
  - exists quote, (escape_string s +:+ String quote ""). repeat split.
  - exists "["%char, "]". repeat split.
  - rewrite json_encode_PList. eexists "["%char, _. repeat split.
  - exists "{"%char, "}". repeat split.
  - rewrite json_encode_PDict. eexists "{"%char, _. repeat split.
Qed.

Lemma skip_ws_json_encode (level : nat) (v : pyobj) (rest : string) :
  skip_ws (json_encode None level v +:+ rest) = json_encode None level v +:+ rest.
Proof.
  destruct (json_encode_head level v) as (c & t & -> & Hws & _).
  rewrite string_app_cons. simpl. rewrite Hws. reflexivity.
Qed.

(** [dict(pairs)] of pairs with distinct keys is the pairs themselves. *)
Lemma dict_of_pairs_NoDup {V} (pairs : list (string * V)) :
  NoDup (map fst pairs) -> dict_of_pairs pairs = pairs.
Proof.
  unfold dict_of_pairs.
  assert (H : forall acc : odict V,
            NoDup (map fst (acc ++ pairs)) ->
            fold_left (fun d kv => od_set (fst kv) (snd kv) d) pairs acc = acc ++ pairs).
  { induction pairs as [|[k v] pairs IH]; intros acc Hnd; simpl.
    - rewrite app_nil_r. reflexivity.
    - assert (Hset : od_set k v acc = acc ++ [(k, v)]).
      { clear IH. induction acc as [|[k0 v0] acc IHacc]; simpl; [reflexivity|].
        simpl in Hnd. apply NoDup_cons in Hnd as [Hk0 Hnd].
        destruct (String.eqb_spec k k0) as [->|_].
        - exfalso. apply Hk0. rewrite map_app. apply elem_of_app. right. left.
        - rewrite IHacc by assumption. reflexivity. }
      rewrite Hset, IH; rewrite <- app_assoc; [reflexivity | exact Hnd]. }
  intros Hnd. exact (H [] Hnd).
Qed.

Lemma json_encode_PStr (level : nat) (s rest : string) :
  json_encode None level (PStr s) +:+ rest =
    String quote (escape_string s +:+ String quote rest).
Proof.
  simpl json_encode. unfold encode_basestring_ascii.
  rewrite string_app_cons, string_app_assoc. reflexivity.
Qed.

Lemma round_trip_fuel (fuel : nat) :
  (forall v level rest,
     obj_size v <= fuel -> obj_wf v ->
     scan_once fuel (json_encode None level v +:+ rest) = Some (v, rest)) /\
  (forall x l level rest,
     list_size (x :: l) <= fuel -> Forall obj_wf (x :: l) ->
     parse_elements fuel
       (json_encode None (S level) x +:+ list_items None level l +:+ String "]" rest) =
       Some (x :: l, rest)) /\
  (forall k v d level rest,
     dict_size ((k, v) :: d) <= fuel -> Forall (fun kv => obj_wf (snd kv)) ((k, v) :: d) ->
     parse_members fuel
       (escape_string k +:+
        String quote (key_separator +:+ json_encode None (S level) v +:+
                      dict_items None level d +:+ String "}" rest)) =
       Some ((k, v) :: d, rest)).
Proof.
  induction fuel as [|n (IHv & IHl & IHd)].
  { split; [|split].
    - intros v level rest Hs. destruct v; simpl in Hs; lia.
    - intros x l level rest Hs. simpl in Hs. lia.
    - intros k v d level rest Hs. simpl in Hs. lia. }
  split; [|split].
  - intros v level rest Hs Hwf.
    destruct v as [s|[|x l]|[|[k v] d]].
    + rewrite json_encode_PStr. simpl. rewrite scanstring_escape_string. reflexivity.
    + reflexivity.
    + rewrite json_encode_PList. rewrite obj_size_PList in Hs.
      apply obj_wf_PList in Hwf.
      change (newline_indent None ?k) with "". rewrite !string_app_nil_l.
      rewrite !string_app_assoc.
      specialize (IHl x l level rest ltac:(lia) Hwf).
      destruct (json_encode_head (S level) x) as (c & t & Hc & Hws & Hbr).
      rewrite Hc in *. rewrite !string_app_cons in *. rewrite !string_app_nil_l.
      simpl. rewrite Hws, Hbr, IHl. reflexivity.
    + reflexivity.
    + rewrite json_encode_PDict. rewrite obj_size_PDict in Hs.
      apply obj_wf_PDict in Hwf as [Hnd Hwf].
      change (newline_indent None ?k) with "". rewrite !string_app_nil_l.
      unfold encode_basestring_ascii.
      rewrite !string_app_assoc, !string_app_cons, !string_app_nil_l, !string_app_assoc.
      rewrite !string_app_cons, !string_app_nil_l.
      specialize (IHd k v d level rest ltac:(lia) Hwf).
      simpl. rewrite IHd, dict_of_pairs_NoDup by assumption. reflexivity.
  - intros x l level rest Hs Hwf. simpl in Hs.
    inversion Hwf as [|? ? Hx Hl]; subst.
    simpl. rewrite IHv by (assumption || lia).
    destruct l as [|y l].
    + reflexivity.
    + simpl list_items. change (item_separator None ?k) with ", ".
      rewrite !string_app_assoc, !string_app_cons, !string_app_nil_l.
      simpl. rewrite skip_ws_json_encode.
      rewrite IHl by (assumption || (simpl in *; lia)). reflexivity.
  - intros k v d level rest Hs Hwf. simpl in Hs.
    inversion Hwf as [|? ? Hv Hd]; subst. simpl in Hv.
    simpl. rewrite scanstring_escape_string.
    unfold key_separator. rewrite !string_app_cons, !string_app_nil_l.
    simpl. rewrite skip_ws_json_encode, IHv by (assumption || lia).
    destruct d as [|[k' v'] d].
    + reflexivity.
    + simpl dict_items. change (item_separator None ?k) with ", ".
      unfold encode_basestring_ascii.
      rewrite !string_app_assoc, !string_app_cons, !string_app_nil_l, !string_app_assoc.
      rewrite !string_app_cons, !string_app_nil_l.
      simpl. rewrite IHd by (assumption || (simpl in *; lia)). reflexivity.
Qed.

(** The fuel [json_loads] takes, the length of the text, is enough. *)
Lemma obj_size_length (n : nat) :
  (forall v level,
     obj_size v <= n -> obj_size v < String.length (json_encode None level v)) /\
  (forall l level,
     list_size l <= n -> list_size l <= String.length (list_items None level l)) /\
  (forall d level,
     dict_size d <= n -> dict_size d <= String.length (dict_items None level d)).
Proof.
  induction n as [|n (IHv & IHl & IHd)].
  { split; [|split].
    - intros v level Hs. destruct v; simpl in Hs; lia.
    - intros [|x l] level Hs; simpl in *; lia.
    - intros [|x d] level Hs; simpl in *; lia. }
  split; [|split].
  - intros v level Hs. destruct v as [s|[|x l]|[|[k v] d]].
    + simpl. rewrite string_app_length. simpl. lia.
    + simpl. lia.
    + rewrite json_encode_PList, obj_size_PList in *.
      rewrite !string_app_length. simpl in *.
      specialize (IHv x (S level)). specialize (IHl l level). lia.
    + simpl. lia.
    + rewrite json_encode_PDict, obj_size_PDict in *.
      rewrite !string_app_length. simpl in *.
      specialize (IHv v (S level)). specialize (IHd d level). lia.
  - intros [|x l] level Hs; simpl in *; [lia|].
    rewrite !string_app_length.
    specialize (IHv x (S level)). specialize (IHl l level). lia.
  - intros [|[k v] d] level Hs; simpl in *; [lia|].
    rewrite !string_app_length.
    specialize (IHv v (S level)). specialize (IHd d level). lia.
Qed.

Lemma string_app_nil_r (a : string) : a +:+ "" = a.
Proof.
  induction a as [|x a IH]; [reflexivity|].
  rewrite string_app_cons, IH. reflexivity.
Qed.

(** Decoding the text written for an object yields the object. *)
Lemma json_loads_dumps (o : pyobj) :
  obj_wf o -> json_loads (json_dumps None o) = Some o.
Proof.
  intros Hwf. unfold json_loads, json_dumps.
  rewrite <- (string_app_nil_r (json_encode None 0 o)) at 2.
  rewrite skip_ws_json_encode.
  rewrite (proj1 (round_trip_fuel _)); [reflexivity | | assumption].
  pose proof (proj1 (obj_size_length (obj_size o)) o 0). lia.
Qed.

(** *** The mappings the introspector returns are well formed *)

Lemma preserves_ret {L A} (P : L -> Prop) (a : A) : preserves P (ret a).
Proof. intros l w H. exact H. Qed.

Lemma preserves_raise {L A} (P : L -> Prop) (e : exn) : preserves P (raise (A := A) e).
Proof. intros l w H. exact H. Qed.

Lemma preserves_call {L A} (P : L -> Prop) (o : outcome A) : preserves P (call o).
Proof. intros l w H. exact H. Qed.

Lemma preserves_modify_local {L} (P : L -> Prop) (f : L -> L) :
  (forall l, P l -> P (f l)) -> preserves P (modify_local f).
Proof. intros Hf l w H. apply Hf, H. Qed.

Lemma preserves_bind {L A B} (P : L -> Prop) (c : M L A) (k : A -> M L B) :
  preserves P c -> (forall a, preserves P (k a)) -> preserves P (bind c k).
Proof.
  intros Hc Hk l w H. unfold bind. specialize (Hc l w H).
  destruct (c l w) as [[[a|e] l'] w']; simpl in *; [apply Hk, Hc | exact Hc].
Qed.

Lemma preserves_for_each {L X} (P : L -> Prop) (xs : list X) (body : X -> M L unit) :
  (forall x, preserves P (body x)) -> preserves P (for_each xs body).
Proof.
  intros Hb. induction xs as [|x xs IH]; simpl.
  - apply preserves_ret.
  - apply preserves_bind; [apply Hb | intros _; exact IH].
Qed.

Lemma preserves_for_gen {L X} (P : L -> Prop) (g : generator X) (body : X -> M L unit) :
  (forall x, preserves P (body x)) -> preserves P (for_gen g body).
Proof.
  intros Hb. unfold for_gen. apply preserves_bind.
  - apply preserves_for_each, Hb.
  - intros _. destruct (snd g); [apply preserves_raise | apply preserves_ret].
Qed.

Lemma preserves_if {L A} (P : L -> Prop) (b : bool) (c1 c2 : M L A) :
  preserves P c1 -> preserves P c2 -> preserves P (if b then c1 else c2).
Proof. destruct b; auto. Qed.

Lemma Forall_od_set {V} (Q : string * V -> Prop) (k : string) (v : V) (d : odict V) :
  (forall k', Q (k', v)) -> Forall Q d -> Forall Q (od_set k v d).
Proof.
  intros Hv H. induction H as [|[k0 v0] d H0 H IH]; simpl.
  - repeat constructor. apply Hv.
  - destruct (String.eqb k k0); constructor; auto.
Qed.

Lemma structure_wf_od_set (k key : string) (names : list string) (d : structure) :
  structure_wf d -> structure_wf (od_set k [(key, names)] d).
Proof.
  intros [Hnd Hall]. split; [apply NoDup_od_set, Hnd|].
  apply Forall_od_set; [|exact Hall].
  intros k'. simpl. apply NoDup_singleton.
Qed.

Lemma analyze_body_preserves_wf conn kind : preserves structure_wf (analyze_body conn kind).
Proof.
  unfold analyze_body.
  repeat first
    [ apply preserves_if
    | apply preserves_for_gen; intros ?
    | apply preserves_for_each; intros ?
    | apply preserves_bind; [|intros ?]
    | apply preserves_ret
    | apply preserves_call
    | apply preserves_modify_local; intros ?; apply structure_wf_od_set ].
Qed.

Lemma analyze_db_structure_wf conn kind (L : Type) (l : L) (w w' : world) (d : structure) :
  analyze_db_structure conn kind l w = (Return d, l, w') -> structure_wf d.
Proof.
  rewrite analyze_db_structure_cases.
  pose proof (analyze_body_preserves_wf conn kind [] w) as Hwf.
  destruct (analyze_body conn kind [] w) as [[[[]|e] d0] w0]; simpl in Hwf;
    intros H; injection H as <- _; apply Hwf; split; constructor.
Qed.

Lemma obj_wf_metadata (m : metadata) : NoDup (od_keys m) -> obj_wf (obj_of_metadata m).
Proof.
  intros Hnd. unfold obj_of_metadata. apply obj_wf_PDict. split.
  - rewrite map_map. exact Hnd.
  - apply Forall_forall. intros kv Hkv.
    apply list_elem_of_In, in_map_iff in Hkv as (kv0 & <- & _). simpl.
    apply obj_wf_PList, Forall_forall. intros x Hx.
    apply list_elem_of_In, in_map_iff in Hx as (s & <- & _). exact I.
Qed.

Lemma obj_wf_structure (d : structure) : structure_wf d -> obj_wf (obj_of_structure d).
Proof.
  intros [Hnd Hall]. unfold obj_of_structure. apply obj_wf_PDict. split.
  - rewrite map_map. exact Hnd.
  - apply Forall_forall. intros kv Hkv.
    apply list_elem_of_In, in_map_iff in Hkv as (kv0 & <- & Hin). simpl.
    apply obj_wf_metadata. rewrite Forall_forall in Hall. apply Hall.
    apply list_elem_of_In. exact Hin.
Qed.

Lemma connect_to_db_Some lib (L : Type) (l : L) (w : world)
    (dbc h : string) (p : Z) (dn u pw f ak sk r : string) (c : connection) :
  fst (fst (connect_to_db lib dbc h p dn u pw f ak sk r l w)) = Return (Some c) ->
  connect_to_db lib dbc h p dn u pw f ak sk r l w = (Return (Some c), l, w).
Proof.
  destruct (connect_to_db_cases lib L l w dbc h p dn u pw f ak sk r)
    as (res & w' & Hrun & Hcase).
  rewrite Hrun. simpl. intros Hres. injection Hres as ->.
  destruct (fst (fst (connect_branches lib dbc h p dn u pw f ak sk r tt w)))
    as [[c'|]|e]; destruct Hcase as [Hres ->]; [reflexivity | discriminate | discriminate].
Qed.

Lemma save_structure_ok fs (d : structure) (L : Type) (l : L) (w : world) :
  open_w fs "db_structure.json" = Return tt ->
  save_structure fs d l w =
    (Return tt, l,
     log_ui (StSuccess "Database structure saved to 'db_structure.json'")
       (write_json_file (json_dumps None (obj_of_structure d)) w)).
Proof.
  intros Hopen. unfold save_structure, try_except, bind, call. rewrite Hopen.
  reflexivity.
Qed.

(** C6.  When the connection is made and the file can be opened, the
    action leaves in [db_structure.json] a text that the JSON decoder reads
    back as the very mapping the introspector returned and the script holds
    in [db_structure]: the same entities in the same order, each with the
    same list. *)
Theorem persisted_structure_reloads lib fs (inp : inputs) (g : globals) (w : world)
    (c : connection) :
  button inp = true ->
  fst (fst (connect_to_db lib (db_choice inp) (host inp) (port inp) (db_name inp)
              (username inp) (password inp) (db_file inp)
              (aws_access_key inp) (aws_secret_key inp) (region inp) g w)) =
    Return (Some c) ->
  conn_bool c = Return true ->
  open_w fs "db_structure.json" = Return tt ->
  exists d text g' w',
    analyze_action lib fs inp g w = (Return tt, g', w') /\
    fst (fst (analyze_db_structure c (db_choice inp) g w)) = Return d /\
    g_db_structure g' = Some d /\
    json_file w' = Some text /\
    json_loads text = Some (obj_of_structure d).
Proof.
  intros Hb Hconn Hbool Hopen. apply connect_to_db_Some in Hconn.
  destruct (analyze_db_structure_returns c (db_choice inp)
              globals (Globals (Some (Some c)) (g_db_structure g)) w)
    as (d & w1 & Hrun).
  exists d, (json_dumps None (obj_of_structure d)).
  unfold analyze_action. rewrite Hb. unfold bind at 1. rewrite Hconn.
  unfold bind, modify_local, call, st_write, modify_world. rewrite Hbool, Hrun.
  rewrite save_structure_ok by assumption.
  eexists _, _. split; [reflexivity|]. split; [|split; [reflexivity|split; [reflexivity|]]].
  - pose proof (analyze_db_structure_cases c (db_choice inp) globals g w) as H1.
    pose proof (analyze_db_structure_cases c (db_choice inp) globals
                  (Globals (Some (Some c)) (g_db_structure g)) w) as H2.
    rewrite Hrun in H2. rewrite H1.
    destruct (analyze_body c (db_choice inp) [] w) as [[[[]|e] d0] w0];
      injection H2 as -> _; reflexivity.
  - apply json_loads_dumps, obj_wf_structure.
    eapply analyze_db_structure_wf. exact Hrun.
Qed.

(** The action on the shop database. *)
Lemma persisted_structure_reloads_witness :
  exists text g' w',
    analyze_action local_drivers disk_ok shop_inputs globals0 world0 = (Return tt, g', w') /\
    g_db_structure g' =
      Some [("users", [("columns", ["id"; "name"])]);
            ("orders", [("columns", ["id"; "user_id"; "total"])])] /\
    json_file w' = Some text /\
    json_loads text =
      Some (obj_of_structure
              [("users", [("columns", ["id"; "name"])]);
               ("orders", [("columns", ["id"; "user_id"; "total"])])]).
Proof.
  destruct (persisted_structure_reloads local_drivers disk_ok shop_inputs globals0 world0
              shop_db eq_refl eq_refl eq_refl eq_refl)
    as (d & text & g' & w' & Hrun & Hd & Hg & Hfile & Hload).
  injection Hd as <-.
  exists text, g', w'. auto.
Defined.

(** ** The scenario of the one-table SQLite file

    The file with the table [users(id, name)] is analyzed, saved and
    reloaded, and one endpoint is synthesized for it. *)

Example users_file_structure :
  analyze_db_structure users_file "SQLite" tt world0 =
    (Return [("users", [("columns", ["id"; "name"])])], tt, world0).
Proof. reflexivity. Qed.

Example users_file_saved :
  let w := snd (save_structure disk_ok [("users", [("columns", ["id"; "name"])])]
                  tt world0) in
  ui w = [StSuccess "Database structure saved to 'db_structure.json'"] /\
  (json_loads <$> json_file w) =
    Some (Some (obj_of_structure [("users", [("columns", ["id"; "name"])])])).
Proof. split; reflexivity. Qed.

Example users_file_endpoint :
  generate_fastapi_api sample_app "SQLite" [("users", [("columns", ["id"; "name"])])]
    tt world0 =
    (Return [("users", "/users/{id}")], tt,
     World [] None [("/users/{id}", Handler get_table_data 0 0)]
       [Frame (Some "users") (Some ["id"; "name"]) None] 1).
Proof. reflexivity. Qed.

Example users_file_request :
  let w := snd (generate_fastapi_api sample_app "SQLite"
                  [("users", [("columns", ["id"; "name"])])] tt world0) in
  call_handler w (Handler get_table_data 0 0) "7" =
    Return (TableData "users" ["id"; "name"] "SELECT * FROM users WHERE id = 7").
Proof. reflexivity. Qed.

(** * Further properties of the code *)

(** ** Tables in catalog order *)

(** A loop over catalog rows that all can be processed. *)
Lemma table_loop_complete (conn : connection) (kind : string) (cur : cursor)
    (q : string -> string) (i : nat) (tables : list row) (cols : string -> list row)
    (L : Type) (l : L) (w : world) :
  (forall d w0,
     analyze_body conn kind d w0 = for_each tables (table_loop_body cur q i) d w0) ->
  (forall t, t ∈ tables ->
     exists n, t !! 0 = Some n /\
       execute cur (q n) = Return tt /\
       fetchall cur (q n) = Return (cols n) /\
       Forall (fun r : row => is_Some (r !! i)) (cols n)) ->
  exists d,
    analyze_db_structure conn kind l w = (Return d, l, w) /\
    NoDup (od_keys d) /\
    (forall n, n ∈ od_keys d <-> exists t, t ∈ tables /\ t !! 0 = Some n) /\
    (forall n, n ∈ od_keys d -> od_get n d = Some [("columns", fields i (cols n))]) /\
    (NoDup (fields 0 tables) -> od_keys d = fields 0 tables).
Proof.
  intros Hbody Hok.
  set (step := table_step cur q i).
  assert (Hstep : forall t, t ∈ tables ->
            exists n, t !! 0 = Some n /\
              step t = Return (Some (n, [("columns", fields i (cols n))]))).
  { intros t Ht. destruct (Hok t Ht) as (n & H0 & H1 & H2 & H3).
    exists n. split; [assumption|]. eapply table_step_ok; eassumption. }
  assert (Hnf : fst (run_steps step tables []) = None).
  { apply run_steps_all_return, Forall_forall. intros t Ht.
    destruct (Hstep t Ht) as (n & _ & Hs). eauto. }
  exists (snd (run_steps step tables [])).
  assert (Hkeys : forall n, n ∈ od_keys (snd (run_steps step tables [])) <->
                    exists t, t ∈ tables /\ t !! 0 = Some n).
  { intros n. split.
    - intros Hn. apply od_get_is_Some in Hn as [m Hm].
      apply run_steps_get_inv in Hm as [Hm|(t & Ht & Hs)]; [discriminate|].
      destruct (Hstep t Ht) as (n' & H0 & Hs').
      exists t. split; [assumption|]. congruence.
    - intros (t & Ht & H0). apply run_steps_keys; [assumption|].
      right. destruct (Hstep t Ht) as (n' & H0' & Hs').
      rewrite H0 in H0'. injection H0' as <-. eauto. }
  split; [|split; [|split; [|split]]].
  - rewrite analyze_db_structure_cases, Hbody.
    rewrite (for_each_run_steps _ step) by apply table_loop_body_step.
    rewrite Hnf. reflexivity.
  - apply run_steps_NoDup. constructor.
  - apply Hkeys.
  - intros n Hn. apply Hkeys in Hn as (t & Ht & H0).
    destruct (Hstep t Ht) as (n' & H0' & Hs').
    assert (n' = n) by congruence. subst n'.
    apply run_steps_get; [assumption | | eauto].
    intros y m' Hy Hsy. destruct (Hstep y Hy) as (n2 & _ & Hs2). congruence.
  - intros Hnd. rewrite run_steps_od_keys; [reflexivity | | exact Hnd].
    apply Forall_forall. intros t Ht. destruct (Hstep t Ht) as (n & H0 & Hs). eauto.
Qed.

(** X1.  For SQLite, when the catalog query returns [tables] and the
    [PRAGMA table_info] of each table returns rows with at least two
    fields, [analyze_db_structure] returns, with no error shown, the mapping
    whose keys are the table names, each once, the entry of a table being
    the second field (the column name) of each [PRAGMA] row, in order. *)
Theorem sqlite_structure conn cur tables (cols : string -> list row)
    (L : Type) (l : L) (w : world) :
  conn_cursor conn = Return cur ->
  execute cur sqlite_catalog_query = Return tt ->
  fetchall cur sqlite_catalog_query = Return tables ->
  (forall t, t ∈ tables ->
     exists n, t !! 0 = Some n /\
       execute cur (sqlite_column_query n) = Return tt /\
       fetchall cur (sqlite_column_query n) = Return (cols n) /\
       Forall (fun r : row => is_Some (r !! 1)) (cols n)) ->
  exists d,
    analyze_db_structure conn "SQLite" l w = (Return d, l, w) /\
    NoDup (od_keys d) /\
    (forall n, n ∈ od_keys d <-> exists t, t ∈ tables /\ t !! 0 = Some n) /\
    (forall n, n ∈ od_keys d ->
       exists names, od_get n d = Some [("columns", names)] /\
         Forall2 (fun (r : row) c => r !! 1 = Some c) (cols n) names).
Proof.
  intros Hc He Hf Hok.
  destruct (table_loop_complete conn "SQLite" cur sqlite_column_query 1 tables cols L l w)
    as (d & Hrun & Hnd & Hkeys & Hget & _).
  - intros. apply analyze_body_sqlite; assumption.
  - exact Hok.
  - exists d. split; [exact Hrun|]. split; [exact Hnd|]. split; [exact Hkeys|].
    intros n Hn. exists (fields 1 (cols n)). split; [apply Hget, Hn|].
    apply fields_Forall2. apply Hkeys in Hn as (t & Ht & H0).
    destruct (Hok t Ht) as (n' & H0' & _ & _ & Hrows). congruence.
Qed.

(** The one-table SQLite file. *)
Lemma sqlite_structure_witness :
  exists d,
    analyze_db_structure users_file "SQLite" tt world0 = (Return d, tt, world0) /\
    NoDup (od_keys d) /\
    (forall n, n ∈ od_keys d <-> exists t, t ∈ [["users"]] /\ t !! 0 = Some n) /\
    (forall n, n ∈ od_keys d ->
       exists names, od_get n d = Some [("columns", names)] /\
         Forall2 (fun (r : row) c => r !! 1 = Some c)
           (if String.eqb n "users"
            then [["0"; "id"; "INTEGER"; "0"; ""; "1"]; ["1"; "name"; "TEXT"; "0"; ""; "0"]]
            else []) names).
Proof.
  apply (sqlite_structure users_file users_cursor [["users"]]
           (fun n => if String.eqb n "users"
                     then [["0"; "id"; "INTEGER"; "0"; ""; "1"];
                           ["1"; "name"; "TEXT"; "0"; ""; "0"]]
                     else [])
           unit tt world0).
  - reflexivity.
  - reflexivity.
  - reflexivity.
  - intros t Ht. apply elem_of_cons in Ht as [->|Ht]; [|inversion Ht].
    exists "users". repeat split; repeat constructor; eexists; reflexivity.
Defined.

(** X2.  For the relational kinds and for SQLite, when every table can be
    read and the catalog lists each table name once, the mapping returned
    lists the tables in the order of the catalog's answer. *)
Theorem structure_in_catalog_order conn kind cur tables (L : Type) (l : L) (w : world) :
  conn_cursor conn = Return cur ->
  (kind ∈ relational_kinds /\
   execute cur catalog_query = Return tt /\
   fetchall cur catalog_query = Return tables /\
   Forall (fun t => exists r, table_step cur column_query 0 t = Return r) tables) \/
  (kind = "SQLite" /\
   execute cur sqlite_catalog_query = Return tt /\
   fetchall cur sqlite_catalog_query = Return tables /\
   Forall (fun t => exists r, table_step cur sqlite_column_query 1 t = Return r) tables) ->
  NoDup (fields 0 tables) ->
  exists d,
    analyze_db_structure conn kind l w = (Return d, l, w) /\
    od_keys d = fields 0 tables.
Proof.
  intros Hc Hcase Hnd.
  assert (Hgen : forall q i,
            (forall d w0,
               analyze_body conn kind d w0 =
                 for_each tables (table_loop_body cur q i) d w0) ->
            Forall (fun t => exists r, table_step cur q i t = Return r) tables ->
            exists d, analyze_db_structure conn kind l w = (Return d, l, w) /\
                      od_keys d = fields 0 tables).
  { intros q i Hbody Hall.
    exists (snd (run_steps (table_step cur q i) tables [])). split.
    - rewrite analyze_db_structure_cases, Hbody.
      rewrite (for_each_run_steps _ (table_step cur q i)) by apply table_loop_body_step.
      rewrite run_steps_all_return by assumption. reflexivity.
    - rewrite run_steps_od_keys; [reflexivity | | exact Hnd].
      eapply Forall_impl; [exact Hall|].
      intros t [r Hr]. apply table_step_Return in Hr as (n & m & Hn & Hs). eauto. }
  destruct Hcase as [(Hk & He & Hf & Hall)|(-> & He & Hf & Hall)].
  - apply (Hgen column_query 0); [|assumption].
    intros. apply analyze_body_relational; [apply is_relational_spec| | |]; assumption.
  - apply (Hgen sqlite_column_query 1); [|assumption].
    intros. apply analyze_body_sqlite; assumption.
Qed.

(** The shop database lists [users] before [orders]. *)
Lemma structure_in_catalog_order_witness :
  exists d,
    analyze_db_structure shop_db "MySQL" tt world0 = (Return d, tt, world0) /\
    od_keys d = ["users"; "orders"].
Proof.
  apply (structure_in_catalog_order shop_db "MySQL" shop_cursor shop_tables unit tt world0).
  - reflexivity.
  - left. split; [right; left|]. split; [reflexivity|]. split; [reflexivity|].
    repeat constructor; eexists; reflexivity.
  - repeat constructor; intros H;
      repeat (apply elem_of_cons in H as [H|H]; [discriminate H|]); inversion H.
Defined.

(** ** The Firestore loops *)

Lemma od_set_od_set {V} (k : string) (v1 v2 : V) (d : odict V) :
  od_set k v2 (od_set k v1 d) = od_set k v2 d.
Proof.
  induction d as [|[k0 v0] d IH]; simpl.
  - rewrite String.eqb_refl. reflexivity.
  - destruct (String.eqb k k0) eqn:E; simpl; rewrite E; [reflexivity|].
    rewrite IH. reflexivity.
Qed.

Lemma for_each_run_steps_on {X} (body : X -> M structure unit) (step : X -> step_result)
    (xs : list X) :
  (forall x, x ∈ xs -> forall d w,
     body x d w =
       match step x with
       | Raise e => (Raise e, d, w)
       | Return None => (Return tt, d, w)
       | Return (Some (k, m)) => (Return tt, od_set k m d, w)
       end) ->
  forall d w,
    for_each xs body d w =
      (match fst (run_steps step xs d) with
       | None => Return tt
       | Some e => Raise e
       end, snd (run_steps step xs d), w).
Proof.
  induction xs as [|x xs IH]; intros Hb d w; simpl; [reflexivity|].
  unfold bind. rewrite Hb by left.
  assert (Hxs : forall y, y ∈ xs -> forall d w,
            body y d w =
              match step y with
              | Raise e => (Raise e, d, w)
              | Return None => (Return tt, d, w)
              | Return (Some (k, m)) => (Return tt, od_set k m d, w)
              end).
  { intros y Hy. apply Hb. right. exact Hy. }
  destruct (step x) as [[[k m]|]|e]; simpl; [apply IH | apply IH | reflexivity]; exact Hxs.
Qed.

Lemma analyze_body_firestore conn d w :
  analyze_body conn "Firestore" d w =
    (cols <- call (collections conn) ;; for_gen cols collection_reference_body) d w.
Proof. reflexivity. Qed.

Lemma list_comp_Forall {X Y} (f : X -> outcome Y) (xs : list X) :
  Forall (fun x => exists y, f x = Return y) xs <-> exists ys, list_comp f xs = Return ys.
Proof.
  induction xs as [|x xs IH]; simpl.
  - split; [eauto | constructor].
  - split.
    + intros H. inversion H as [|? ? [y Hy] Hxs]; subst.
      apply IH in Hxs as [ys Hys]. rewrite Hy, Hys. eauto.
    + intros [ys H]. destruct (f x) as [y|e] eqn:Ey; [|discriminate].
      destruct (list_comp f xs) as [ys'|e]; [|discriminate].
      constructor; [eauto | apply IH; eauto].
Qed.

Lemma last_document_keys_cons (doc : document_snapshot) (docs : list document_snapshot) :
  docs <> [] -> last_document_keys (doc :: docs) = last_document_keys docs.
Proof.
  intros H. unfold last_document_keys. destruct docs as [|doc' docs]; [congruence|].
  reflexivity.
Qed.

Lemma last_document_keys_readable (docs : list document_snapshot) :
  Forall (fun doc => exists d, to_dict doc = Return d) docs -> docs <> [] ->
  is_Some (last_document_keys docs).
Proof.
  induction 1 as [|doc docs [d Hd] Hall IH]; intros Hne; [congruence|].
  destruct docs as [|doc' docs].
  - unfold last_document_keys. simpl. rewrite Hd. eauto.
  - rewrite last_document_keys_cons by discriminate. apply IH. discriminate.
Qed.

(** The loop over readable documents leaves the keys of the last one. *)
Lemma document_loop_readable (col : collection_reference) (docs : list document_snapshot)
    (d : structure) (w : world) :
  Forall (fun doc => exists dd, to_dict doc = Return dd) docs ->
  for_each docs (document_loop_body col) d w =
    (Return tt,
     match last_document_keys docs with
     | Some keys => od_set (col_id col) [("keys", keys)] d
     | None => d
     end, w).
Proof.
  intros Hall. revert d. induction Hall as [|doc docs [dd Hdd] Hall IH]; intros d.
  - reflexivity.
  - simpl. unfold bind at 1. unfold document_loop_body at 1.
    unfold bind, call, modify_local. rewrite Hdd. rewrite IH.
    destruct docs as [|doc' docs].
    + unfold last_document_keys. simpl. rewrite Hdd. reflexivity.
    + rewrite (last_document_keys_cons doc (doc' :: docs)) by discriminate.
      destruct (last_document_keys_readable (doc' :: docs) Hall) as [keys Hk];
        [discriminate|].
      rewrite Hk, od_set_od_set. reflexivity.
Qed.

Lemma collection_reference_body_step (col : collection_reference)
    (docs : list document_snapshot) (d : structure) (w : world) :
  stream col = Return (docs, None) ->
  Forall (fun doc => exists dd, to_dict doc = Return dd) docs ->
  collection_reference_step col =
    Return ((fun keys => (col_id col, [("keys", keys)])) <$> last_document_keys docs) /\
  collection_reference_body col d w =
    match collection_reference_step col with
    | Raise e => (Raise e, d, w)
    | Return None => (Return tt, d, w)
    | Return (Some (k, m)) => (Return tt, od_set k m d, w)
    end.
Proof.
  intros Hs Hall.
  assert (Hstep : collection_reference_step col =
            Return ((fun keys => (col_id col, [("keys", keys)])) <$>
                    last_document_keys docs)).
  { unfold collection_reference_step. rewrite Hs.
    destruct (proj1 (list_comp_Forall to_dict docs) Hall) as [ys ->].
    destruct (last_document_keys docs); reflexivity. }
  split; [exact Hstep|]. rewrite Hstep.
  unfold collection_reference_body, bind, call, for_gen. rewrite Hs. simpl.
  unfold bind. rewrite document_loop_readable by assumption.
  destruct (last_document_keys docs); reflexivity.
Qed.

Lemma NoDup_map_eq {A B} (f : A -> B) (xs : list A) (x y : A) :
  NoDup (map f xs) -> x ∈ xs -> y ∈ xs -> f x = f y -> x = y.
Proof.
  induction xs as [|z xs IH]; intros Hnd Hx Hy Hf; [inversion Hx|].
  simpl in Hnd. apply NoDup_cons in Hnd as [Hz Hnd].
  apply elem_of_cons in Hx as [->|Hx]; apply elem_of_cons in Hy as [->|Hy].
  - reflexivity.
  - exfalso. apply Hz. rewrite Hf. apply list_elem_of_In, in_map, list_elem_of_In, Hy.
  - exfalso. apply Hz. rewrite <- Hf. apply list_elem_of_In, in_map, list_elem_of_In, Hx.
  - apply IH; assumption.
Qed.

(** X3.  For Firestore, when the collections are listed without failure,
    each under its own id, and every document streamed can be read,
    [analyze_db_structure] shows no error and returns a mapping in which a
    collection has the keys of the document streamed last, and a collection
    without documents has no entry; the mapping has no other entry. *)
Theorem firestore_structure conn (refs : list collection_reference)
    (L : Type) (l : L) (w : world) :
  collections conn = Return (refs, None) ->
  NoDup (map col_id refs) ->
  (forall c, c ∈ refs ->
     exists docs, stream c = Return (docs, None) /\
       Forall (fun doc => exists d, to_dict doc = Return d) docs) ->
  exists d,
    analyze_db_structure conn "Firestore" l w = (Return d, l, w) /\
    (forall c docs,
       c ∈ refs -> stream c = Return (docs, None) ->
       od_get (col_id c) d =
         (fun keys => [("keys", keys)]) <$> last_document_keys docs) /\
    (forall k, k ∈ od_keys d -> exists c, c ∈ refs /\ col_id c = k).
Proof.
  intros Hcols Hnd Hok.
  set (step := collection_reference_step).
  assert (Hstep : forall c, c ∈ refs ->
            exists docs, stream c = Return (docs, None) /\
              step c = Return ((fun keys => (col_id c, [("keys", keys)])) <$>
                               last_document_keys docs)).
  { intros c Hc. destruct (Hok c Hc) as (docs & Hs & Hall).
    exists docs. split; [exact Hs|].
    exact (proj1 (collection_reference_body_step c docs [] w Hs Hall)). }
  assert (Hbody : forall c, c ∈ refs -> forall d w0,
            collection_reference_body c d w0 =
              match step c with
              | Raise e => (Raise e, d, w0)
              | Return None => (Return tt, d, w0)
              | Return (Some (k, m)) => (Return tt, od_set k m d, w0)
              end).
  { intros c Hc d w0. destruct (Hok c Hc) as (docs & Hs & Hall).
    exact (proj2 (collection_reference_body_step c docs d w0 Hs Hall)). }
  assert (Hnf : fst (run_steps step refs []) = None).
  { apply run_steps_all_return, Forall_forall. intros c Hc.
    destruct (Hstep c Hc) as (docs & _ & ->). eauto. }
  assert (Hkey : forall c k m, c ∈ refs -> step c = Return (Some (k, m)) -> k = col_id c).
  { intros c k m Hc Hs. destruct (Hstep c Hc) as (docs & _ & Hs').
    rewrite Hs' in Hs. destruct (last_document_keys docs); simpl in Hs; [|discriminate].
    injection Hs as <- _. reflexivity. }
  exists (snd (run_steps step refs [])). split; [|split].
  - rewrite analyze_db_structure_cases, analyze_body_firestore.
    unfold bind, call, for_gen. rewrite Hcols. simpl. unfold bind.
    rewrite (for_each_run_steps_on _ step) by exact Hbody.
    rewrite Hnf. reflexivity.
  - intros c docs Hc Hs. destruct (Hstep c Hc) as (docs' & Hs' & Hsc).
    rewrite Hs in Hs'. injection Hs' as <-.
    destruct (last_document_keys docs) as [keys|] eqn:Hk; simpl in *.
    + apply run_steps_get; [assumption | | eauto].
      intros y m' Hy Hsy. pose proof (Hkey y _ _ Hy Hsy) as Hid.
      assert (y = c) by (eapply NoDup_map_eq; eauto). subst y. congruence.
    + rewrite run_steps_get_other; [reflexivity|].
      intros y m' Hy Hsy. pose proof (Hkey y _ _ Hy Hsy) as Hid.
      assert (y = c) by (eapply NoDup_map_eq; eauto). subst y. congruence.
  - intros k Hk. apply od_get_is_Some in Hk as [m Hm].
    apply run_steps_get_inv in Hm as [Hm|(c & Hc & Hs)]; [discriminate|].
    exists c. split; [exact Hc|]. symmetry. eapply Hkey; eassumption.
Qed.

(** The Firestore database with [cities] and the empty [archive]. *)
Lemma firestore_structure_witness :
  exists d,
    analyze_db_structure firestore_db "Firestore" tt world0 = (Return d, tt, world0) /\
    od_get "cities" d = Some [("keys", ["name"; "zip"])] /\
    od_get "archive" d = None.
Proof.
  destruct (firestore_structure firestore_db [cities; empty_collection] unit tt world0)
    as (d & Hrun & Hget & _).
  - reflexivity.
  - repeat constructor; intros H;
      repeat (apply elem_of_cons in H as [H|H]; [discriminate H|]); inversion H.
  - intros c Hc. apply elem_of_cons in Hc as [->|Hc];
      [|apply elem_of_cons in Hc as [->|Hc]; [|inversion Hc]].
    + eexists. split; [reflexivity|]. repeat constructor; eexists; reflexivity.
    + eexists. split; [reflexivity|]. constructor.
  - exists d. split; [exact Hrun|]. split.
    + apply (Hget cities _ ltac:(left) eq_refl).
    + apply (Hget empty_collection _ ltac:(right; left) eq_refl).
Defined.

(** X4.  For Firestore, when the stream of a collection breaks after it
    has yielded documents, the error is shown and the mapping returned has
    an entry for that collection all the same: the keys of the last
    document read before the failure. *)
Theorem firestore_broken_stream conn (pre post : list collection_reference)
    (c : collection_reference) (oe : option exn) (docs : list document_snapshot)
    (e : exn) (L : Type) (l : L) (w : world) :
  collections conn = Return (pre ++ c :: post, oe) ->
  (forall x, x ∈ pre ->
     exists xdocs, stream x = Return (xdocs, None) /\
       Forall (fun doc => exists d, to_dict doc = Return d) xdocs) ->
  stream c = Return (docs, Some e) ->
  docs <> [] ->
  Forall (fun doc => exists d, to_dict doc = Return d) docs ->
  exists d keys,
    analyze_db_structure conn "Firestore" l w =
      (Return d, l, log_ui (analyze_error "Firestore" e) w) /\
    last_document_keys docs = Some keys /\
    od_get (col_id c) d = Some [("keys", keys)].
Proof.
  intros Hcols Hpre Hs Hne Hall.
  destruct (last_document_keys_readable docs Hall Hne) as [keys Hk].
  exists (od_set (col_id c) [("keys", keys)] (snd (run_steps collection_reference_step pre []))), keys.
  split; [|split; [exact Hk | apply od_get_od_set_eq]].
  rewrite analyze_db_structure_cases, analyze_body_firestore.
  unfold bind, call, for_gen. rewrite Hcols. simpl. unfold bind.
  rewrite for_each_app. unfold bind.
  rewrite (for_each_run_steps_on _ collection_reference_step).
  2:{ intros x Hx d0 w0. destruct (Hpre x Hx) as (xdocs & Hxs & Hxall).
      exact (proj2 (collection_reference_body_step x xdocs d0 w0 Hxs Hxall)). }
  rewrite run_steps_all_return.
  2:{ apply Forall_forall. intros x Hx. destruct (Hpre x Hx) as (xdocs & Hxs & Hxall).
      rewrite (proj1 (collection_reference_body_step x xdocs [] w Hxs Hxall)). eauto. }
  simpl. unfold bind. unfold collection_reference_body at 1.
  unfold bind, call, for_gen. rewrite Hs. simpl. unfold bind.
  rewrite document_loop_readable by assumption. rewrite Hk. reflexivity.
Qed.

(** The stream of [events] breaks after two documents. *)
Lemma firestore_broken_stream_witness :
  exists d,
    analyze_db_structure flaky_firestore "Firestore" tt world0 =
      (Return d, tt, log_ui (analyze_error "Firestore" stream_broken) world0) /\
    od_get "events" d = Some [("keys", ["at"; "by"])].
Proof.
  destruct (firestore_broken_stream flaky_firestore [cities] [empty_collection]
              broken_collection None
              [snapshot [("at", PInt 1)]; snapshot [("at", PInt 2); ("by", PText "x")]]
              stream_broken unit tt world0)
    as (d & keys & Hrun & Hk & Hget).
  - reflexivity.
  - intros x Hx. apply elem_of_cons in Hx as [->|Hx]; [|inversion Hx].
    eexists. split; [reflexivity|]. repeat constructor; eexists; reflexivity.
  - reflexivity.
  - discriminate.
  - repeat constructor; eexists; reflexivity.
  - injection Hk as <-. exists d. split; [exact Hrun | exact Hget].
Defined.

(** ** The shape of the mappings the introspector returns *)

Lemma entries_under_od_set (key k : string) (names : list string) (d : structure) :
  entries_under key d -> entries_under key (od_set k [(key, names)] d).
Proof.
  intros [Hnd Hall]. split; [apply NoDup_od_set, Hnd|].
  apply Forall_od_set; [|exact Hall]. intros k'. simpl. eauto.
Qed.

Ltac preserves_tac :=
  repeat first
    [ apply preserves_if
    | apply preserves_for_gen; intros ?
    | apply preserves_for_each; intros ?
    | apply preserves_bind; [|intros ?]
    | apply preserves_ret
    | apply preserves_call
    | apply preserves_modify_local; intros ?; apply entries_under_od_set ].

Lemma analyze_body_entries_under conn kind :
  preserves (entries_under (kind_key kind)) (analyze_body conn kind).
Proof.
  unfold analyze_body.
  destruct (is_relational kind) eqn:Hrel.
  { assert (Hkey : kind_key kind = "columns").
    { apply is_relational_spec in Hrel. unfold relational_kinds in Hrel.
      repeat (apply elem_of_cons in Hrel as [->|Hrel]; [reflexivity|]).
      inversion Hrel. }
    rewrite Hkey. preserves_tac. }
  destruct (String.eqb_spec kind "SQLite") as [->|_]; [preserves_tac|].
  destruct (String.eqb_spec kind "MongoDB") as [->|_]; [preserves_tac|].
  destruct (String.eqb_spec kind "Amazon DynamoDB") as [->|_]; [preserves_tac|].
  destruct (String.eqb_spec kind "Firestore") as [->|_]; [preserves_tac|].
  destruct (String.eqb_spec kind "BigQuery") as [->|_]; [preserves_tac|].
  apply preserves_ret.
Qed.

(** X5.  Whatever the connection answers and wherever the introspection
    fails, the mapping [analyze_db_structure] returns names every entity
    once and gives each entry exactly one key: "keys" for MongoDB and
    Firestore, "columns" for every other kind. *)
Theorem analyze_entries_shape conn kind (L : Type) (l : L) (w w' : world) (d : structure) :
  analyze_db_structure conn kind l w = (Return d, l, w') ->
  NoDup (od_keys d) /\
  Forall (fun kv : string * metadata =>
            exists names, snd kv = [(kind_key kind, names)]) d.
Proof.
  rewrite analyze_db_structure_cases.
  pose proof (analyze_body_entries_under conn kind [] w) as Hinv.
  destruct (analyze_body conn kind [] w) as [[[[]|e] d0] w0]; simpl in Hinv;
    intros H; injection H as <- _; apply Hinv; split; constructor.
Qed.

(** The mapping of the guarded database, cut short by the failure. *)
Lemma analyze_entries_shape_witness :
  NoDup (od_keys [("users", [("columns", ["id"; "name"])])]) /\
  Forall (fun kv : string * metadata => exists names, snd kv = [("columns", names)])
    [("users", [("columns", ["id"; "name"])])].
Proof.
  apply (analyze_entries_shape guarded_db "PostgreSQL" unit tt world0
           (log_ui (analyze_error "PostgreSQL" permission_denied) world0)).
  reflexivity.
Defined.

(** ** From the introspector to the synthesizer *)

Lemma kind_key_cases (kind : string) :
  kind_key kind = "keys" \/ kind_key kind = "columns".
Proof. unfold kind_key. destruct (_ || _); auto. Qed.

Lemma entity_plan_under (kind : string) (e : string) (names : list string) :
  entity_plan (e, [(kind_key kind, names)]) = [(e, kind_code kind)].
Proof.
  unfold kind_code.
  destruct (kind_key_cases kind) as [-> | ->]; reflexivity.
Qed.

Lemma route_path_kind_code (kind e : string) :
  route_path (kind_code kind) e = kind_path kind e.
Proof. unfold kind_code, kind_path. destruct (String.eqb _ _); reflexivity. Qed.

Lemma kind_path_inj (kind e1 e2 : string) : kind_path kind e1 = kind_path kind e2 -> e1 = e2.
Proof.
  unfold kind_path. destruct (String.eqb _ _);
    [apply collection_path_inj | apply table_path_inj].
Qed.

Lemma od_set_fresh {V} (k : string) (v : V) (d : odict V) :
  k ∉ od_keys d -> od_set k v d = d ++ [(k, v)].
Proof.
  induction d as [|[k0 v0] d IH]; intros H; simpl; [reflexivity|].
  simpl in H. apply not_elem_of_cons in H as [Hne H].
  destruct (String.eqb_spec k k0); [contradiction|]. rewrite IH by assumption. reflexivity.
Qed.

Lemma plan_under (kind : string) (d : structure) :
  Forall (fun kv : string * metadata =>
            exists names, snd kv = [(kind_key kind, names)]) d ->
  plan d = map (fun kv => (fst kv, kind_code kind)) d.
Proof.
  induction 1 as [|[e m] d [names Hm] _ IH]; [reflexivity|].
  simpl in Hm. subst m. rewrite plan_cons, entity_plan_under, IH. reflexivity.
Qed.

Lemma plan_paths_under (kind : string) (d : structure) :
  plan_paths (map (fun kv : string * metadata => (fst kv, kind_code kind)) d) =
    map (fun kv => kind_path kind (fst kv)) d.
Proof.
  unfold plan_paths. rewrite map_map. apply map_ext. intros kv. simpl.
  apply route_path_kind_code.
Qed.

Lemma endpoints_under (kind : string) (d : structure) (r : registry) :
  NoDup (od_keys r ++ od_keys d) ->
  plan_endpoints (map (fun kv : string * metadata => (fst kv, kind_code kind)) d) r =
    r ++ map (fun kv => (fst kv, kind_path kind (fst kv))) d.
Proof.
  unfold plan_endpoints. revert r. induction d as [|[e m] d IH]; intros r Hnd; simpl.
  - rewrite app_nil_r. reflexivity.
  - assert (Hfresh : e ∉ od_keys r).
    { intros Hin. apply NoDup_app in Hnd as (_ & Hdisj & _).
      apply (Hdisj e Hin). left. }
    rewrite od_set_fresh by assumption.
    rewrite IH.
    + rewrite <- app_assoc, route_path_kind_code. reflexivity.
    + unfold od_keys in *. rewrite map_app, <- app_assoc. exact Hnd.
Qed.

Lemma NoDup_kind_paths (kind : string) (d : structure) :
  NoDup (od_keys d) ->
  NoDup (map (fun kv : string * metadata => kind_path kind (fst kv)) d).
Proof.
  unfold od_keys. induction d as [|[e m] d IH]; simpl; intros Hnd; [constructor|].
  apply NoDup_cons in Hnd as [He Hnd]. apply NoDup_cons. split; [|apply IH, Hnd].
  intros Hin. apply He.
  apply list_elem_of_In, in_map_iff in Hin as ([e' m'] & Hp & Hin'). simpl in Hp.
  apply kind_path_inj in Hp. subst e'.
  apply list_elem_of_In, in_map_iff. exists (e, m'). auto.
Qed.

(** X6.  Run on a mapping the introspector returned for [kind], all of
    whose paths the application accepts, the synthesizer registers exactly
    one route per entity, in the mapping's order and at pairwise distinct
    paths ([/{entity}] for MongoDB and Firestore, [/{entity}/{id}]
    otherwise), each with a function object of its own over the cells of
    the call, shows nothing, and returns the registry that maps each
    entity, in the same order, to that path. *)
Theorem introspected_structure_endpoints (app : FastAPI) conn kind (L : Type) (l : L)
    (w w1 : world) (d : structure) (kind' : string) (L' : Type) (l' : L') :
  analyze_db_structure conn kind l w = (Return d, l, w1) ->
  accepts app d ->
  exists w2 new,
    generate_fastapi_api app kind' d l' w1 =
      (Return (map (fun kv => (fst kv, kind_path kind (fst kv))) d), l', w2) /\
    routes w2 = routes w1 ++ new /\
    map fst new = map (fun kv => kind_path kind (fst kv)) d /\
    Forall (fun ph : string * handler =>
              h_code (snd ph) = kind_code kind /\ h_frame (snd ph) = length (frames w1))
      new /\
    NoDup (map snd new) /\
    NoDup (map fst new) /\
    ui w2 = ui w1 /\ json_file w2 = json_file w1.
Proof.
  intros Hrun Hacc. apply analyze_entries_shape in Hrun as [Hnd Hall].
  destruct (generate_fastapi_api_registered app kind' d L' l' w1)
    as (w2 & p & Hgen & Hroutes & Hjson & Hstop).
  destruct Hstop as [(-> & _ & Hui)|(e & c & x & rest & Hp & Herr & _)];
    [|exfalso; exact (accepts_no_error app d p rest e c x Hacc Hp Herr)].
  rewrite (plan_under kind) in Hgen, Hroutes by assumption.
  rewrite (endpoints_under kind d []) in Hgen by assumption.
  exists w2, (plan_routes (length (frames w1)) (functions w1)
                (map (fun kv => (fst kv, kind_code kind)) d)).
  split; [exact Hgen|]. split; [exact Hroutes|].
  rewrite plan_routes_paths, plan_paths_under.
  split; [reflexivity|].
  split.
  { apply Forall_forall. intros [path h] Hin.
    apply elem_of_plan_routes in Hin as (e & Hin & _ & Hf & _).
    split; [|exact Hf].
    apply list_elem_of_In, in_map_iff in Hin as (kv & Hkv & _).
    injection Hkv as _ Hc. simpl. symmetry. exact Hc. }
  split; [apply NoDup_plan_routes|].
  split; [apply NoDup_kind_paths; assumption|].
  auto.
Qed.

(** The shop database, analyzed and then synthesized. *)
Lemma introspected_structure_endpoints_witness :
  analyze_db_structure shop_db "PostgreSQL" tt world0 =
    (Return [("users", [("columns", ["id"; "name"])]);
             ("orders", [("columns", ["id"; "user_id"; "total"])])], tt, world0) /\
  accepts sample_app
    [("users", [("columns", ["id"; "name"])]);
     ("orders", [("columns", ["id"; "user_id"; "total"])])] /\
  exists w2 new,
    generate_fastapi_api sample_app "PostgreSQL"
      [("users", [("columns", ["id"; "name"])]);
       ("orders", [("columns", ["id"; "user_id"; "total"])])] tt world0 =
      (Return [("users", "/users/{id}"); ("orders", "/orders/{id}")], tt, w2) /\
    routes w2 = routes world0 ++ new /\
    map fst new = ["/users/{id}"; "/orders/{id}"] /\
    NoDup (map snd new).
Proof.
  assert (Hacc : accepts sample_app
                   [("users", [("columns", ["id"; "name"])]);
                    ("orders", [("columns", ["id"; "user_id"; "total"])])]).
  { apply first_refusal_None. reflexivity. }
  split; [reflexivity|]. split; [exact Hacc|].
  destruct (introspected_structure_endpoints sample_app shop_db "PostgreSQL" unit tt
              world0 world0
              [("users", [("columns", ["id"; "name"])]);
               ("orders", [("columns", ["id"; "user_id"; "total"])])]
              "PostgreSQL" unit tt eq_refl Hacc)
    as (w2 & new & Hrun & Hroutes & Hpaths & _ & Hobj & _).
  exists w2, new. split; [exact Hrun|]. split; [exact Hroutes|].
  split; [exact Hpaths | exact Hobj].
Defined.
(** ** The action, path by path *)

(** The action when the button is pressed, by what the connector and the
    truth test of the connection give. *)
Lemma analyze_action_pressed lib fs (inp : inputs) (g : globals) (w : world) :
  button inp = true ->
  analyze_action lib fs inp g w =
    match connect_to_db lib (db_choice inp) (host inp) (port inp) (db_name inp)
            (username inp) (password inp) (db_file inp)
            (aws_access_key inp) (aws_secret_key inp) (region inp) g w with
    | (Raise e, g', w1) => (Raise e, g', w1)
    | (Return None, _, w1) => (Return tt, Globals (Some None) (g_db_structure g), w1)
    | (Return (Some c), _, w1) =>
        let g1 := Globals (Some (Some c)) (g_db_structure g) in
        match conn_bool c with
        | Raise e => (Raise e, g1, w1)
        | Return false => (Return tt, g1, w1)
        | Return true =>
            match analyze_db_structure c (db_choice inp) g1 w1 with
            | (Raise e, g', w2) => (Raise e, g', w2)
            | (Return d, _, w2) =>
                save_structure fs d (Globals (Some (Some c)) (Some d))
                  (log_ui (StWrite "Database Structure:"
                             (json_dumps (Some 4) (obj_of_structure d))) w2)
            end
        end
    end.
Proof.
  intros Hb. unfold analyze_action. rewrite Hb. unfold bind at 1.
  destruct (connect_to_db_cases lib globals g w (db_choice inp) (host inp) (port inp)
              (db_name inp) (username inp) (password inp) (db_file inp)
              (aws_access_key inp) (aws_secret_key inp) (region inp))
    as (res & w1 & Hconn & _).
  rewrite Hconn. destruct res as [c|]; [|reflexivity].
  unfold bind, modify_local, call. destruct (conn_bool c) as [[|]|e]; try reflexivity.
  destruct (analyze_db_structure_returns c (db_choice inp) globals
              (Globals (Some (Some c)) (g_db_structure g)) w1) as (d & w2 & Hrun).
  rewrite Hrun. reflexivity.
Qed.

Lemma save_structure_failed fs (d : structure) (L : Type) (l : L) (w : world) (e : exn) :
  open_w fs "db_structure.json" = Raise e ->
  save_structure fs d l w =
    (Return tt, l, log_ui (StError ("Error saving database structure: " +:+ exn_str e)) w).
Proof.
  intros Hopen. unfold save_structure, try_except, bind, call. rewrite Hopen.
  reflexivity.
Qed.

Lemma analyze_db_structure_world conn kind (L : Type) (l : L) (w : world) :
  exists d w',
    analyze_db_structure conn kind l w = (Return d, l, w') /\
    routes w' = routes w /\ frames w' = frames w /\ json_file w' = json_file w.
Proof.
  rewrite analyze_db_structure_cases.
  destruct (analyze_body conn kind [] w) as [[[[]|e] d] w0]; eexists _, _;
    repeat split; reflexivity.
Qed.

(** X7.  Whatever the widgets hold and whatever the drivers, the database
    and the disk do, the action registers no route and creates no closure
    cell: the synthesizer is never called from it.  This holds also when
    the action ends with an exception. *)
Theorem action_registers_nothing lib fs (inp : inputs) (g : globals) (w : world) :
  routes (snd (analyze_action lib fs inp g w)) = routes w /\
  frames (snd (analyze_action lib fs inp g w)) = frames w.
Proof.
  destruct (button inp) eqn:Hb; [|unfold analyze_action; rewrite Hb; auto].
  rewrite analyze_action_pressed by assumption.
  destruct (connect_to_db_cases lib globals g w (db_choice inp) (host inp) (port inp)
              (db_name inp) (username inp) (password inp) (db_file inp)
              (aws_access_key inp) (aws_secret_key inp) (region inp))
    as (res & w1 & Hconn & Hcase).
  rewrite Hconn.
  assert (Hw1 : routes w1 = routes w /\ frames w1 = frames w).
  { destruct (fst (fst (connect_branches _ _ _ _ _ _ _ _ _ _ _ _ _))) as [[c|]|e];
      destruct Hcase as [_ ->]; auto. }
  destruct res as [c|]; [|exact Hw1]. simpl.
  destruct (conn_bool c) as [[|]|e]; try exact Hw1.
  destruct (analyze_db_structure_world c (db_choice inp) globals
              (Globals (Some (Some c)) (g_db_structure g)) w1)
    as (d & w2 & Hrun & Hr & Hf & _).
  rewrite Hrun. unfold save_structure, try_except, bind, call.
  destruct (open_w fs "db_structure.json") as [[]|e]; simpl;
    rewrite ?Hr, ?Hf; exact Hw1.
Qed.

(** X8.  When the connection is made but [db_structure.json] cannot be
    opened for writing, the action still binds [db_structure] and shows the
    structure, then shows "Error saving database structure: ..." instead of
    the success message, and leaves the file as it was. *)
Theorem action_cannot_save lib fs (inp : inputs) (g : globals) (w : world)
    (c : connection) (e : exn) :
  button inp = true ->
  fst (fst (connect_to_db lib (db_choice inp) (host inp) (port inp) (db_name inp)
              (username inp) (password inp) (db_file inp)
              (aws_access_key inp) (aws_secret_key inp) (region inp) g w)) =
    Return (Some c) ->
  conn_bool c = Return true ->
  open_w fs "db_structure.json" = Raise e ->
  exists d w1 w',
    analyze_db_structure c (db_choice inp) g w = (Return d, g, w1) /\
    analyze_action lib fs inp g w = (Return tt, Globals (Some (Some c)) (Some d), w') /\
    ui w' = ui w1 ++ [StWrite "Database Structure:"
                        (json_dumps (Some 4) (obj_of_structure d));
                      StError ("Error saving database structure: " +:+ exn_str e)] /\
    json_file w' = json_file w.
Proof.
  intros Hb Hconn Hbool Hopen. apply connect_to_db_Some in Hconn.
  rewrite analyze_action_pressed by assumption. rewrite Hconn, Hbool. simpl.
  rewrite !analyze_db_structure_cases.
  destruct (analyze_body c (db_choice inp) [] w) as [[[[]|e0] d] w0];
    rewrite (save_structure_failed fs _ _ _ _ e) by exact Hopen;
    eexists _, _, _; (split; [reflexivity|]); (split; [reflexivity|]);
    simpl; rewrite <- ?app_assoc; split; reflexivity.
Qed.

(** The shop database and a disk that refuses the file. *)
Lemma action_cannot_save_witness :
  exists w',
    analyze_action local_drivers disk_read_only shop_inputs globals0 world0 =
      (Return tt,
       Globals (Some (Some shop_db))
         (Some [("users", [("columns", ["id"; "name"])]);
                ("orders", [("columns", ["id"; "user_id"; "total"])])]), w') /\
    last (ui w') =
      Some (StError "Error saving database structure: [Errno 13] Permission denied") /\
    json_file w' = None.
Proof.
  destruct (action_cannot_save local_drivers disk_read_only shop_inputs globals0 world0
              shop_db read_only eq_refl eq_refl eq_refl eq_refl)
    as (d & w1 & w' & Hrun & Hact & Hui & Hfile).
  injection Hrun as <- <-.
  exists w'. split; [exact Hact|]. split; [rewrite Hui; reflexivity | exact Hfile].
Defined.

(** X9.  The guard [if conn:] tests the truth of the connection object
    outside any [try]: an object that tests false ends the action silently,
    with no message, no analysis and no file; an object whose truth test
    raises makes the action itself raise that exception, which nothing
    catches. *)
Theorem action_truth_test lib fs (inp : inputs) (g : globals) (w : world)
    (c : connection) :
  button inp = true ->
  fst (fst (connect_to_db lib (db_choice inp) (host inp) (port inp) (db_name inp)
              (username inp) (password inp) (db_file inp)
              (aws_access_key inp) (aws_secret_key inp) (region inp) g w)) =
    Return (Some c) ->
  (conn_bool c = Return false ->
   analyze_action lib fs inp g w =
     (Return tt, Globals (Some (Some c)) (g_db_structure g), w)) /\
  (forall e, conn_bool c = Raise e ->
   analyze_action lib fs inp g w =
     (Raise e, Globals (Some (Some c)) (g_db_structure g), w)).
Proof.
  intros Hb Hconn. apply connect_to_db_Some in Hconn.
  rewrite analyze_action_pressed by assumption. rewrite Hconn. simpl.
  split; [intros -> | intros e ->]; reflexivity.
Qed.

(** An SQLite connection that tests false, and a MongoDB database object
    that refuses the truth test. *)
Lemma action_truth_test_witness :
  analyze_action mongo_drivers disk_ok sqlite_inputs globals0 world0 =
    (Return tt, Globals (Some (Some falsy_db)) None, world0) /\
  analyze_action mongo_drivers disk_ok mongo_inputs globals0 world0 =
    (Raise no_truth_value, Globals (Some (Some untestable_db)) None, world0).
Proof.
  split.
  - apply (proj1 (action_truth_test mongo_drivers disk_ok sqlite_inputs globals0 world0
                    falsy_db eq_refl eq_refl)). reflexivity.
  - apply (proj2 (action_truth_test mongo_drivers disk_ok mongo_inputs globals0 world0
                    untestable_db eq_refl eq_refl)). reflexivity.
Defined.

(** X10.  When the introspection fails with [e], leaving the partial
    mapping [d], and the file can be opened, the action shows the analysis
    error, then the partial structure, then the success message, and the
    file holds the partial mapping: a crash of the introspection is
    followed by "Database structure saved". *)
Theorem action_saves_partial_mapping lib fs (inp : inputs) (g : globals) (w : world)
    (c : connection) (d : structure) (e : exn) :
  button inp = true ->
  fst (fst (connect_to_db lib (db_choice inp) (host inp) (port inp) (db_name inp)
              (username inp) (password inp) (db_file inp)
              (aws_access_key inp) (aws_secret_key inp) (region inp) g w)) =
    Return (Some c) ->
  conn_bool c = Return true ->
  analyze_db_structure c (db_choice inp) g w =
    (Return d, g, log_ui (analyze_error (db_choice inp) e) w) ->
  open_w fs "db_structure.json" = Return tt ->
  exists w',
    analyze_action lib fs inp g w = (Return tt, Globals (Some (Some c)) (Some d), w') /\
    ui w' = ui w ++ [analyze_error (db_choice inp) e;
                     StWrite "Database Structure:"
                       (json_dumps (Some 4) (obj_of_structure d));
                     StSuccess "Database structure saved to 'db_structure.json'"] /\
    json_file w' = Some (json_dumps None (obj_of_structure d)).
Proof.
  intros Hb Hconn Hbool Hrun Hopen. apply connect_to_db_Some in Hconn.
  rewrite analyze_action_pressed by assumption. rewrite Hconn, Hbool. simpl.
  rewrite analyze_db_structure_cases in *.
  destruct (analyze_body c (db_choice inp) [] w) as [[[[]|e0] d0] w0].
  - injection Hrun as _ Hw. exfalso. symmetry in Hw. exact (log_ui_neq _ _ Hw).
  - injection Hrun as -> Hw.
    assert (He : analyze_error (db_choice inp) e0 = analyze_error (db_choice inp) e).
    { apply app_inv_head in Hw. congruence. }
    rewrite save_structure_ok by exact Hopen.
    eexists. split; [reflexivity|]. split; [|reflexivity].
    simpl. rewrite He, <- !app_assoc. reflexivity.
Qed.

(** The guarded database: the columns of [orders] may not be read. *)
Lemma action_saves_partial_mapping_witness :
  exists w',
    analyze_action guarded_drivers disk_ok shop_inputs globals0 world0 =
      (Return tt,
       Globals (Some (Some guarded_db)) (Some [("users", [("columns", ["id"; "name"])])]),
       w') /\
    last (ui w') = Some (StSuccess "Database structure saved to 'db_structure.json'") /\
    json_file w' =
      Some (json_dumps None (obj_of_structure [("users", [("columns", ["id"; "name"])])])).
Proof.
  destruct (action_saves_partial_mapping guarded_drivers disk_ok shop_inputs globals0
              world0 guarded_db [("users", [("columns", ["id"; "name"])])]
              permission_denied eq_refl eq_refl eq_refl eq_refl eq_refl)
    as (w' & Hact & Hui & Hfile).
  exists w'. split; [exact Hact|]. split; [rewrite Hui; reflexivity | exact Hfile].
Defined.

(** ** Running the synthesizer again *)

(** The world after a call of the synthesizer: the registrations made
    depend on the application and the structure only. *)
Lemma generate_fastapi_api_shape (app : FastAPI) (kind : string) (d : structure)
    (L : Type) (l : L) (w : world) :
  exists u f n,
    generate_fastapi_api app kind d l w =
      (Return (plan_endpoints (registered app d) []), l,
       World u (json_file w)
         (routes w ++ plan_routes (length (frames w)) (functions w) (registered app d))
         (frames w ++ [f]) n) /\
    functions w + length (registered app d) <= n.
Proof.
  rewrite generate_fastapi_api_run. unfold registered.
  destruct (first_refusal app d) as [[[[pre it] c] x]|];
    eexists _, _, _; (split; [reflexivity|]);
    unfold plan_before; lia.
Qed.

(** X11.  A second run of the synthesizer replaces nothing: its routes are
    appended after those of the first run, which stay registered, and the
    handlers of the first run go on answering exactly as before, from their
    own cells; the function objects of the second run are new ones, over
    other cells.  Run again on the same mapping, it registers the same
    paths a second time, stopping where the first run stopped, and returns
    the same registry. *)
Theorem synthesizer_run_twice (app : FastAPI) (kind1 kind2 : string) (d1 d2 : structure)
    (L : Type) (l : L) (w : world) :
  exists r1 w1 new1 r2 w2 new2,
    generate_fastapi_api app kind1 d1 l w = (Return r1, l, w1) /\
    generate_fastapi_api app kind2 d2 l w1 = (Return r2, l, w2) /\
    routes w1 = routes w ++ new1 /\
    routes w2 = routes w ++ new1 ++ new2 /\
    (forall path h id, (path, h) ∈ new1 -> call_handler w2 h id = call_handler w1 h id) /\
    (forall path1 h1 path2 h2,
       (path1, h1) ∈ new1 -> (path2, h2) ∈ new2 ->
       h_id h1 <> h_id h2 /\ h_frame h1 <> h_frame h2) /\
    (accepts app d2 -> length new2 = count_with "columns" d2 + count_with "keys" d2) /\
    (d1 = d2 -> map fst new2 = map fst new1 /\ r2 = r1).
Proof.
  destruct (generate_fastapi_api_shape app kind1 d1 L l w) as (u1 & f1 & n1 & H1 & Hn1).
  set (w1 := World u1 (json_file w)
               (routes w ++ plan_routes (length (frames w)) (functions w)
                  (registered app d1))
               (frames w ++ [f1]) n1) in *.
  destruct (generate_fastapi_api_shape app kind2 d2 L l w1) as (u2 & f2 & n2 & H2 & Hn2).
  eexists _, w1, _, _, _, _.
  split; [exact H1|]. split; [exact H2|]. split; [reflexivity|].
  split; [simpl; rewrite <- app_assoc; reflexivity|].
  split; [|split; [|split]].
  - intros path h id Hin.
    apply elem_of_plan_routes in Hin as (_ & _ & _ & Hf & _).
    unfold call_handler, call_get_table_data, call_get_collection_data. rewrite Hf. simpl.
    rewrite (lookup_app_l (frames w ++ [f1])) by (rewrite length_app; simpl; lia).
    reflexivity.
  - intros path1 h1 path2 h2 Hin1 Hin2.
    apply elem_of_plan_routes in Hin1 as (_ & _ & _ & Hf1 & Hid1).
    apply elem_of_plan_routes in Hin2 as (_ & _ & _ & Hf2 & Hid2).
    simpl in Hf2, Hid2. rewrite length_app in Hf2. simpl in Hf2. lia.
  - intros Hacc. rewrite length_plan_routes. unfold registered.
    apply first_refusal_None in Hacc. rewrite Hacc. apply length_plan.
  - intros <-. rewrite !plan_routes_paths. auto.
Qed.

(** The one-table mapping synthesized twice. *)
Lemma synthesizer_run_twice_witness :
  exists r1 w1 new1 r2 w2 new2,
    generate_fastapi_api sample_app "SQLite" [("users", [("columns", ["id"; "name"])])]
      tt world0 = (Return r1, tt, w1) /\
    generate_fastapi_api sample_app "SQLite" [("users", [("columns", ["id"; "name"])])]
      tt w1 = (Return r2, tt, w2) /\
    routes w2 = routes world0 ++ new1 ++ new2 /\
    map fst new2 = map fst new1 /\ r2 = r1.
Proof.
  destruct (synthesizer_run_twice sample_app "SQLite" "SQLite"
              [("users", [("columns", ["id"; "name"])])]
              [("users", [("columns", ["id"; "name"])])] unit tt world0)
    as (r1 & w1 & new1 & r2 & w2 & new2 & H1 & H2 & _ & Hr2 & _ & _ & _ & Hsame).
  exists r1, w1, new1, r2, w2, new2.
  split; [exact H1|]. split; [exact H2|]. split; [exact Hr2|]. exact (Hsame eq_refl).
Defined.
(** ** The text written to the file *)

Lemma map_injective {A B} (f : A -> B) (l1 l2 : list A) :
  (forall x y, f x = f y -> x = y) -> map f l1 = map f l2 -> l1 = l2.
Proof.
  intros Hf. revert l2. induction l1 as [|x l1 IH]; intros [|y l2] H; simpl in H;
    try discriminate; [reflexivity|].
  injection H as Hxy H. f_equal; auto.
Qed.

Lemma obj_of_metadata_inj (m1 m2 : metadata) :
  obj_of_metadata m1 = obj_of_metadata m2 -> m1 = m2.
Proof.
  unfold obj_of_metadata. intros H. injection H as H.
  apply map_injective in H; [exact H|].
  intros [k1 v1] [k2 v2] Hkv. simpl in Hkv. injection Hkv as -> Hv.
  f_equal. apply map_injective in Hv; [exact Hv|]. intros x y Hxy. congruence.
Qed.

Lemma obj_of_structure_inj (d1 d2 : structure) :
  obj_of_structure d1 = obj_of_structure d2 -> d1 = d2.
Proof.
  unfold obj_of_structure. intros H. injection H as H.
  apply map_injective in H; [exact H|].
  intros [k1 v1] [k2 v2] Hkv. simpl in Hkv. injection Hkv as -> Hv.
  f_equal. apply obj_of_metadata_inj. unfold obj_of_metadata. f_equal. exact Hv.
Qed.

(** X12.  The text [json.dump] writes determines the mapping: two
    mappings returned by the introspector that are written as the same text
    are the same mapping, entity for entity and name for name, in the same
    order. *)
Theorem saved_text_determines_mapping conn1 kind1 conn2 kind2 (L : Type) (l : L)
    (w w1 w2 : world) (d1 d2 : structure) :
  analyze_db_structure conn1 kind1 l w = (Return d1, l, w1) ->
  analyze_db_structure conn2 kind2 l w = (Return d2, l, w2) ->
  json_dumps None (obj_of_structure d1) = json_dumps None (obj_of_structure d2) ->
  d1 = d2.
Proof.
  intros H1 H2 Htext.
  apply analyze_db_structure_wf, obj_wf_structure, json_loads_dumps in H1.
  apply analyze_db_structure_wf, obj_wf_structure, json_loads_dumps in H2.
  rewrite Htext in H1. rewrite H1 in H2.
  apply obj_of_structure_inj. congruence.
Qed.

(** PostgreSQL and MySQL drivers looking at the same shop database. *)
Lemma saved_text_determines_mapping_witness :
  [("users", [("columns", ["id"; "name"])]);
   ("orders", [("columns", ["id"; "user_id"; "total"])])] =
  ([("users", [("columns", ["id"; "name"])]);
    ("orders", [("columns", ["id"; "user_id"; "total"])])] : structure).
Proof.
  apply (saved_text_determines_mapping shop_db "PostgreSQL" shop_db "MySQL"
           unit tt world0 world0 world0); reflexivity.
Defined.






(** ** Requests to the endpoints of an introspected mapping *)

Lemma last_binding_last (key : string) (d0 : structure) (e : string)
    (names : list string) :
  last_binding key (d0 ++ [(e, [(key, names)])]) = Some names.
Proof.
  unfold last_binding. rewrite fold_left_app. simpl. rewrite String.eqb_refl.
  reflexivity.
Qed.

(** X14.  After the synthesizer has run on a mapping the introspector
    returned, all of whose paths the application accepts, every entity of
    the mapping has its route, each route has a function object of its own,
    and a request to any of them is answered with the entity the mapping
    lists last: its name, its own list of names and, for a table, the query
    text built from its name and the [id] of the request, which is
    returned, not executed. *)
Theorem introspected_handlers_answer_for_last (app : FastAPI) conn kind
    (L : Type) (l : L) (w w1 : world) (d0 : structure) (last : string) (m : metadata)
    (kind' : string) (L' : Type) (l' : L') :
  analyze_db_structure conn kind l w = (Return (d0 ++ [(last, m)]), l, w1) ->
  accepts app (d0 ++ [(last, m)]) ->
  exists names r w2 new,
    m = [(kind_key kind, names)] /\
    generate_fastapi_api app kind' (d0 ++ [(last, m)]) l' w1 = (Return r, l', w2) /\
    routes w2 = routes w1 ++ new /\
    NoDup (map snd new) /\
    (forall e, e ∈ od_keys (d0 ++ [(last, m)]) -> exists h, (kind_path kind e, h) ∈ new) /\
    (forall path h id,
       (path, h) ∈ new ->
       call_handler w2 h id = Return (kind_response kind last names id)).
Proof.
  intros Hrun Hacc. apply analyze_entries_shape in Hrun as [_ Hall].
  assert (Hm : exists names, m = [(kind_key kind, names)]).
  { apply Forall_app in Hall as [_ Hlast]. inversion Hlast as [|? ? H _]; subst.
    exact H. }
  destruct Hm as [names ->]. exists names.
  assert (Hne : d0 ++ [(last, [(kind_key kind, names)])] <> []).
  { intros H. apply app_eq_nil in H as [_ H]. discriminate H. }
  destruct (generate_fastapi_api_reached app kind' _ L' l' w1 Hne)
    as (r & w2 & p & pre & last' & m' & post & final & Hgen & Hroutes & Hframes &
        Hd & _ & _ & _ & Htable & Hcols & Hkeys & Hstop).
  destruct Hstop as [(-> & _ & _ & ->)|(c & x & Hin & Herr & _)].
  2:{ exfalso. apply elem_of_entity_plan in Hin as (_ & Hcase). simpl in Hcase.
      assert (Hmem : (last', m') ∈ pre ++ (last', m') :: post)
        by (apply elem_of_app; right; left).
      rewrite <- Hd in Hmem.
      destruct (Hacc last' m') as [Ht Hc].
      - exact Hmem.
      - destruct Hcase as [(-> & Hm)|(-> & Hm)]; simpl in Herr;
          [rewrite Ht in Herr | rewrite Hc in Herr]; try assumption; discriminate. }
  apply app_inj_tail in Hd as [<- Hlast]. injection Hlast as <- <-.
  rewrite (plan_under kind) in Hroutes by assumption.
  exists r, w2, (plan_routes (length (frames w1)) (functions w1)
                   (map (fun kv => (fst kv, kind_code kind))
                      (d0 ++ [(last, [(kind_key kind, names)])]))).
  split; [reflexivity|]. split; [exact Hgen|]. split; [exact Hroutes|].
  split; [apply NoDup_plan_routes|].
  split.
  - intros e He.
    destruct (plan_routes_elem_of (length (frames w1)) (functions w1)
                (map (fun kv : string * metadata => (fst kv, kind_code kind))
                   (d0 ++ [(last, [(kind_key kind, names)])])) e (kind_code kind))
      as (h & Hh & _).
    + apply list_elem_of_In, in_map_iff in He as ([e' m'] & <- & Hin).
      apply list_elem_of_In, in_map_iff. exists (e', m'). auto.
    + rewrite route_path_kind_code in Hh. exists h. exact Hh.
  - intros path h id Hin.
    apply elem_of_plan_routes in Hin as (e & Hin & _ & Hf & _).
    apply list_elem_of_In, in_map_iff in Hin as (kv & Hkv & _).
    injection Hkv as _ Hcode.
    unfold call_handler, kind_response. rewrite Hf, <- Hcode. unfold kind_code.
    destruct (kind_key_cases kind) as [Hk|Hk]; rewrite Hk in *; simpl.
    + apply (call_get_collection_data_final w2 (frames w1) final);
        [assumption | assumption |].
      destruct Hkeys as [Hkeys|[_ Hp]].
      * rewrite Hkeys. apply (last_binding_last "keys").
      * exfalso. apply (f_equal (@length (string * code))) in Hp.
        rewrite !plan_app, length_app in Hp. simpl in Hp. lia.
    + apply (call_get_table_data_final w2 (frames w1) final);
        [assumption | assumption |].
      rewrite Hcols. apply (last_binding_last "columns").
Qed.

(** The shop database: a request for user 7 is answered with [orders]. *)
Lemma introspected_handlers_answer_for_last_witness :
  analyze_db_structure shop_db "PostgreSQL" tt world0 =
    (Return ([("users", [("columns", ["id"; "name"])])] ++
             [("orders", [("columns", ["id"; "user_id"; "total"])])]), tt, world0) /\
  accepts sample_app
    ([("users", [("columns", ["id"; "name"])])] ++
     [("orders", [("columns", ["id"; "user_id"; "total"])])]) /\
  exists r w2 new,
    generate_fastapi_api sample_app "PostgreSQL"
      ([("users", [("columns", ["id"; "name"])])] ++
       [("orders", [("columns", ["id"; "user_id"; "total"])])]) tt world0 =
      (Return r, tt, w2) /\
    routes w2 = routes world0 ++ new /\
    exists h, ("/users/{id}", h) ∈ new /\
      call_handler w2 h "7" =
        Return (TableData "orders" ["id"; "user_id"; "total"]
                  "SELECT * FROM orders WHERE id = 7").
Proof.
  assert (Hacc : accepts sample_app
                   ([("users", [("columns", ["id"; "name"])])] ++
                    [("orders", [("columns", ["id"; "user_id"; "total"])])])).
  { apply first_refusal_None. reflexivity. }
  split; [reflexivity|]. split; [exact Hacc|].
  destruct (introspected_handlers_answer_for_last sample_app shop_db "PostgreSQL" unit tt
              world0 world0 [("users", [("columns", ["id"; "name"])])]
              "orders" [("columns", ["id"; "user_id"; "total"])]
              "PostgreSQL" unit tt eq_refl Hacc)
    as (names & r & w2 & new & Hm & Hrun & Hroutes & _ & Hroute & Hreq).
  injection Hm as <-.
  exists r, w2, new. split; [exact Hrun|]. split; [exact Hroutes|].
  destruct (Hroute "users") as [h Hh]; [left|].
  exists h. split; [exact Hh|]. exact (Hreq _ h "7" Hh).
Defined.
